(** * nest-learning: a shallow embedding of the request pipeline and services

  The development follows the layout of the repository:

  - [Js]                    values, objects and HTTP errors shared by all parts
  - [RateLimitMiddleware]   src/common/middleware/rate-limit.middleware.ts
  - [Entities]              src/users/entities, src/products/entities
  - [UsersService]          src/users/users.service.ts
  - [AuthService]           src/auth/auth.service.ts, the two strategies and
                            the two guards of src/auth
  - [RolesGuard]            src/common/guards/roles.guard.ts
  - [ProductsService]       src/products/products.service.ts
  - [Examples]              sample requests and tables

  Definitions come first, the properties of each component follow. Times
  are integer milliseconds, counters and stock are integers, prices and
  percentages are rationals. *)

From Stdlib Require Import ZArith QArith Lqa String Ascii List DecimalString.
From stdpp Require Import gmap strings list sorting.

Close Scope Q_scope.
Local Open Scope string_scope.
Local Open Scope Z_scope.

(* ===================================================================== *)
(** ** Shared JavaScript notions *)
(* ===================================================================== *)

Module Js.

(** [Math.ceil(a / b)] for an integer [a] and a positive integer [b]. *)
Definition ceil_div (a b : Z) : Z := - ((- a) / b).

(** Template-literal rendering of an integer, as in [`${n}`]. *)
Definition string_of_Z (n : Z) : string :=
  NilZero.string_of_int (Z.to_int n).

(** [s.split(sep)] for a one-character separator. *)
Fixpoint split (sep : ascii) (s : string) : list string :=
  match s with
  | EmptyString => [EmptyString]
  | String c rest =>
      if Ascii.eqb c sep then EmptyString :: split sep rest
      else match split sep rest with
           | [] => [String c EmptyString]
           | seg :: segs => String c seg :: segs
           end
  end.

(** [s.includes(c)] for a single character. *)
Fixpoint has_char (c : ascii) (s : string) : bool :=
  match s with
  | EmptyString => false
  | String d rest => Ascii.eqb d c || has_char c rest
  end.

(** Truthiness of a possibly undefined string: [undefined] and the empty
    string are falsy. *)
Definition str_truthy (o : option string) : bool :=
  match o with
  | Some s => negb (String.eqb s "")
  | None => false
  end.

(** [a || b] on possibly undefined strings. *)
Definition str_or (a b : option string) : option string :=
  if str_truthy a then a else b.

(** Values held by the fields of an entity object. [VArr] is a loaded
    relation, given by the ids of the related rows. *)
Inductive Val :=
| VNum (n : Z)
| VStr (s : string)
| VBool (b : bool)
| VDate (ms : Z)
| VArr (ids : list Z)
| VNull.

#[global] Instance Val_eq_dec : EqDecision Val.
Proof. solve_decision. Defined.

(** Truthiness of a field read; [None] is [undefined]. *)
Definition truthy (v : option Val) : bool :=
  match v with
  | None | Some VNull => false
  | Some (VBool b) => b
  | Some (VNum n) => negb (n =? 0)
  | Some (VStr s) => negb (String.eqb s "")
  | Some (VDate _) | Some (VArr _) => true
  end.

(** [!x] for a reference that may be [null]/[undefined]; objects are truthy. *)
Definition is_nullish {A} (x : option A) : bool :=
  match x with
  | None => true
  | Some _ => false
  end.

(** A field of a JSON body that the handler declares as [number] and
    receives as it came: a number, [null], or nothing at all
    ([undefined]). Strings, booleans, arrays and objects are not
    modelled. *)
Inductive NumberField :=
| NNum (q : Q)
| NNull
| NUndefined.

(** [v < c] for a number [c]: [null] is compared as 0, [undefined] as
    [NaN], for which every comparison is false. *)
Definition num_lt (v : NumberField) (c : Q) : bool :=
  match v with
  | NNum q => negb (Qle_bool c q)
  | NNull => negb (Qle_bool c 0)
  | NUndefined => false
  end.

(** [v > c] for a number [c]. *)
Definition num_gt (v : NumberField) (c : Q) : bool :=
  match v with
  | NNum q => negb (Qle_bool q c)
  | NNull => negb (Qle_bool 0 c)
  | NUndefined => false
  end.

(** The exceptions thrown, with their message. [Error] is any exception
    that is not an [HttpException]. *)
Inductive HttpException :=
| BadRequestException (message : string)
| UnauthorizedException (message : string)
| NotFoundException (message : string)
| ConflictException (message : string)
| Error (message : string).

(** HTTP status the exception filter answers with. *)
Definition getStatus (e : HttpException) : Z :=
  match e with
  | BadRequestException _ => 400
  | UnauthorizedException _ => 401
  | NotFoundException _ => 404
  | ConflictException _ => 409
  | Error _ => 500
  end.

(** A computation that either returns or throws. *)
Inductive Result (A : Type) :=
| Ok (a : A)
| Throw (e : HttpException).
Arguments Ok {A} a.
Arguments Throw {A} e.

(** Sequencing of [await]ed calls: the first exception aborts the rest. *)
#[global] Instance result_bind : MBind Result :=
  fun A B k r =>
    match r with
    | Ok a => k a
    | Throw e => Throw e
    end.

#[global] Instance result_ret : MRet Result := fun A a => Ok a.

End Js.

(* ===================================================================== *)
(** ** Rate limiter (rate-limit.middleware.ts) *)
(* ===================================================================== *)

Module RateLimitMiddleware.

Record RateLimitRecord := { count : Z; firstRequest : Z }.

(** The two read-only fields of the middleware. *)
Record Config := { windowMs : Z; maxRequests : Z }.

Definition defaults : Config :=
  {| windowMs := 60 * 1000; maxRequests := 100 |}.

(** A header value as Express types it: [string | string[]]. *)
Inductive HeaderValue :=
| HStr (s : string)
| HArr (l : list string).

(** The parts of the request the middleware reads. *)
Record Request := {
  headers : gmap string HeaderValue;
  ip : option string;
  socket_remoteAddress : option string
}.

(** Client identifiers are JavaScript strings; [None] stands for
    [undefined], which [forwarded[0]] yields on an empty array. *)
Definition getClientId (req : Request) : option string :=
  match headers req !! "x-forwarded-for" with
  | Some (HArr l) => l !! 0%nat
  | Some (HStr s) =>
      if String.eqb s "" then
        Js.str_or (ip req) (Js.str_or (socket_remoteAddress req) (Some "unknown"))
      else Js.split "," s !! 0%nat
  | None =>
      Js.str_or (ip req) (Js.str_or (socket_remoteAddress req) (Some "unknown"))
  end.

Inductive Outcome :=
| Next
| TooManyRequests (retryAfter : Z).

Record Response := {
  xRateLimitLimit : Z;
  xRateLimitRemaining : Z;
  xRateLimitReset : Z;
  outcome : Outcome
}.

(** Get-or-create, window reset, or increment of the client's record. *)
Definition touch (cfg : Config) (now : Z) (r : option RateLimitRecord)
  : RateLimitRecord :=
  match r with
  | None => {| count := 1; firstRequest := now |}
  | Some record =>
      if windowMs cfg <? now - firstRequest record
      then {| count := 1; firstRequest := now |}
      else {| count := count record + 1; firstRequest := firstRequest record |}
  end.

(** Headers and verdict computed from the record after it was touched. *)
Definition respond (cfg : Config) (now : Z) (record : RateLimitRecord)
  : Response :=
  let remaining := Z.max 0 (maxRequests cfg - count record) in
  let resetTime := firstRequest record + windowMs cfg in
  {| xRateLimitLimit := maxRequests cfg;
     xRateLimitRemaining := remaining;
     xRateLimitReset := resetTime;
     outcome :=
       if maxRequests cfg <? count record
       then TooManyRequests
              (Js.ceil_div (firstRequest record + windowMs cfg - now) 1000)
       else Next |}.

(** [use(req, res, next)] with [Date.now()] passed in as [now]. *)
Definition use (cfg : Config) (requests : gmap (option string) RateLimitRecord)
    (req : Request) (now : Z)
  : gmap (option string) RateLimitRecord * Response :=
  let clientId := getClientId req in
  let record := touch cfg now (requests !! clientId) in
  (<[clientId := record]> requests, respond cfg now record).

(** The middleware serving a sequence of timestamped requests. *)
Fixpoint serve (cfg : Config) (requests : gmap (option string) RateLimitRecord)
    (trace : list (Request * Z))
  : gmap (option string) RateLimitRecord * list Response :=
  match trace with
  | [] => (requests, [])
  | (req, now) :: rest =>
      let '(requests1, resp) := use cfg requests req now in
      let '(requests2, resps) := serve cfg requests1 rest in
      (requests2, resp :: resps)
  end.

(** [cleanup()]: drop the records idle for more than two windows. *)
Definition cleanup (cfg : Config) (requests : gmap (option string) RateLimitRecord)
    (now : Z) : gmap (option string) RateLimitRecord :=
  filter (fun kv => negb (windowMs cfg * 2 <? now - firstRequest (snd kv)) = true)
         requests.

(** *** What the specification says of the client identifier *)

Definition is_space (c : ascii) : bool :=
  match Ascii.nat_of_ascii c with
  | 9%nat | 10%nat | 11%nat | 12%nat | 13%nat | 32%nat => true
  | _ => false
  end.

Fixpoint trim_start (s : string) : string :=
  match s with
  | String c rest => if is_space c then trim_start rest else s
  | EmptyString => EmptyString
  end.

Fixpoint trim_end (s : string) : string :=
  match s with
  | EmptyString => EmptyString
  | String c rest =>
      match trim_end rest with
      | EmptyString => if is_space c then EmptyString else String c EmptyString
      | rest' => String c rest'
      end
  end.

Definition trim (s : string) : string := trim_end (trim_start s).

(** The derivation in the specification's words: first forwarded-for entry,
    comma-split and trimmed; else the connection address; else "unknown". *)
Definition spec_clientId (req : Request) : option string :=
  match headers req !! "x-forwarded-for" with
  | Some (HStr s) => trim <$> (Js.split "," s !! 0%nat)
  | Some (HArr l) => trim <$> (l !! 0%nat)
  | None =>
      match ip req with
      | Some a => Some a
      | None =>
          match socket_remoteAddress req with
          | Some a => Some a
          | None => Some "unknown"
          end
      end
  end.

(** *** The view of one client *)

(** Timestamps of the requests of client [c] in a trace. *)
Definition times_of (c : option string) (trace : list (Request * Z)) : list Z :=
  snd <$> filter (fun rt => getClientId (fst rt) = c) trace.

(** Responses given to client [c], in order. *)
Definition responses_to (c : option string) (trace : list (Request * Z))
    (resps : list Response) : list Response :=
  snd <$> filter (fun x => getClientId (fst (fst x)) = c) (zip trace resps).

(** The record of one client driven by its own requests only. *)
Fixpoint drive (cfg : Config) (r : option RateLimitRecord) (times : list Z)
  : option RateLimitRecord * list Response :=
  match times with
  | [] => (r, [])
  | now :: rest =>
      let record := touch cfg now r in
      let '(r', resps) := drive cfg (Some record) rest in
      (r', respond cfg now record :: resps)
  end.

(** A request at [now] starts a fresh window for a client whose record is [r]. *)
Definition opens_window (cfg : Config) (r : option RateLimitRecord) (now : Z) : Prop :=
  match r with
  | None => True
  | Some record => windowMs cfg < now - firstRequest record
  end.

End RateLimitMiddleware.

(* ===================================================================== *)
(** ** Entities (user.entity.ts, product.entity.ts) and the tables *)
(* ===================================================================== *)

Module Entities.

Inductive UserRole := USER | ADMIN | MODERATOR.

#[global] Instance UserRole_eq_dec : EqDecision UserRole.
Proof. solve_decision. Defined.

(** The string each enum member stands for. *)
Definition UserRole_value (r : UserRole) : string :=
  match r with
  | USER => "user"
  | ADMIN => "admin"
  | MODERATOR => "moderator"
  end.

(** A row of table [users]. *)
Record User := {
  user_id : Z;
  email : string;
  password : string;
  firstName : string;
  lastName : string;
  role : UserRole;
  isActive : bool;
  phone : option string;
  user_createdAt : Z;
  user_updatedAt : Z
}.

#[global] Instance User_eq_dec : EqDecision User.
Proof. solve_decision. Defined.

Inductive ProductStatus := DRAFT | ACTIVE | INACTIVE | DISCONTINUED.

#[global] Instance ProductStatus_eq_dec : EqDecision ProductStatus.
Proof. solve_decision. Defined.

Inductive ProductCategory := ELECTRONICS | CLOTHING | FOOD | BOOKS | OTHER.

#[global] Instance ProductCategory_eq_dec : EqDecision ProductCategory.
Proof. solve_decision. Defined.

(** A row of table [products]; it is also the entity object the product
    service hands out, which always carries every column. Prices and
    percentages are decimal columns, held as rationals. *)
Record Product := {
  id : Z;
  name : string;
  description : option string;
  price : Q;
  stock : Z;
  sku : option string;
  category : ProductCategory;
  status : ProductStatus;
  isFeatured : bool;
  discountPercent : option Q;
  createdById : option Z;
  createdAt : Z;
  updatedAt : Z
}.

#[global] Instance Q_eq_dec : EqDecision Q.
Proof. solve_decision. Defined.

#[global] Instance Product_eq_dec : EqDecision Product.
Proof. solve_decision. Defined.

(** [get discountedPrice()], in exact arithmetic. The getter computes in
    double precision, so its result is this value up to rounding. *)
Definition discountedPrice (p : Product) : Q :=
  match discountPercent p with
  | None => price p
  | Some d =>
      if Qle_bool d 0 then price p
      else (price p - price p * (d / 100))%Q
  end.

(** [get isInStock()] *)
Definition isInStock (p : Product) : bool :=
  (0 <? stock p) && bool_decide (status p = ACTIVE).

(** The two tables, and the auto-increment counter of [users]. *)
Record Database := {
  users : list User;
  products : list Product;
  nextUserId : Z
}.

(** The entity object of a user row with every column loaded. *)
Definition user_entity (u : User) : gmap string Js.Val :=
  list_to_map [
    ("id", Js.VNum (user_id u));
    ("email", Js.VStr (email u));
    ("password", Js.VStr (password u));
    ("firstName", Js.VStr (firstName u));
    ("lastName", Js.VStr (lastName u));
    ("role", Js.VStr (UserRole_value (role u)));
    ("isActive", Js.VBool (isActive u));
    ("phone", match phone u with Some p => Js.VStr p | None => Js.VNull end);
    ("createdAt", Js.VDate (user_createdAt u));
    ("updatedAt", Js.VDate (user_updatedAt u))
  ].

(** The [select] option of a repository query: only the listed columns
    are loaded into the entity object. *)
Definition select (columns : list string) (e : gmap string Js.Val)
  : gmap string Js.Val :=
  filter (fun kv => fst kv ∈ columns) e.

(** The [relations: ['products']] option: the products created by the user. *)
Definition products_of (db : Database) (uid : Z) : list Z :=
  id <$> filter (fun p => createdById p = Some uid) (products db).

(** The enum member a stored string stands for. *)
Definition parse_role (s : string) : option UserRole :=
  if String.eqb s "user" then Some USER
  else if String.eqb s "admin" then Some ADMIN
  else if String.eqb s "moderator" then Some MODERATOR
  else None.

(** The row after an UPDATE that writes the columns present in an entity
    object and sets [updatedAt] to [now]; the id and [createdAt] are never
    written. *)
Definition merge_user (e : gmap string Js.Val) (now : Z) (u : User) : User :=
  {| user_id := user_id u;
     email := match e !! "email" with Some (Js.VStr s) => s | _ => email u end;
     password := match e !! "password" with Some (Js.VStr s) => s | _ => password u end;
     firstName := match e !! "firstName" with Some (Js.VStr s) => s | _ => firstName u end;
     lastName := match e !! "lastName" with Some (Js.VStr s) => s | _ => lastName u end;
     role := match e !! "role" with
             | Some (Js.VStr s) => default (role u) (parse_role s)
             | _ => role u
             end;
     isActive := match e !! "isActive" with Some (Js.VBool b) => b | _ => isActive u end;
     phone := match e !! "phone" with
              | Some (Js.VStr s) => Some s
              | Some Js.VNull => None
              | _ => phone u
              end;
     user_createdAt := user_createdAt u;
     user_updatedAt := now |}.

End Entities.

(* ===================================================================== *)
(** ** Platform services the code calls into *)
(* ===================================================================== *)

(** [bcrypt.hash] and [bcrypt.compare], and the configured salt rounds
  ([configService.get('BCRYPT_SALT_ROUNDS')], possibly unset). *)
Class Bcrypt := {
  bcrypt_hash : string -> Z -> string;
  bcrypt_compare : string -> string -> bool;
  BCRYPT_SALT_ROUNDS : option Z
}.

(* ===================================================================== *)
(** ** User service (users.service.ts) *)
(* ===================================================================== *)

Module UsersService.
Import Entities.

Record CreateUserDto := {
  c_email : string;
  c_password : string;
  c_firstName : string;
  c_lastName : string;
  c_phone : option string;
  c_role : option UserRole
}.

Record UpdateUserDto := {
  u_email : option string;
  u_firstName : option string;
  u_lastName : option string;
  u_phone : option string;
  u_role : option UserRole;
  u_isActive : option bool
}.

(** The columns [findAll] and [findOne] select: all but the password. *)
Definition public_columns : list string :=
  ["id"; "email"; "firstName"; "lastName"; "role"; "isActive"; "phone";
   "createdAt"; "updatedAt"].

(** [userRepository.findOne({ where: { email } })] *)
Definition repo_find_by_email (db : Database) (e : string) : option User :=
  List.find (fun u => String.eqb (email u) e) (users db).

(** [userRepository.findOne({ where: { id } })] *)
Definition repo_find_by_id (db : Database) (i : Z) : option User :=
  List.find (fun u => user_id u =? i) (users db).

(** The UPDATE of the row with id [i]: the columns present in [e] are
    written and [updatedAt] is stamped. *)
Definition repo_write (db : Database) (i : Z) (e : gmap string Js.Val) (now : Z)
  : Database :=
  {| users := (fun u => if user_id u =? i then merge_user e now u else u) <$> users db;
     products := products db;
     nextUserId := nextUserId db |}.

(** The change detection of [save]: does a column present in the entity
    object differ from the stored row. *)
Definition row_differs (db : Database) (i : Z) (e : gmap string Js.Val) : bool :=
  match repo_find_by_id db i with
  | Some u => negb (bool_decide (merge_user e (user_updatedAt u) u = u))
  | None => false
  end.

(** [userRepository.save(entity)] for an entity whose row exists. When no
    column differs no UPDATE is sent: the row keeps its [updatedAt] and the
    object is returned as it is. Otherwise the row is written and the
    object returned carries the new [updatedAt]. *)
Definition repo_save (db : Database) (i : Z) (e : gmap string Js.Val) (now : Z)
  : gmap string Js.Val * Database :=
  if row_differs db i e
  then (<["updatedAt" := Js.VDate now]> e, repo_write db i e now)
  else (e, db).

Section WithBcrypt.
Context `{Bcrypt}.

(** [configService.get<number>('BCRYPT_SALT_ROUNDS') || 10] *)
Definition saltRounds : Z :=
  match BCRYPT_SALT_ROUNDS with
  | Some n => if n =? 0 then 10 else n
  | None => 10
  end.

Definition create (db : Database) (dto : CreateUserDto) (now : Z)
  : Js.Result (gmap string Js.Val) * Database :=
  match repo_find_by_email db (c_email dto) with
  | Some _ => (Js.Throw (Js.ConflictException "Email already exists"), db)
  | None =>
      let hashedPassword := bcrypt_hash (c_password dto) saltRounds in
      let row :=
        {| user_id := nextUserId db;
           email := c_email dto;
           password := hashedPassword;
           firstName := c_firstName dto;
           lastName := c_lastName dto;
           role := default USER (c_role dto);
           isActive := true;
           phone := c_phone dto;
           user_createdAt := now;
           user_updatedAt := now |} in
      let savedUser := user_entity row in
      let userWithoutPassword := delete "password" savedUser in
      (Js.Ok userWithoutPassword,
       {| users := users db ++ [row];
          products := products db;
          nextUserId := nextUserId db + 1 |})
  end.

End WithBcrypt.

(** Newest first: [order: { createdAt: 'DESC' }]. *)
Definition newest_first (u1 u2 : User) : Prop :=
  user_createdAt u2 <= user_createdAt u1.

#[global] Instance newest_first_dec : RelDecision newest_first.
Proof. intros u1 u2. unfold newest_first. apply _. Defined.

Definition findAll (db : Database) : list (gmap string Js.Val) :=
  (fun u => select public_columns (user_entity u))
    <$> merge_sort newest_first (users db).

Definition findOne (db : Database) (i : Z) : Js.Result (gmap string Js.Val) :=
  match repo_find_by_id db i with
  | None =>
      Js.Throw (Js.NotFoundException
                  ("User with ID " +:+ Js.string_of_Z i +:+ " not found"))
  | Some u =>
      Js.Ok (<["products" := Js.VArr (products_of db i)]>
               (select public_columns (user_entity u)))
  end.

(** The one lookup that keeps the password, for the credential check. *)
Definition findByEmail (db : Database) (e : string) : option (gmap string Js.Val) :=
  user_entity <$> repo_find_by_email db e.

(** [Object.assign(user, updateUserDto)]: the fields the DTO carries. *)
Definition assign (user : gmap string Js.Val) (dto : UpdateUserDto)
  : gmap string Js.Val :=
  let set (k : string) (v : option Js.Val) (o : gmap string Js.Val) :=
    match v with Some x => <[k := x]> o | None => o end in
  set "isActive" (Js.VBool <$> u_isActive dto)
    (set "role" ((fun r => Js.VStr (UserRole_value r)) <$> u_role dto)
       (set "phone" (Js.VStr <$> u_phone dto)
          (set "lastName" (Js.VStr <$> u_lastName dto)
             (set "firstName" (Js.VStr <$> u_firstName dto)
                (set "email" (Js.VStr <$> u_email dto) user))))).

Definition update (db : Database) (i : Z) (dto : UpdateUserDto) (now : Z)
  : Js.Result (gmap string Js.Val) * Database :=
  match findOne db i with
  | Js.Throw e => (Js.Throw e, db)
  | Js.Ok user =>
      let emailChanged :=
        Js.str_truthy (u_email dto)
        && negb (bool_decide (Js.VStr <$> u_email dto = user !! "email")) in
      if emailChanged
         && negb (Js.is_nullish (repo_find_by_email db (default "" (u_email dto))))
      then (Js.Throw (Js.ConflictException "Email already in use"), db)
      else
        let user := assign user dto in
        let updatedUser := (repo_save db i user now).1 in
        let userWithoutPassword := delete "password" updatedUser in
        (Js.Ok userWithoutPassword, (repo_save db i user now).2)
  end.

(** Soft delete: the row stays, [isActive] is cleared. *)
Definition remove (db : Database) (i : Z) (now : Z) : Js.Result unit * Database :=
  match findOne db i with
  | Js.Throw e => (Js.Throw e, db)
  | Js.Ok user =>
      let user := <["isActive" := Js.VBool false]> user in
      (Js.Ok tt, (repo_save db i user now).2)
  end.

Definition hardDelete (db : Database) (i : Z) : Js.Result unit * Database :=
  let kept := filter (fun u => user_id u <> i) (users db) in
  let affected := (length (users db) - length kept)%nat in
  if Nat.eqb affected 0
  then (Js.Throw (Js.NotFoundException
                    ("User with ID " +:+ Js.string_of_Z i +:+ " not found")), db)
  else (Js.Ok tt,
        {| users := kept;
           products := (fun p =>
                          if bool_decide (createdById p = Some i)
                          then {| id := id p; name := name p;
                                  description := description p; price := price p;
                                  stock := stock p; sku := sku p;
                                  category := category p; status := status p;
                                  isFeatured := isFeatured p;
                                  discountPercent := discountPercent p;
                                  createdById := None;
                                  createdAt := createdAt p;
                                  updatedAt := updatedAt p |}
                          else p) <$> products db;
           nextUserId := nextUserId db |}).

(** [getUserStatistics]: the user with five columns and its products,
    their number, and the account age in days. *)
Definition getUserStatistics (db : Database) (i : Z) (now : Z)
  : Js.Result (gmap string Js.Val * Z * Z) :=
  match repo_find_by_id db i with
  | None =>
      Js.Throw (Js.NotFoundException
                  ("User with ID " +:+ Js.string_of_Z i +:+ " not found"))
  | Some u =>
      let user :=
        <["products" := Js.VArr (products_of db i)]>
          (select ["id"; "email"; "firstName"; "lastName"; "createdAt"]
                  (user_entity u)) in
      Js.Ok (user, Z.of_nat (length (products_of db i)),
             (now - user_createdAt u) / (1000 * 60 * 60 * 24))
  end.

(** [userRepository.update(id, partial)]: the UPDATE is sent whatever the
    row holds; the listed columns are written, [updatedAt] is stamped. *)
Definition repo_update (db : Database) (i : Z) (partial : gmap string Js.Val)
    (now : Z) : Database :=
  repo_write db i partial now.

Section PasswordChange.
Context `{Bcrypt}.

Definition updatePassword (db : Database) (i : Z)
    (currentPassword newPassword : string) (now : Z)
  : Js.Result unit * Database :=
  match repo_find_by_id db i with
  | None =>
      (Js.Throw (Js.NotFoundException
                   ("User with ID " +:+ Js.string_of_Z i +:+ " not found")), db)
  | Some user =>
      let isPasswordValid := bcrypt_compare currentPassword (password user) in
      if negb isPasswordValid
      then (Js.Throw (Js.BadRequestException "Current password is incorrect"), db)
      else
        let hashedPassword := bcrypt_hash newPassword saltRounds in
        (Js.Ok tt,
         repo_update db i {[ "password" := Js.VStr hashedPassword ]} now)
  end.

End PasswordChange.

(** What the [users] table is expected to keep: the primary key and the
    unique email column hold no value twice, and the auto-increment counter
    is above every id handed out. *)
Definition unique_ids (db : Database) : Prop := NoDup (user_id <$> users db).

Definition unique_emails (db : Database) : Prop := NoDup (email <$> users db).

Definition ids_below_counter (db : Database) : Prop :=
  Forall (fun u => user_id u < nextUserId db) (users db).

End UsersService.

(* ===================================================================== *)
(** ** Authentication (auth.service.ts, local.strategy.ts, jwt.strategy.ts,
     local-auth.guard.ts, jwt-auth.guard.ts) *)
(* ===================================================================== *)

Module AuthService.
Import Entities.

Record JwtPayload := { sub : Z; jwt_email : string; jwt_role : string }.

Section WithBcrypt.
Context `{Bcrypt}.

(** [validateUser]: [Ok None] is the [null] result. *)
Definition validateUser (db : Database) (email password : string)
  : Js.Result (option (gmap string Js.Val)) :=
  match UsersService.findByEmail db email with
  | None => Js.Ok None
  | Some user =>
      if negb (Js.truthy (user !! "isActive")) then Js.Ok None
      else
        match user !! "password" with
        | Some (Js.VStr hash) =>
            let isPasswordValid := bcrypt_compare password hash in
            if negb isPasswordValid then Js.Ok None
            else Js.Ok (Some (delete "password" user))
        | _ => Js.Throw (Js.Error "data and hash arguments required")
        end
  end.

(** [LocalStrategy.validate] *)
Definition LocalStrategy_validate (db : Database) (email password : string)
  : Js.Result (gmap string Js.Val) :=
  user ← validateUser db email password;
  match user with
  | None => Js.Throw (Js.UnauthorizedException "Invalid email or password")
  | Some user => Js.Ok user
  end.

(** [LocalAuthGuard.handleRequest(err, user, info)] *)
Definition LocalAuthGuard_handleRequest
    (err : option Js.HttpException) (user : option (gmap string Js.Val))
  : Js.Result (gmap string Js.Val) :=
  match err, user with
  | Some e, _ => Js.Throw e
  | None, None => Js.Throw (Js.UnauthorizedException "Invalid credentials")
  | None, Some user => Js.Ok user
  end.

(** What Passport does with credentials it takes as present: it calls
    [validate] and hands what that returned or threw to [handleRequest]. *)
Definition verifyCredentials (db : Database) (email password : string)
  : Js.Result (gmap string Js.Val) :=
  match LocalStrategy_validate db email password with
  | Js.Throw e => LocalAuthGuard_handleRequest (Some e) None
  | Js.Ok user => LocalAuthGuard_handleRequest None (Some user)
  end.

(** The outcome of [POST /auth/login] before the controller runs, for the
    fields [email] and [password] of the body, each a string or missing.
    The local strategy of Passport fails a request in which one of them is
    missing or empty without calling [validate]; [handleRequest] then gets
    neither an error nor a user. *)
Definition loginAttempt (db : Database) (email password : option string)
  : Js.Result (gmap string Js.Val) :=
  if negb (Js.str_truthy email) || negb (Js.str_truthy password)
  then LocalAuthGuard_handleRequest None None
  else verifyCredentials db (default "" email) (default "" password).

End WithBcrypt.

(** [validateJwtPayload] *)
Definition validateJwtPayload (db : Database) (payload : JwtPayload)
  : Js.Result (gmap string Js.Val) :=
  user ← UsersService.findOne db (sub payload);
  if Js.is_nullish (Some user)
  then Js.Throw (Js.UnauthorizedException "User no longer exists")
  else if negb (Js.truthy (user !! "isActive"))
  then Js.Throw (Js.UnauthorizedException "User account is deactivated")
  else Js.Ok user.

(** [JwtStrategy.validate] *)
Definition JwtStrategy_validate (db : Database) (payload : JwtPayload)
  : Js.Result (gmap string Js.Val) :=
  user ← validateJwtPayload db payload;
  if Js.is_nullish (Some user)
  then Js.Throw (Js.UnauthorizedException "User not found or inactive")
  else Js.Ok user.

(** [JwtAuthGuard.handleRequest(err, user, info)] for a token that
    verified, so that [info] is empty. *)
Definition JwtAuthGuard_handleRequest
    (err : option Js.HttpException) (user : option (gmap string Js.Val))
  : Js.Result (gmap string Js.Val) :=
  match err, user with
  | Some e, _ => Js.Throw e
  | None, None => Js.Throw (Js.UnauthorizedException "Unauthorized")
  | None, Some user => Js.Ok user
  end.

(** An authenticated request carrying a verified, unexpired token. *)
Definition authenticate (db : Database) (payload : JwtPayload)
  : Js.Result (gmap string Js.Val) :=
  match JwtStrategy_validate db payload with
  | Js.Throw e => JwtAuthGuard_handleRequest (Some e) None
  | Js.Ok user => JwtAuthGuard_handleRequest None (Some user)
  end.

(** [jwtService.sign], configured elsewhere with the secret and the expiry. *)
Class JwtService := {
  jwt_sign : gmap string Js.Val -> string
}.

(** An object literal; a field whose value is [undefined] is left out. *)
Definition object_of (fields : list (string * option Js.Val)) : gmap string Js.Val :=
  list_to_map (omap (fun kv => pair (fst kv) <$> snd kv) fields).

Record LoginResponse := {
  accessToken : string;
  login_user : gmap string Js.Val
}.

(** The claims [login] puts in the token. *)
Definition login_payload (user : gmap string Js.Val) : gmap string Js.Val :=
  object_of [("sub", user !! "id"); ("email", user !! "email");
             ("role", user !! "role")].

(** [login(user)] *)
Definition login `{JwtService} (user : gmap string Js.Val) : LoginResponse :=
  let payload := login_payload user in
  let accessToken := jwt_sign payload in
  {| accessToken := accessToken;
     login_user := object_of [("id", user !! "id"); ("email", user !! "email");
                              ("firstName", user !! "firstName");
                              ("lastName", user !! "lastName");
                              ("role", user !! "role")] |}.

(** [AuthController.register]: create the user, then log it in. *)
Definition register `{Bcrypt} `{JwtService} (db : Database)
    (createUserDto : UsersService.CreateUserDto) (now : Z)
  : Js.Result LoginResponse * Database :=
  match UsersService.create db createUserDto now with
  | (Js.Throw e, db') => (Js.Throw e, db')
  | (Js.Ok user, db') => (Js.Ok (login user), db')
  end.

End AuthService.

(* ===================================================================== *)
(** ** Role guard (roles.guard.ts) *)
(* ===================================================================== *)

Module RolesGuard.
Import Entities.

(** What the guard reads of the execution context: the [@Roles()] metadata
    of the handler and of its class ([None] when not decorated), and
    [request.user]. *)
Record ExecutionContext := {
  handlerRoles : option (list UserRole);
  classRoles : option (list UserRole);
  user : option (gmap string Js.Val)
}.

(** [Reflector.getAllAndOverride]: the first target with metadata wins. *)
Fixpoint getAllAndOverride {A} (targets : list (option A)) : option A :=
  match targets with
  | [] => None
  | Some m :: _ => Some m
  | None :: rest => getAllAndOverride rest
  end.

(** [requiredRoles.includes(v)] for a field read [v]. *)
Definition includes (requiredRoles : list UserRole) (v : option Js.Val) : bool :=
  existsb (fun r => bool_decide (v = Some (Js.VStr (UserRole_value r))))
          requiredRoles.

Definition canActivate (context : ExecutionContext) : bool :=
  let requiredRoles :=
    getAllAndOverride [handlerRoles context; classRoles context] in
  match requiredRoles with
  | None => true
  | Some requiredRoles =>
      if Nat.eqb (length requiredRoles) 0 then true
      else
        match user context with
        | None => false
        | Some user => includes requiredRoles (user !! "role")
        end
  end.

End RolesGuard.

(* ===================================================================== *)
(** ** Guarded routes (users.controller.ts, products.controller.ts) *)
(* ===================================================================== *)

Module Routes.
Import Entities.

(** [@UseGuards(JwtAuthGuard, RolesGuard)] on a handler decorated with
    [roles] in a controller without class-level roles: the JWT guard sets
    [request.user] or throws, then the role guard answers. [Ok false] is
    the role guard's denial. *)
Definition jwt_then_roles (db : Database) (payload : AuthService.JwtPayload)
    (roles : option (list UserRole)) : Js.Result bool :=
  user ← AuthService.authenticate db payload;
  mret (RolesGuard.canActivate
          {| RolesGuard.handlerRoles := roles;
             RolesGuard.classRoles := None;
             RolesGuard.user := Some user |}).

(** [@Roles(...)] of the two guarded handlers of the users controller. *)
Definition UsersController_findAll : option (list UserRole) := Some [ADMIN; MODERATOR].
Definition UsersController_remove : option (list UserRole) := Some [ADMIN].

End Routes.

(* ===================================================================== *)
(** ** Product service (products.service.ts) *)
(* ===================================================================== *)

(** The storage engine's evaluation of [LOWER(text) LIKE LOWER(pattern)]. *)
Class SqlEngine := {
  like_lower : string -> string -> bool
}.

Module ProductsService.
Import Entities.

Record QueryProductDto := {
  search : option string;
  q_category : option ProductCategory;
  q_status : option ProductStatus;
  minPrice : option Q;
  maxPrice : option Q;
  featured : option bool;
  inStock : option bool;
  q_page : option Z;
  q_limit : option Z;
  sortBy : option string;
  sortOrder : option string
}.

Record Meta := {
  total : Z;
  page : Z;
  limit : Z;
  totalPages : Z;
  hasNextPage : bool;
  hasPreviousPage : bool
}.

Record PaginatedResponse := { data : list Product; meta : Meta }.

(** The conditions [findAll] can add with [andWhere]. *)
Inductive Condition :=
| SearchLike (pattern : string)
| CategoryIs (c : ProductCategory)
| StatusIs (s : ProductStatus)
| PriceBetween (lo hi : Q)
| PriceAtLeast (lo : Q)
| PriceAtMost (hi : Q)
| FeaturedIs (b : bool)
| StockPositive.

(** The state of a query builder on table [products]. *)
Record QueryBuilder := {
  wheres : list Condition;
  order : option (string * string);
  skip : option Z;
  take : option Z
}.

Definition createQueryBuilder : QueryBuilder :=
  {| wheres := []; order := None; skip := None; take := None |}.

Definition andWhere (qb : QueryBuilder) (c : Condition) : QueryBuilder :=
  {| wheres := wheres qb ++ [c]; order := order qb;
     skip := skip qb; take := take qb |}.

Definition orderBy (qb : QueryBuilder) (column direction : string) : QueryBuilder :=
  {| wheres := wheres qb; order := Some (column, direction);
     skip := skip qb; take := take qb |}.

Definition set_skip (qb : QueryBuilder) (n : Z) : QueryBuilder :=
  {| wheres := wheres qb; order := order qb; skip := Some n; take := take qb |}.

Definition set_take (qb : QueryBuilder) (n : Z) : QueryBuilder :=
  {| wheres := wheres qb; order := order qb; skip := skip qb; take := Some n |}.

(** [ORDER BY product.<column>] ascending: does [p1] come no later than [p2]. *)
Definition column_le (column : string) (p1 p2 : Product) : bool :=
  if String.eqb column "name" then String.leb (name p1) (name p2)
  else if String.eqb column "price" then Qle_bool (price p1) (price p2)
  else if String.eqb column "createdAt" then createdAt p1 <=? createdAt p2
  else if String.eqb column "updatedAt" then updatedAt p1 <=? updatedAt p2
  else if String.eqb column "stock" then stock p1 <=? stock p2
  else true.

Definition ordered (o : option (string * string)) (p1 p2 : Product) : Prop :=
  match o with
  | None => True
  | Some (column, direction) =>
      if String.eqb direction "ASC" then column_le column p1 p2 = true
      else column_le column p2 p1 = true
  end.

#[global] Instance ordered_dec o : RelDecision (ordered o).
Proof.
  intros p1 p2. unfold ordered.
  destruct o as [[column direction]|]; [|apply _].
  destruct (String.eqb direction "ASC"); apply _.
Defined.

Section WithEngine.
Context `{SqlEngine}.

Definition holds (p : Product) (c : Condition) : bool :=
  match c with
  | SearchLike pattern =>
      like_lower (name p) pattern
      || match description p with
         | Some d => like_lower d pattern
         | None => false
         end
  | CategoryIs c => bool_decide (category p = c)
  | StatusIs s => bool_decide (status p = s)
  | PriceBetween lo hi => Qle_bool lo (price p) && Qle_bool (price p) hi
  | PriceAtLeast lo => Qle_bool lo (price p)
  | PriceAtMost hi => Qle_bool (price p) hi
  | FeaturedIs b => Bool.eqb (isFeatured p) b
  | StockPositive => 0 <? stock p
  end.

(** The rows that satisfy every condition of the builder. *)
Definition matching (qb : QueryBuilder) (rows : list Product) : list Product :=
  List.filter (fun p => forallb (holds p) (wheres qb)) rows.

(** [getCount()]: the number of matching rows; order, skip and take play
    no part. *)
Definition getCount (qb : QueryBuilder) (rows : list Product) : Z :=
  Z.of_nat (length (matching qb rows)).

(** [getMany()]: matching rows, ordered, then offset and limit. Among
    rows with equal sort keys the engine is free, also from one query to
    the next; the model takes the order of a stable merge sort. *)
Definition getMany (qb : QueryBuilder) (rows : list Product) : list Product :=
  let sorted := merge_sort (ordered (order qb)) (matching qb rows) in
  let skipped :=
    match skip qb with
    | Some n => drop (Z.to_nat n) sorted
    | None => sorted
    end in
  match take qb with
  | Some n => firstn (Z.to_nat n) skipped
  | None => skipped
  end.

Definition allowedSortFields : list string :=
  ["name"; "price"; "createdAt"; "updatedAt"; "stock"].

Definition safeSortBy (query : QueryProductDto) : string :=
  let sortBy := default "createdAt" (sortBy query) in
  if existsb (String.eqb sortBy) allowedSortFields then sortBy else "createdAt".

Definition safeSortOrder (query : QueryProductDto) : string :=
  let sortOrder := default "DESC" (sortOrder query) in
  if String.eqb sortOrder "ASC" then "ASC" else "DESC".

(** The builder after all the filters and the ordering of [findAll]. *)
Definition filtered_query (query : QueryProductDto) : QueryBuilder :=
  let queryBuilder := createQueryBuilder in
  let queryBuilder :=
    if Js.str_truthy (search query)
    then andWhere queryBuilder
           (SearchLike ("%" +:+ default "" (search query) +:+ "%"))
    else queryBuilder in
  let queryBuilder :=
    match q_category query with
    | Some category => andWhere queryBuilder (CategoryIs category)
    | None => queryBuilder
    end in
  let queryBuilder :=
    match q_status query with
    | Some status => andWhere queryBuilder (StatusIs status)
    | None => queryBuilder
    end in
  let queryBuilder :=
    match minPrice query, maxPrice query with
    | Some minPrice, Some maxPrice =>
        andWhere queryBuilder (PriceBetween minPrice maxPrice)
    | Some minPrice, None => andWhere queryBuilder (PriceAtLeast minPrice)
    | None, Some maxPrice => andWhere queryBuilder (PriceAtMost maxPrice)
    | None, None => queryBuilder
    end in
  let queryBuilder :=
    match featured query with
    | Some featured => andWhere queryBuilder (FeaturedIs featured)
    | None => queryBuilder
    end in
  let queryBuilder :=
    if default false (inStock query)
    then andWhere (andWhere queryBuilder StockPositive) (StatusIs ACTIVE)
    else queryBuilder in
  orderBy queryBuilder (safeSortBy query) (safeSortOrder query).

(** [findAll(query)]; [Math.ceil(total / limit)] is taken for a limit of
    at least 1, which the DTO guarantees. *)
Definition findAll (db : Database) (query : QueryProductDto) : PaginatedResponse :=
  let page := default 1 (q_page query) in
  let limit := default 10 (q_limit query) in
  let queryBuilder := filtered_query query in
  let total := getCount queryBuilder (products db) in
  let skip := (page - 1) * limit in
  let queryBuilder := set_take (set_skip queryBuilder skip) limit in
  let products := getMany queryBuilder (products db) in
  let totalPages := Js.ceil_div total limit in
  {| data := products;
     meta := {| total := total;
                page := page;
                limit := limit;
                totalPages := totalPages;
                hasNextPage := page <? totalPages;
                hasPreviousPage := 1 <? page |} |}.

End WithEngine.

(** The same query with other paging or sorting parameters. *)
Definition with_paging (q : QueryProductDto) (p l : option Z) : QueryProductDto :=
  {| search := search q; q_category := q_category q; q_status := q_status q;
     minPrice := minPrice q; maxPrice := maxPrice q; featured := featured q;
     inStock := inStock q; q_page := p; q_limit := l;
     sortBy := sortBy q; sortOrder := sortOrder q |}.

Definition with_sorting (q : QueryProductDto) (by_ dir : option string)
  : QueryProductDto :=
  {| search := search q; q_category := q_category q; q_status := q_status q;
     minPrice := minPrice q; maxPrice := maxPrice q; featured := featured q;
     inStock := inStock q; q_page := q_page q; q_limit := q_limit q;
     sortBy := by_; sortOrder := dir |}.

Definition findOne (db : Database) (i : Z) : Js.Result Product :=
  match List.find (fun p => id p =? i) (products db) with
  | None =>
      Js.Throw (Js.NotFoundException
                  ("Product with ID " +:+ Js.string_of_Z i +:+ " not found"))
  | Some product => Js.Ok product
  end.

Definition with_stock (p : Product) (n : Z) : Product :=
  {| id := id p; name := name p; description := description p;
     price := price p; stock := n; sku := sku p; category := category p;
     status := status p; isFeatured := isFeatured p;
     discountPercent := discountPercent p; createdById := createdById p;
     createdAt := createdAt p; updatedAt := updatedAt p |}.

Definition with_discountPercent (p : Product) (d : Q) : Product :=
  {| id := id p; name := name p; description := description p;
     price := price p; stock := stock p; sku := sku p; category := category p;
     status := status p; isFeatured := isFeatured p;
     discountPercent := Some d; createdById := createdById p;
     createdAt := createdAt p; updatedAt := updatedAt p |}.

Definition with_updatedAt (p : Product) (t : Z) : Product :=
  {| id := id p; name := name p; description := description p;
     price := price p; stock := stock p; sku := sku p; category := category p;
     status := status p; isFeatured := isFeatured p;
     discountPercent := discountPercent p; createdById := createdById p;
     createdAt := createdAt p; updatedAt := t |}.

Definition without_discountPercent (p : Product) : Product :=
  {| id := id p; name := name p; description := description p;
     price := price p; stock := stock p; sku := sku p; category := category p;
     status := status p; isFeatured := isFeatured p;
     discountPercent := None; createdById := createdById p;
     createdAt := createdAt p; updatedAt := updatedAt p |}.

(** [productRepository.save(product)] for a product read from the table.
    When no column differs from the stored row no UPDATE is sent: the row
    keeps its [updatedAt] and the product is returned as it is. Otherwise
    the row is overwritten and [updatedAt] stamped. *)
Definition save (db : Database) (product : Product) (now : Z)
  : Product * Database :=
  if bool_decide (List.find (fun p => id p =? id product) (products db)
                  = Some product)
  then (product, db)
  else
    let saved := with_updatedAt product now in
    (saved,
     {| users := users db;
        products := (fun p => if id p =? id product then saved else p)
                      <$> products db;
        nextUserId := nextUserId db |}).

Definition updateStock (db : Database) (i : Z) (quantity : Z) (now : Z)
  : Js.Result Product * Database :=
  match findOne db i with
  | Js.Throw e => (Js.Throw e, db)
  | Js.Ok product =>
      let newStock := stock product + quantity in
      if newStock <? 0
      then (Js.Throw (Js.BadRequestException
                        ("Insufficient stock. Available: "
                         +:+ Js.string_of_Z (stock product)
                         +:+ ", Requested: "
                         +:+ Js.string_of_Z (Z.abs quantity))), db)
      else
        let product := with_stock product newStock in
        let product :=
          if (newStock =? 0) && bool_decide (status product = ACTIVE)
          then product
          else product in
        let '(saved, db') := save db product now in
        (Js.Ok saved, db')
  end.

(** [applyDiscount(id, discountPercent)]. The controller hands over the
    body field [discountPercent] without validation, so it need not be a
    number. An [undefined] assigned to the column is left out by [save]:
    nothing is written, and the product returned has no discount field
    (shown as [None], like [null]). *)
Definition applyDiscount (db : Database) (i : Z) (discountPercent : Js.NumberField)
    (now : Z) : Js.Result Product * Database :=
  if Js.num_lt discountPercent 0 || Js.num_gt discountPercent 100
  then (Js.Throw (Js.BadRequestException "Discount must be between 0 and 100"), db)
  else
    match findOne db i with
    | Js.Throw e => (Js.Throw e, db)
    | Js.Ok product =>
        if negb (bool_decide (status product = ACTIVE))
        then (Js.Throw (Js.BadRequestException
                          "Cannot apply discount to inactive products"), db)
        else
          match discountPercent with
          | Js.NNum q =>
              let '(saved, db') := save db (with_discountPercent product q) now in
              (Js.Ok saved, db')
          | Js.NNull =>
              let '(saved, db') := save db (without_discountPercent product) now in
              (Js.Ok saved, db')
          | Js.NUndefined => (Js.Ok (without_discountPercent product), db)
          end
    end.

Record CreateProductDto := {
  cp_name : string;
  cp_description : option string;
  cp_price : Q;
  cp_stock : option Z;
  cp_sku : option string;
  cp_category : option ProductCategory;
  cp_status : option ProductStatus;
  cp_isFeatured : option bool;
  cp_discountPercent : option Q
}.

Record UpdateProductDto := {
  up_name : option string;
  up_description : option string;
  up_price : option Q;
  up_stock : option Z;
  up_sku : option string;
  up_category : option ProductCategory;
  up_status : option ProductStatus;
  up_isFeatured : option bool;
  up_discountPercent : option Q
}.

(** [productRepository.findOne({ where: { sku } })] *)
Definition repo_find_by_sku (db : Database) (s : string) : option Product :=
  List.find (fun p => bool_decide (sku p = Some s)) (products db).

(** [create(createProductDto, user)]; [generatedId] is the id the table's
    auto-increment hands out, the columns the DTO leaves out take the
    defaults of the entity. *)
Definition create (db : Database) (createProductDto : CreateProductDto)
    (user : gmap string Js.Val) (generatedId now : Z)
  : Js.Result Product * Database :=
  if Js.str_truthy (cp_sku createProductDto)
     && negb (Js.is_nullish
                (repo_find_by_sku db (default "" (cp_sku createProductDto))))
  then (Js.Throw (Js.ConflictException "Product with this SKU already exists"), db)
  else
    let product :=
      {| id := generatedId;
         name := cp_name createProductDto;
         description := cp_description createProductDto;
         price := cp_price createProductDto;
         stock := default 0 (cp_stock createProductDto);
         sku := cp_sku createProductDto;
         category := default OTHER (cp_category createProductDto);
         status := default DRAFT (cp_status createProductDto);
         isFeatured := default false (cp_isFeatured createProductDto);
         discountPercent := cp_discountPercent createProductDto;
         createdById := match user !! "id" with
                        | Some (Js.VNum n) => Some n
                        | _ => None
                        end;
         createdAt := now;
         updatedAt := now |} in
    (Js.Ok product,
     {| users := users db;
        products := products db ++ [product];
        nextUserId := nextUserId db |}).

(** [Object.assign(product, updateProductDto)] *)
Definition assign (p : Product) (dto : UpdateProductDto) : Product :=
  {| id := id p;
     name := default (name p) (up_name dto);
     description := match up_description dto with
                    | Some d => Some d
                    | None => description p
                    end;
     price := default (price p) (up_price dto);
     stock := default (stock p) (up_stock dto);
     sku := match up_sku dto with Some s => Some s | None => sku p end;
     category := default (category p) (up_category dto);
     status := default (status p) (up_status dto);
     isFeatured := default (isFeatured p) (up_isFeatured dto);
     discountPercent := match up_discountPercent dto with
                        | Some d => Some d
                        | None => discountPercent p
                        end;
     createdById := createdById p;
     createdAt := createdAt p;
     updatedAt := updatedAt p |}.

Definition update (db : Database) (i : Z) (updateProductDto : UpdateProductDto)
    (now : Z) : Js.Result Product * Database :=
  match findOne db i with
  | Js.Throw e => (Js.Throw e, db)
  | Js.Ok product =>
      if Js.str_truthy (up_sku updateProductDto)
         && negb (bool_decide (up_sku updateProductDto = sku product))
         && negb (Js.is_nullish
                    (repo_find_by_sku db (default "" (up_sku updateProductDto))))
      then (Js.Throw (Js.ConflictException "Product with this SKU already exists"),
            db)
      else
        let product := assign product updateProductDto in
        let '(saved, db') := save db product now in
        (Js.Ok saved, db')
  end.

(** [remove(id)]: [result.affected] is the number of rows deleted. *)
Definition remove (db : Database) (i : Z) : Js.Result unit * Database :=
  let kept := filter (fun p => id p <> i) (products db) in
  let affected := (length (products db) - length kept)%nat in
  if Nat.eqb affected 0
  then (Js.Throw (Js.NotFoundException
                    ("Product with ID " +:+ Js.string_of_Z i +:+ " not found")), db)
  else (Js.Ok tt,
        {| users := users db; products := kept; nextUserId := nextUserId db |}).

(** [getFeaturedProducts(limit = 10)], for a limit of at least 1. *)
Definition getFeaturedProducts (db : Database) (limit : option Z) : list Product :=
  let limit := default 10 limit in
  firstn (Z.to_nat limit)
    (merge_sort (ordered (Some ("createdAt", "DESC")))
       (List.filter (fun p => isFeatured p && bool_decide (status p = ACTIVE))
                    (products db))).

(** [getByCategory(category)] *)
Definition getByCategory (db : Database) (c : ProductCategory) : list Product :=
  merge_sort (ordered (Some ("name", "ASC")))
    (List.filter (fun p => bool_decide (category p = c)
                           && bool_decide (status p = ACTIVE))
                 (products db)).

(** [getLowStockProducts(threshold = 10)] *)
Definition getLowStockProducts (db : Database) (threshold : option Z) : list Product :=
  let threshold := default 10 threshold in
  merge_sort (ordered (Some ("stock", "ASC")))
    (List.filter (fun p => (stock p <=? threshold) && (0 <? stock p)
                           && bool_decide (status p = ACTIVE))
                 (products db)).

Record Statistics := {
  totalProducts : Z;
  activeProducts : Z;
  outOfStock : Z;
  byCategory : list (ProductCategory * Z)
}.

Definition count_where (f : Product -> bool) (rows : list Product) : Z :=
  Z.of_nat (length (List.filter f rows)).

(** [getStatistics()]: the three counts and the rows of
    [GROUP BY product.category], one for each category that some product
    has. The engine fixes no order for the groups; they are listed here in
    the order of the enum. [averagePrice], a floating-point mean parsed
    from the answer of the engine, is not part of the model. *)
Definition getStatistics (db : Database) : Statistics :=
  let rows := products db in
  {| totalProducts := Z.of_nat (length rows);
     activeProducts := count_where (fun p => bool_decide (status p = ACTIVE)) rows;
     outOfStock := count_where (fun p => stock p =? 0) rows;
     byCategory :=
       List.filter (fun g => 0 <? snd g)
         ((fun c => (c, count_where (fun p => bool_decide (category p = c)) rows))
            <$> [ELECTRONICS; CLOTHING; FOOD; BOOKS; OTHER]) |}.

(** The unique index on [sku]: no value is held by two products. *)
Definition unique_skus (db : Database) : Prop :=
  NoDup (omap sku (products db)).

End ProductsService.

(* ===================================================================== *)
(** ** Sample requests and tables used by the concrete checks *)
(* ===================================================================== *)

Module Examples.

Module RL := RateLimitMiddleware.

(** A request that came through a proxy. *)
Definition proxied (xff : string) : RL.Request :=
  {| RL.headers := {[ "x-forwarded-for" := RL.HStr xff ]};
     RL.ip := Some "10.0.0.9";
     RL.socket_remoteAddress := Some "10.0.0.9" |}.

(** A request straight from [addr]. *)
Definition direct (addr : string) : RL.Request :=
  {| RL.headers := ∅;
     RL.ip := Some addr;
     RL.socket_remoteAddress := Some addr |}.

(** A request with neither header nor address. *)
Definition anonymous : RL.Request :=
  {| RL.headers := ∅; RL.ip := None; RL.socket_remoteAddress := None |}.

Definition visitor : RL.Request := direct "198.51.100.4".
Definition neighbour : RL.Request := proxied "203.0.113.7, 10.0.0.1".
Definition padded : RL.Request := proxied "203.0.113.7 , 10.0.0.1".

(** One hundred requests of [visitor], one every half second from
    [t = 1000], each followed by a request of [neighbour]. *)
Definition full_window : list (RL.Request * Z) :=
  flat_map (fun i => [(visitor, 1000 + 500 * Z.of_nat i);
                      (neighbour, 1200 + 500 * Z.of_nat i)])
           (seq 0 100).

Import Entities.

(** An engine whose LIKE matches nothing; the sample queries do not search. *)
Definition no_match : SqlEngine := {| like_lower := fun _ _ => false |}.

(** A stand-in for bcrypt: the hash of [p] is ["h:" ++ p]. *)
Definition toy_bcrypt : Bcrypt :=
  {| bcrypt_hash := fun p _ => "h:" +:+ p;
     bcrypt_compare := fun p h => String.eqb ("h:" +:+ p) h;
     BCRYPT_SALT_ROUNDS := None |}.

Definition item (i : Z) (st : ProductStatus) (qty : Z) : Product :=
  {| id := i; name := "item " +:+ Js.string_of_Z i; description := None;
     price := 100; stock := qty; sku := None; category := OTHER;
     status := st; isFeatured := false; discountPercent := None;
     createdById := None; createdAt := 5000 - i; updatedAt := 5000 - i |}.

(** Twenty-five active products; product [i] is the [i]-th newest. *)
Definition catalog25 : Database :=
  {| users := [];
     products := (fun i => item (Z.of_nat i) ACTIVE 8) <$> seq 1 25;
     nextUserId := 1 |}.

(** A draft product with id 1 and an active one with id 2 and stock 3. *)
Definition shelf : Database :=
  {| users := []; products := [item 1 DRAFT 0; item 2 ACTIVE 3]; nextUserId := 1 |}.

Definition all_products : ProductsService.QueryProductDto :=
  {| ProductsService.search := None;
     ProductsService.q_category := None;
     ProductsService.q_status := None;
     ProductsService.minPrice := None;
     ProductsService.maxPrice := None;
     ProductsService.featured := None;
     ProductsService.inStock := None;
     ProductsService.q_page := None;
     ProductsService.q_limit := None;
     ProductsService.sortBy := None;
     ProductsService.sortOrder := None |}.

Definition alice : User :=
  {| user_id := 1; email := "alice@example.com"; password := "h:Secret123";
     firstName := "Alice"; lastName := "Ng"; role := ADMIN; isActive := true;
     phone := None; user_createdAt := 100; user_updatedAt := 100 |}.

Definition bob : User :=
  {| user_id := 2; email := "bob@example.com"; password := "h:Hunter22";
     firstName := "Bob"; lastName := "Ray"; role := USER; isActive := false;
     phone := Some "555-0100"; user_createdAt := 200; user_updatedAt := 300 |}.

Definition staff : Database :=
  {| users := [alice; bob]; products := [item 1 DRAFT 0]; nextUserId := 3 |}.

(** A moderator-only handler in an admin-only controller, called by an
    administrator. *)
Definition moderators_only : RolesGuard.ExecutionContext :=
  {| RolesGuard.handlerRoles := Some [MODERATOR];
     RolesGuard.classRoles := Some [ADMIN];
     RolesGuard.user := Some (select UsersService.public_columns (user_entity alice)) |}.

(** A token issued to the user with id [i]. *)
Definition token_of (i : Z) : AuthService.JwtPayload :=
  {| AuthService.sub := i;
     AuthService.jwt_email := "alice@example.com";
     AuthService.jwt_role := "admin" |}.

(** A registration, and a profile update that renames and demotes. *)
Definition carol_dto : UsersService.CreateUserDto :=
  {| UsersService.c_email := "carol@example.com";
     UsersService.c_password := "Passw0rdX";
     UsersService.c_firstName := "Carol";
     UsersService.c_lastName := "Diaz";
     UsersService.c_phone := None;
     UsersService.c_role := None |}.

Definition demote_dto : UsersService.UpdateUserDto :=
  {| UsersService.u_email := None;
     UsersService.u_firstName := Some "Alicia";
     UsersService.u_lastName := None;
     UsersService.u_phone := None;
     UsersService.u_role := Some USER;
     UsersService.u_isActive := None |}.

(** A profile update that carries no field. *)
Definition empty_dto : UsersService.UpdateUserDto :=
  {| UsersService.u_email := None;
     UsersService.u_firstName := None;
     UsersService.u_lastName := None;
     UsersService.u_phone := None;
     UsersService.u_role := None;
     UsersService.u_isActive := None |}.

(** A new product with a SKU, and a partial update that renames. *)
Definition gadget_dto : ProductsService.CreateProductDto :=
  {| ProductsService.cp_name := "gadget";
     ProductsService.cp_description := None;
     ProductsService.cp_price := 20;
     ProductsService.cp_stock := Some 4;
     ProductsService.cp_sku := Some "GAD-1";
     ProductsService.cp_category := None;
     ProductsService.cp_status := None;
     ProductsService.cp_isFeatured := None;
     ProductsService.cp_discountPercent := None |}.


(** Active products in stock, ten to a page. *)
Definition active_in_stock : ProductsService.QueryProductDto :=
  {| ProductsService.search := None;
     ProductsService.q_category := None;
     ProductsService.q_status := Some ACTIVE;
     ProductsService.minPrice := None;
     ProductsService.maxPrice := None;
     ProductsService.featured := None;
     ProductsService.inStock := Some true;
     ProductsService.q_page := None;
     ProductsService.q_limit := Some 10;
     ProductsService.sortBy := None;
     ProductsService.sortOrder := None |}.

(** A featured, active book with id [i], created at time [i]. *)
Definition spotlight (i : Z) : Product :=
  {| id := i; name := "book " +:+ Js.string_of_Z i; description := None;
     price := 12; stock := 5; sku := None; category := BOOKS;
     status := ACTIVE; isFeatured := true; discountPercent := None;
     createdById := None; createdAt := i; updatedAt := i |}.

Definition showcase : Database :=
  {| users := [];
     products := [spotlight 1; item 2 ACTIVE 3; spotlight 3; spotlight 4];
     nextUserId := 1 |}.

(** A stand-in for the token signer. *)
Definition toy_jwt : AuthService.JwtService :=
  {| AuthService.jwt_sign := fun _ => "signed" |}.

End Examples.

(* ===================================================================== *)
(** ** Properties of the rate limiter *)
(* ===================================================================== *)

Section RateLimitProps.
Import RateLimitMiddleware.

Lemma ceil_div_bounds (a b : Z) :
  0 < b -> (Js.ceil_div a b - 1) * b < a <= Js.ceil_div a b * b.
Proof.
  intros Hb. unfold Js.ceil_div.
  pose proof (Z.div_mod (- a) b ltac:(lia)) as Hdm.
  pose proof (Z.mod_pos_bound (- a) b Hb) as Hm.
  nia.
Qed.

Lemma ceil_div_nonneg (a b : Z) : 0 < b -> 0 <= a -> 0 <= Js.ceil_div a b.
Proof. intros Hb Ha. pose proof (ceil_div_bounds a b Hb). nia. Qed.

Lemma ceil_div_pos (a b : Z) : 0 < b -> 0 < a -> 0 < Js.ceil_div a b.
Proof. intros Hb Ha. pose proof (ceil_div_bounds a b Hb). nia. Qed.

Lemma ceil_div_zero (b : Z) : Js.ceil_div 0 b = 0.
Proof. unfold Js.ceil_div. cbn. by rewrite Zdiv_0_l. Qed.

(** Requests of other clients never touch the record of [c]: the store
    seen through [c] is the record driven by the requests of [c] alone. *)
Lemma serve_project cfg c trace :
  forall requests : gmap (option string) RateLimitRecord,
    (serve cfg requests trace).1 !! c
      = (drive cfg (requests !! c) (times_of c trace)).1
    /\ responses_to c trace (serve cfg requests trace).2
      = (drive cfg (requests !! c) (times_of c trace)).2.
Proof.
  induction trace as [|[req now] rest IH]; intros requests; [done|].
  cbn [serve]. unfold use.
  specialize (IH (<[getClientId req := touch cfg now (requests !! getClientId req)]> requests)).
  destruct (serve cfg _ rest) as [requests2 resps] eqn:Hs.
  unfold times_of, responses_to in *. cbn [zip zip_with fst snd] in *.
  destruct (decide (getClientId req = c)) as [Heq|Hne].
  - rewrite !filter_cons_True by done. cbn [fmap list_fmap drive fst snd].
    subst c. rewrite lookup_insert_eq in IH.
    destruct (drive cfg (Some _) _) as [r' rs'] eqn:Hd.
    cbn [fst snd] in *. destruct IH as [-> ->]. done.
  - rewrite !filter_cons_False by done.
    rewrite lookup_insert_ne in IH by done. exact IH.
Qed.

(** Inside one window the record only counts: after [k] requests counted
    since [t0], every further request not later than [t0 + windowMs]
    is the next one of the same window. *)
Lemma drive_same_window cfg t0 ts :
  Forall (fun t => t - t0 <= windowMs cfg) ts ->
  forall k,
    (drive cfg (Some {| count := k; firstRequest := t0 |}) ts).1
      = Some {| count := k + Z.of_nat (length ts); firstRequest := t0 |}
    /\ (drive cfg (Some {| count := k; firstRequest := t0 |}) ts).2
      = imap (fun i t =>
                respond cfg t {| count := k + Z.of_nat i + 1; firstRequest := t0 |})
             ts.
Proof.
  induction 1 as [|t ts Ht Hts IH]; intros k.
  - cbn. split; [do 2 f_equal; lia | done].
  - cbn [drive touch count firstRequest].
    destruct (Z.ltb_spec (windowMs cfg) (t - t0)) as [?|_]; [lia|].
    destruct (IH (k + 1)) as [IH1 IH2].
    destruct (drive cfg _ ts) as [r' rs'].
    cbn [fst snd] in *. subst. split.
    + do 2 f_equal. rewrite length_cons. lia.
    + cbn [imap]. f_equal; [do 2 f_equal; lia|].
      apply imap_ext. intros i x _. cbn. do 2 f_equal. lia.
Qed.

(** The request that opens a window is counted as the first one. *)
Lemma touch_opens cfg r t0 :
  opens_window cfg r t0 -> touch cfg t0 r = {| count := 1; firstRequest := t0 |}.
Proof.
  destruct r as [record|]; cbn; [|done].
  intros H. destruct (Z.ltb_spec (windowMs cfg) (t0 - firstRequest record)); [done|lia].
Qed.

(** A whole window of one client: the [i]-th request (from 0) is answered
    from a record whose count is [i + 1]. *)
Lemma drive_window cfg r t0 ts :
  opens_window cfg r t0 ->
  Forall (fun t => t - t0 <= windowMs cfg) ts ->
  drive cfg r (t0 :: ts)
    = (Some {| count := 1 + Z.of_nat (length ts); firstRequest := t0 |},
       imap (fun i t =>
               respond cfg t {| count := Z.of_nat i + 1; firstRequest := t0 |})
            (t0 :: ts)).
Proof.
  intros Ho Hts. cbn [drive]. rewrite (touch_opens _ _ _ Ho).
  destruct (drive_same_window cfg t0 ts Hts 1) as [H1 H2].
  destruct (drive cfg _ ts) as [r' rs']. cbn [fst snd] in *. subst.
  cbn [imap]. f_equal. f_equal.
  apply imap_ext. intros i x _. cbn. do 2 f_equal. lia.
Qed.

End RateLimitProps.

Section RateLimitClaims.
Import RateLimitMiddleware.

(** C1 (as the code has it). A client whose request at [t0] opens a window
    and who issues exactly [maxRequests] requests, none later than
    [t0 + windowMs], is let through on all of them, whatever other clients
    do meanwhile. One more request of that client in the same window is
    denied with [retryAfter = ceil((t0 + windowMs - now) / 1000)]; this
    value is never negative, and it is positive whenever [now] is before
    the end of the window. *)
Theorem rate_limit_cap_then_deny (cfg : Config)
    (requests : gmap (option string) RateLimitRecord)
    (trace : list (Request * Z)) (c : option string) (t0 : Z) (ts : list Z)
    (req : Request) (now : Z) :
  times_of c trace = t0 :: ts ->
  opens_window cfg (requests !! c) t0 ->
  Forall (fun t => t - t0 <= windowMs cfg) ts ->
  Z.of_nat (length (t0 :: ts)) = maxRequests cfg ->
  getClientId req = c ->
  now - t0 <= windowMs cfg ->
  let served := serve cfg requests trace in
  let retryAfter := Js.ceil_div (t0 + windowMs cfg - now) 1000 in
  length (responses_to c trace served.2) = length (t0 :: ts)
  /\ Forall (fun r => outcome r = Next) (responses_to c trace served.2)
  /\ outcome (use cfg served.1 req now).2 = TooManyRequests retryAfter
  /\ (retryAfter - 1) * 1000 < t0 + windowMs cfg - now <= retryAfter * 1000
  /\ 0 <= retryAfter
  /\ (now < t0 + windowMs cfg -> 0 < retryAfter).
Proof.
  intros Htimes Hopen Hts Hcap Hreq Hnow served retryAfter.
  destruct (serve_project cfg c trace requests) as [Hrec Hresps].
  rewrite Htimes, (drive_window _ _ _ _ Hopen Hts) in Hrec, Hresps.
  cbn [fst snd] in Hrec, Hresps. fold served in Hrec, Hresps.
  rewrite Hresps. split; [|split; [|split; [|split; [|split]]]].
  - by rewrite length_imap.
  - apply Forall_lookup. intros i r Hi.
    rewrite list_lookup_imap in Hi.
    destruct ((t0 :: ts) !! i) as [t|] eqn:Hti; [|done].
    apply lookup_lt_Some in Hti. cbn in Hi. injection Hi as <-.
    unfold respond. cbn [outcome count].
    destruct (Z.ltb_spec (maxRequests cfg) (Z.of_nat i + 1)); [lia|done].
  - unfold use. rewrite Hreq, Hrec. cbn [snd touch firstRequest count].
    destruct (Z.ltb_spec (windowMs cfg) (now - t0)); [lia|].
    unfold respond. cbn [outcome count firstRequest].
    rewrite length_cons in Hcap.
    destruct (Z.ltb_spec (maxRequests cfg) (1 + Z.of_nat (length ts) + 1)); [done|lia].
  - apply ceil_div_bounds. lia.
  - apply ceil_div_nonneg; lia.
  - intros Hlt. apply ceil_div_pos; lia.
Qed.

(** The theorem at work: the hundred requests of [visitor] in
    [full_window], then a 101st a second before the window closes. *)
Lemma rate_limit_cap_then_deny_witness :
  let served := serve defaults ∅ Examples.full_window in
  length (responses_to (Some "198.51.100.4") Examples.full_window served.2) = 100%nat
  /\ Forall (fun r => outcome r = Next)
            (responses_to (Some "198.51.100.4") Examples.full_window served.2)
  /\ outcome (use defaults served.1 Examples.visitor 60000).2 = TooManyRequests 1
  /\ (1 - 1) * 1000 < 1000 + 60000 - 60000 <= 1 * 1000
  /\ 0 <= 1
  /\ (60000 < 1000 + 60000 -> 0 < 1).
Proof.
  assert (times_of (Some "198.51.100.4") Examples.full_window
          = 1000 :: ((fun i => 1000 + 500 * Z.of_nat i) <$> seq 1 99)) as Htimes
    by (vm_compute; reflexivity).
  assert (Forall (fun t => t - 1000 <= windowMs defaults)
                 ((fun i => 1000 + 500 * Z.of_nat i) <$> seq 1 99)) as Hts
    by (apply (bool_decide_unpack _); vm_compute; exact I).
  assert (Z.of_nat (length (1000 :: ((fun i => 1000 + 500 * Z.of_nat i) <$> seq 1 99)))
          = maxRequests defaults) as Hcap
    by (vm_compute; reflexivity).
  assert (getClientId Examples.visitor = Some "198.51.100.4") as Hreq
    by (vm_compute; reflexivity).
  assert (60000 - 1000 <= windowMs defaults) as Hnow
    by (vm_compute; discriminate).
  exact (rate_limit_cap_then_deny defaults ∅ Examples.full_window
           (Some "198.51.100.4") 1000
           ((fun i => 1000 + 500 * Z.of_nat i) <$> seq 1 99)
           Examples.visitor 60000 Htimes I Hts Hcap Hreq Hnow).
Defined.

(** C1, the claim as stated fails at the edge of the window: a 101st
    request exactly [windowMs] after the first is still counted in the
    window, is denied, and is told to retry after 0 seconds. *)
Lemma rate_limit_retry_after_zero :
  times_of (Some "198.51.100.4") Examples.full_window
    = (fun i => 1000 + 500 * Z.of_nat i) <$> seq 0 100
  /\ 61000 - 1000 <= windowMs defaults
  /\ outcome (use defaults (serve defaults ∅ Examples.full_window).1
                  Examples.visitor 61000).2
     = TooManyRequests 0.
Proof. vm_compute. repeat split; discriminate. Qed.

(** The first segment of a split is the text before the first separator,
    taken as it is. *)
Lemma split_first sep s :
  exists first rest,
    Js.split sep s = first :: rest
    /\ Js.has_char sep first = false
    /\ (s = first \/ exists tail, s = first +:+ String sep tail).
Proof.
  induction s as [|ch s (first & rest & Heq & Hno & Hshape)]; cbn.
  - exists "", []. auto.
  - destruct (Ascii.eqb_spec ch sep) as [->|Hne].
    + exists "", (Js.split sep s). split; [done|]. split; [done|].
      right. by exists s.
    + rewrite Heq. exists (String ch first), rest. split; [done|]. split.
      * cbn. rewrite Hno. by destruct (Ascii.eqb_spec ch sep).
      * destruct Hshape as [->|[tail ->]]; [by left|]. right. by exists tail.
Qed.

(** C8 (as the code has it). The identifier is: for a non-empty
    forwarded-for string, the text before its first comma, verbatim (not
    trimmed); for a forwarded-for array, its first element; otherwise
    (header absent or empty) [req.ip] if non-empty, else the socket's
    remote address if non-empty, else the literal "unknown". *)
Theorem client_id_derivation (req : Request) :
  (forall s, headers req !! "x-forwarded-for" = Some (HStr s) -> s <> "" ->
     exists first,
       getClientId req = Some first
       /\ Js.has_char "," first = false
       /\ (s = first \/ exists tail, s = first +:+ String "," tail))
  /\ (forall l, headers req !! "x-forwarded-for" = Some (HArr l) ->
        getClientId req = l !! 0%nat)
  /\ (headers req !! "x-forwarded-for" = None
      \/ headers req !! "x-forwarded-for" = Some (HStr "") ->
      (forall a, ip req = Some a -> a <> "" -> getClientId req = Some a)
      /\ (Js.str_truthy (ip req) = false ->
          forall a, socket_remoteAddress req = Some a -> a <> "" ->
                    getClientId req = Some a)
      /\ (Js.str_truthy (ip req) = false ->
          Js.str_truthy (socket_remoteAddress req) = false ->
          getClientId req = Some "unknown")).
Proof.
  unfold getClientId. split; [|split].
  - intros s -> Hs. destruct (String.eqb_spec s ""); [done|].
    destruct (split_first "," s) as (first & rest & -> & Hno & Hshape).
    by exists first.
  - by intros l ->.
  - intros Hhdr.
    set (fallback :=
           Js.str_or (ip req) (Js.str_or (socket_remoteAddress req) (Some "unknown"))).
    assert (match headers req !! "x-forwarded-for" with
            | Some (HArr l) => l !! 0%nat
            | Some (HStr s) =>
                if String.eqb s "" then fallback else Js.split "," s !! 0%nat
            | None => fallback
            end = fallback) as -> by (by destruct Hhdr as [-> | ->]).
    subst fallback. unfold Js.str_or. split; [|split].
    + intros a Ha Hne. unfold Js.str_truthy at 1. rewrite Ha.
      by destruct (String.eqb_spec a "").
    + intros Hip a Ha Hne. rewrite Hip. unfold Js.str_truthy. rewrite Ha.
      by destruct (String.eqb_spec a "").
    + intros Hip Hra. by rewrite Hip, Hra.
Qed.

(** The theorem at work on a proxied request. *)
Lemma client_id_derivation_witness :
  exists first,
    getClientId Examples.neighbour = Some first
    /\ Js.has_char "," first = false
    /\ ("203.0.113.7, 10.0.0.1" = first
        \/ exists tail, "203.0.113.7, 10.0.0.1" = first +:+ String "," tail).
Proof.
  destruct (client_id_derivation Examples.neighbour) as [H _].
  apply (H "203.0.113.7, 10.0.0.1"); [reflexivity | discriminate].
Defined.

(** C8, the claim as stated fails: the code does not trim the first
    entry, the derivation of the specification does. *)
Lemma client_id_not_trimmed :
  getClientId Examples.padded = Some "203.0.113.7 "
  /\ spec_clientId Examples.padded = Some "203.0.113.7"
  /\ getClientId Examples.padded <> spec_clientId Examples.padded.
Proof. vm_compute. repeat split; discriminate. Qed.

End RateLimitClaims.

(* ===================================================================== *)
(** ** Properties of the product service *)
(* ===================================================================== *)

Section ProductProps.
Import Entities ProductsService.
Context `{SqlEngine}.

Lemma Sorted_drop {A} (R : relation A) (n : nat) (l : list A) :
  Sorted R l -> Sorted R (drop n l).
Proof.
  revert l. induction n as [|n IH]; intros [|x l] Hs; cbn; auto.
  apply IH. by inversion Hs.
Qed.

Lemma Sorted_firstn {A} (R : relation A) (n : nat) (l : list A) :
  Sorted R l -> Sorted R (firstn n l).
Proof.
  revert l. induction n as [|n IH]; intros [|x l] Hs; cbn; try constructor.
  - apply IH. by inversion Hs.
  - inversion Hs as [|? ? _ Hhd]; subst.
    destruct n, l; cbn; constructor. by inversion Hhd.
Qed.

Lemma Sorted_weaken {A} (R1 R2 : relation A) (l : list A) :
  (forall x y, R1 x y -> R2 x y) -> Sorted R1 l -> Sorted R2 l.
Proof.
  intros Himp. induction 1 as [|x l _ IH Hhd]; constructor; [done|].
  destruct Hhd; constructor. by apply Himp.
Qed.

Lemma Qle_bool_total (x y : Q) : Qle_bool x y = true \/ Qle_bool y x = true.
Proof.
  rewrite !Qle_bool_iff. destruct (Qlt_le_dec x y) as [Hlt|Hle]; [left|by right].
  by apply Qlt_le_weak.
Qed.

Lemma column_le_total (column : string) (p1 p2 : Product) :
  column_le column p1 p2 = true \/ column_le column p2 p1 = true.
Proof.
  unfold column_le.
  repeat match goal with
         | |- context [String.eqb ?a ?b] => destruct (String.eqb a b)
         end;
    [apply String.leb_total | apply Qle_bool_total | | | | by left]; lia.
Qed.

Lemma ordered_total (column direction : string) :
  Total (ordered (Some (column, direction))).
Proof.
  intros p1 p2. unfold ordered.
  destruct (String.eqb direction "ASC"); [|apply or_comm]; apply column_le_total.
Qed.

(** The page [getMany] returns is sorted by the order clause. *)
Lemma getMany_sorted (qb : QueryBuilder) (rows : list Product) column direction :
  order qb = Some (column, direction) ->
  Sorted (ordered (order qb)) (getMany qb rows).
Proof.
  intros Ho. unfold getMany.
  assert (Sorted (ordered (order qb))
                 (merge_sort (ordered (order qb)) (matching qb rows))) as Hs.
  { apply Sorted_merge_sort. rewrite Ho. apply ordered_total. }
  destruct (skip qb), (take qb);
    repeat first [apply Sorted_firstn | apply Sorted_drop]; exact Hs.
Qed.

(** Paging and sorting parameters play no part in the filters. *)
Lemma matching_wheres (qb1 qb2 : QueryBuilder) (rows : list Product) :
  wheres qb1 = wheres qb2 -> matching qb1 rows = matching qb2 rows.
Proof. unfold matching. by intros ->. Qed.

(** C3. For every query with [page >= 1] and [limit >= 1]: the total is
    the size of the filtered set, counted on a builder that has neither
    skip nor take, so it is the same for every page and limit; the data
    are the items at offsets [(page-1)*limit + i], [i < limit], of the
    filtered and ordered set; [totalPages] is the ceiling of
    [total / limit]; [hasNextPage] is [page < totalPages] and
    [hasPreviousPage] is [page > 1]. On 25 unfiltered items, page 2 with
    limit 10 returns items 11 to 20 with 3 pages, a next and a previous
    page. *)
Theorem findAll_pagination :
  (forall (db : Database) (query : QueryProductDto),
     let page := default 1 (q_page query) in
     let limit := default 10 (q_limit query) in
     let filtered := matching (filtered_query query) (products db) in
     let sorted := merge_sort (ordered (order (filtered_query query))) filtered in
     let r := findAll db query in
     1 <= page -> 1 <= limit ->
     skip (filtered_query query) = None
     /\ take (filtered_query query) = None
     /\ total (meta r) = getCount (filtered_query query) (products db)
     /\ total (meta r) = Z.of_nat (length filtered)
     /\ (forall p l, total (meta (findAll db (with_paging query p l))) = total (meta r))
     /\ (forall i : nat, Z.of_nat i < limit ->
           data r !! i = sorted !! (Z.to_nat ((page - 1) * limit) + i)%nat)
     /\ Z.of_nat (length (data r)) <= limit
     /\ (totalPages (meta r) - 1) * limit < total (meta r)
          <= totalPages (meta r) * limit
     /\ (hasNextPage (meta r) = true <-> page < totalPages (meta r))
     /\ (hasPreviousPage (meta r) = true <-> 1 < page))
  /\ (let r := findAll Examples.catalog25
                 (with_paging Examples.all_products (Some 2) (Some 10)) in
      id <$> data r = [11; 12; 13; 14; 15; 16; 17; 18; 19; 20]
      /\ total (meta r) = 25
      /\ totalPages (meta r) = 3
      /\ hasNextPage (meta r) = true
      /\ hasPreviousPage (meta r) = true).
Proof.
  split; [|vm_compute; done].
  intros db query page limit filtered sorted r Hpage Hlimit.
  assert (skip (filtered_query query) = None /\ take (filtered_query query) = None)
    as [Hskip Htake].
  { unfold filtered_query.
    destruct (Js.str_truthy _), (q_category _), (q_status _), (minPrice _),
      (maxPrice _), (featured _), (default false _); done. }
  split; [done|]. split; [done|]. split; [done|]. split; [done|]. split; [done|].
  assert (data r = firstn (Z.to_nat limit)
                     (drop (Z.to_nat ((page - 1) * limit)) sorted)) as Hdata by done.
  split; [|split; [|split; [|split]]].
  - intros i Hi. rewrite Hdata, lookup_take_lt by lia. by rewrite lookup_drop.
  - rewrite Hdata, length_take. lia.
  - apply ceil_div_bounds. lia.
  - cbn. apply Z.ltb_lt.
  - cbn. apply Z.ltb_lt.
Qed.

(** C5. [sortBy] is checked against the allow-list: a listed value is
    kept, any other value (and an absent one) becomes "createdAt";
    [sortOrder] is kept when it is exactly "ASC" and is "DESC" otherwise.
    The query is ordered by these safe values and the page returned is
    sorted accordingly; a value outside the list gives the very response
    that [sortBy = "createdAt"] gives, and [findAll] raises nothing: with
    [sortBy = "password"] and no [sortOrder] the data come newest first. *)
Theorem findAll_sorting (db : Database) (query : QueryProductDto) :
  let r := findAll db query in
  In (safeSortBy query) ["name"; "price"; "createdAt"; "updatedAt"; "stock"]
  /\ (forall s, sortBy query = Some s -> In s allowedSortFields ->
        safeSortBy query = s)
  /\ (forall s, sortBy query = Some s -> ~ In s allowedSortFields ->
        safeSortBy query = "createdAt")
  /\ (sortBy query = None -> safeSortBy query = "createdAt")
  /\ (sortOrder query = Some "ASC" -> safeSortOrder query = "ASC")
  /\ (sortOrder query <> Some "ASC" -> safeSortOrder query = "DESC")
  /\ order (filtered_query query) = Some (safeSortBy query, safeSortOrder query)
  /\ Sorted (ordered (Some (safeSortBy query, safeSortOrder query))) (data r)
  /\ (forall s, sortBy query = Some s -> ~ In s allowedSortFields ->
        r = findAll db (with_sorting query (Some "createdAt") (sortOrder query)))
  /\ (sortBy query = Some "password" -> sortOrder query = None ->
        Sorted (fun p1 p2 => createdAt p2 <= createdAt p1) (data r)).
Proof.
  intros r.
  assert (forall s, In s allowedSortFields <->
                    existsb (String.eqb s) allowedSortFields = true) as Hin.
  { intros s. rewrite existsb_exists. split.
    - intros Hs. exists s. split; [done|apply String.eqb_refl].
    - intros (x & Hx & Heq). apply String.eqb_eq in Heq. by subst. }
  assert (forall s, sortBy query = Some s -> ~ In s allowedSortFields ->
                    safeSortBy query = "createdAt") as Hout.
  { intros s Hs Hno. unfold safeSortBy. rewrite Hs. cbn [default].
    destruct (existsb _ _) eqn:Hex; [|done]. by apply Hin in Hex. }
  assert (order (filtered_query query)
          = Some (safeSortBy query, safeSortOrder query)) as Horder by done.
  assert (Sorted (ordered (Some (safeSortBy query, safeSortOrder query))) (data r))
    as Hsorted.
  { rewrite <- Horder.
    apply (getMany_sorted
             (set_take (set_skip (filtered_query query) _) _) (products db)
             (safeSortBy query) (safeSortOrder query)).
    done. }
  split; [|split; [|split; [|split; [|split; [|split; [|split; [|split; [|split]]]]]]]].
  - unfold safeSortBy. destruct (existsb _ _) eqn:Hex.
    + by apply Hin.
    + cbn. tauto.
  - intros s Hs Hyes. unfold safeSortBy. rewrite Hs.
    cbn [default from_option Datatypes.id].
    apply Hin in Hyes. by rewrite Hyes.
  - exact Hout.
  - intros Hs. unfold safeSortBy. by rewrite Hs.
  - intros Ho. unfold safeSortOrder. by rewrite Ho.
  - intros Ho. unfold safeSortOrder.
    destruct (sortOrder query) as [o|]; [|done].
    cbn [default from_option Datatypes.id].
    destruct (String.eqb_spec o "ASC"); [congruence|done].
  - exact Horder.
  - exact Hsorted.
  - intros s Hs Hno. subst r. unfold findAll, filtered_query.
    cbn [with_sorting search q_category q_status minPrice maxPrice featured
         inStock q_page q_limit].
    replace (safeSortBy (with_sorting query (Some "createdAt") (sortOrder query)))
      with (safeSortBy query) by (by rewrite (Hout s)).
    done.
  - intros Hs Ho.
    assert (safeSortBy query = "createdAt") as Hby.
    { apply (Hout "password"); [done|]. cbn. intros Hin'.
      repeat destruct Hin' as [Hin'|Hin']; done. }
    assert (safeSortOrder query = "DESC") as Hdir.
    { unfold safeSortOrder. by rewrite Ho. }
    rewrite Hby, Hdir in Hsorted.
    eapply Sorted_weaken; [|exact Hsorted].
    intros p1 p2. cbn. apply Z.leb_le.
Qed.

End ProductProps.

Section ProductChecks.
Import Entities ProductsService.

(** The theorem at work on the catalogue of 25 products, page 2 of 10. *)
Lemma findAll_pagination_witness :
  let r := @findAll Examples.no_match Examples.catalog25
             (with_paging Examples.all_products (Some 2) (Some 10)) in
  total (meta r) = 25
  /\ (totalPages (meta r) - 1) * 10 < total (meta r) <= totalPages (meta r) * 10
  /\ (hasNextPage (meta r) = true <-> 2 < totalPages (meta r))
  /\ (hasPreviousPage (meta r) = true <-> 1 < 2).
Proof.
  destruct (@findAll_pagination Examples.no_match) as [Hgen _].
  destruct (Hgen Examples.catalog25
              (with_paging Examples.all_products (Some 2) (Some 10))
              ltac:(vm_compute; discriminate) ltac:(vm_compute; discriminate))
    as (_ & _ & _ & Htotal & _ & _ & _ & Hpages & Hnext & Hprev).
  split; [|split; [|split]].
  - rewrite Htotal. vm_compute. reflexivity.
  - exact Hpages.
  - exact Hnext.
  - exact Hprev.
Defined.

(** The theorem at work: sorting the catalogue by "password". *)
Lemma findAll_sorting_witness :
  safeSortBy (with_sorting Examples.all_products (Some "password") None)
    = "createdAt"
  /\ Sorted (fun p1 p2 => createdAt p2 <= createdAt p1)
            (data (@findAll Examples.no_match Examples.catalog25
                     (with_sorting Examples.all_products (Some "password") None))).
Proof.
  destruct (@findAll_sorting Examples.no_match Examples.catalog25
              (with_sorting Examples.all_products (Some "password") None))
    as (_ & _ & Hout & _ & _ & _ & _ & _ & _ & Hnewest).
  split.
  - apply (Hout "password"); [reflexivity|].
    cbn. intros Hin. repeat destruct Hin as [Hin|Hin]; discriminate || done.
  - apply Hnewest; reflexivity.
Defined.

End ProductChecks.

Section StockAndDiscount.
Import Entities ProductsService.

(** The two outcomes of [save]: nothing to write, or the row rewritten. *)
Lemma save_cases (db : Database) (product : Product) (now : Z) :
  (List.find (fun p => id p =? id product) (products db) = Some product
   /\ save db product now = (product, db))
  \/ (List.find (fun p => id p =? id product) (products db) <> Some product
      /\ save db product now
         = (with_updatedAt product now,
            {| users := users db;
               products := (fun p => if id p =? id product
                                     then with_updatedAt product now else p)
                             <$> products db;
               nextUserId := nextUserId db |})).
Proof.
  unfold save. case_bool_decide; [left|right]; done.
Qed.

(** What [save] returns is the product it was given, but for [updatedAt]. *)
Lemma save_returns (db : Database) (product : Product) (now : Z) :
  (save db product now).1 = product
  \/ (save db product now).1 = with_updatedAt product now.
Proof.
  destruct (save_cases db product now) as [[_ ->]|[_ ->]]; [by left|by right].
Qed.

(** After [save], the row read back by id is the product [save] returned. *)
Lemma findOne_after_save (db : Database) (i : Z) (old product : Product) (now : Z) :
  findOne db i = Js.Ok old ->
  id product = i ->
  findOne (save db product now).2 i = Js.Ok (save db product now).1.
Proof.
  intros Hfind <-.
  destruct (save_cases db product now) as [[Hsame ->]|[_ ->]]; cbn [fst snd].
  - unfold findOne. by rewrite Hsame.
  - unfold findOne in *. cbn [products].
    destruct (List.find _ (products db)) as [p|] eqn:Hf; [|done]. clear Hfind old.
    assert (List.find (fun p => id p =? id product)
              ((fun p => if id p =? id product then with_updatedAt product now else p)
                 <$> products db)
            = Some (with_updatedAt product now)) as ->; [|done].
    induction (products db) as [|x rows IH]; [done|].
    cbn in Hf |- *.
    destruct (Z.eqb_spec (id x) (id product)) as [Hx|Hx].
    + cbn. by rewrite Z.eqb_refl.
    + destruct (Z.eqb_spec (id x) (id product)); [done|]. by apply IH.
Qed.

(** [findOne] returns a stored product that has the id asked for. *)
Lemma findOne_id (db : Database) (i : Z) (product : Product) :
  findOne db i = Js.Ok product -> id product = i.
Proof.
  unfold findOne. destruct (List.find _ _) as [p|] eqn:Hf; [|done].
  intros [= <-]. apply find_some in Hf as [_ Hid]. lia.
Qed.

(** C4. For a product that exists: when [stock + quantity < 0],
    [updateStock] throws the 400 error that states the available stock and
    the requested amount, and the table is left as it was, so the stock
    read back is unchanged; otherwise it saves [stock + quantity] and the
    status of the product is the one it had, also when the stock reaches
    zero. *)
Theorem updateStock_bounds (db : Database) (i quantity now : Z) (product : Product) :
  findOne db i = Js.Ok product ->
  let newStock := stock product + quantity in
  let outcome := updateStock db i quantity now in
  (newStock < 0 ->
     outcome.1 = Js.Throw (Js.BadRequestException
                             ("Insufficient stock. Available: "
                              +:+ Js.string_of_Z (stock product)
                              +:+ ", Requested: "
                              +:+ Js.string_of_Z (Z.abs quantity)))
     /\ outcome.2 = db
     /\ findOne outcome.2 i = Js.Ok product)
  /\ (0 <= newStock ->
      exists saved,
        outcome.1 = Js.Ok saved
        /\ stock saved = newStock
        /\ status saved = status product
        /\ findOne outcome.2 i = Js.Ok saved).
Proof.
  intros Hfind newStock outcome. subst outcome. unfold updateStock.
  rewrite Hfind. fold newStock. split; intros Hsign.
  - destruct (Z.ltb_spec newStock 0); [|lia]. done.
  - destruct (Z.ltb_spec newStock 0); [lia|].
    assert ((if (newStock =? 0)
                && bool_decide (status (with_stock product newStock) = ACTIVE)
             then with_stock product newStock
             else with_stock product newStock)
            = with_stock product newStock) as -> by (by destruct (_ && _)).
    pose proof (findOne_after_save db i product (with_stock product newStock) now
                  Hfind (findOne_id db i product Hfind)) as Hread.
    pose proof (save_returns db (with_stock product newStock) now) as Hsaved.
    destruct (save db (with_stock product newStock) now) as [saved db'].
    cbn [fst snd] in *. exists saved. split; [done|].
    by destruct Hsaved as [->| ->].
Qed.

(** The theorem at work: taking 5 from a stock of 3. *)
Lemma updateStock_bounds_witness :
  (updateStock Examples.shelf 2 (-5) 77).1
    = Js.Throw (Js.BadRequestException
                  "Insufficient stock. Available: 3, Requested: 5")
  /\ (updateStock Examples.shelf 2 (-5) 77).2 = Examples.shelf
  /\ findOne (updateStock Examples.shelf 2 (-5) 77).2 2
     = Js.Ok (Examples.item 2 ACTIVE 3).
Proof.
  destruct (updateStock_bounds Examples.shelf 2 (-5) 77 (Examples.item 2 ACTIVE 3)
              ltac:(reflexivity)) as [Hneg _].
  apply Hneg. vm_compute. reflexivity.
Defined.

Lemma Qle_bool_false (x y : Q) : Qle_bool x y = false <-> (y < x)%Q.
Proof.
  split.
  - intros Hb. apply Qnot_le_lt. intros Hle.
    apply Qle_bool_iff in Hle. congruence.
  - intros Hlt. destruct (Qle_bool x y) eqn:Hb; [|done].
    apply Qle_bool_iff in Hb. by apply Qlt_not_le in Hlt.
Qed.

(** C7. On numbers [applyDiscount] does what is required: a percent
    below 0 or above 100 is refused with the 400 error "Discount must be
    between 0 and 100", whatever the product; a percent within the range
    is refused with the 400 error "Cannot apply discount to inactive
    products" whenever the product exists and its status is not active;
    in both cases nothing is written, and a number is applied only when it
    is within the range and the product is active. The range test lets
    through what is not a number: for a body without the field, or with
    [null] in it, the call passes the test, and on an active product it
    succeeds although no percent from 0 to 100 was given. *)
Theorem applyDiscount_rules (db : Database) (i : Z) (now : Z) :
  (forall percent, (percent < 0)%Q \/ (100 < percent)%Q ->
     applyDiscount db i (Js.NNum percent) now
     = (Js.Throw (Js.BadRequestException "Discount must be between 0 and 100"), db))
  /\ (forall percent, (0 <= percent)%Q -> (percent <= 100)%Q ->
      forall product, findOne db i = Js.Ok product -> status product <> ACTIVE ->
        applyDiscount db i (Js.NNum percent) now
        = (Js.Throw (Js.BadRequestException
                       "Cannot apply discount to inactive products"), db))
  /\ (forall percent saved db',
        applyDiscount db i (Js.NNum percent) now = (Js.Ok saved, db') ->
        (0 <= percent)%Q /\ (percent <= 100)%Q
        /\ discountPercent saved = Some percent
        /\ exists product, findOne db i = Js.Ok product /\ status product = ACTIVE)
  /\ (forall product, findOne db i = Js.Ok product -> status product = ACTIVE ->
        applyDiscount db i Js.NUndefined now
        = (Js.Ok (without_discountPercent product), db)
        /\ exists saved db',
             applyDiscount db i Js.NNull now = (Js.Ok saved, db')
             /\ discountPercent saved = None).
Proof.
  unfold applyDiscount. split; [|split; [|split]].
  - intros percent Hout. cbn [Js.num_lt Js.num_gt].
    assert (negb (Qle_bool 0 percent) || negb (Qle_bool percent 100) = true) as ->;
      [|done].
    apply orb_true_iff. rewrite !negb_true_iff, !Qle_bool_false. exact Hout.
  - intros percent Hlo Hhi product Hfind Hstatus. cbn [Js.num_lt Js.num_gt].
    apply Qle_bool_iff in Hlo, Hhi. rewrite Hlo, Hhi, Hfind. cbn.
    by rewrite bool_decide_eq_false_2.
  - intros percent saved db'. cbn [Js.num_lt Js.num_gt].
    destruct (Qle_bool 0 percent) eqn:Hlo; [|done].
    destruct (Qle_bool percent 100) eqn:Hhi; [|done]. cbn.
    destruct (findOne db i) as [product|e]; [|done].
    destruct (bool_decide (status product = ACTIVE)) eqn:Hst; [|done]. cbn.
    pose proof (save_returns db (with_discountPercent product percent) now) as Hs.
    destruct (save db (with_discountPercent product percent) now) as [saved0 db0].
    cbn [fst] in Hs. intros [= <- _]. apply Qle_bool_iff in Hlo, Hhi.
    apply bool_decide_eq_true_1 in Hst.
    split; [done|]. split; [done|]. split; [|by eauto].
    by destruct Hs as [->| ->].
  - intros product Hfind Hstatus. cbn [Js.num_lt Js.num_gt orb negb].
    change (Qle_bool 0 0) with true. change (Qle_bool 0 100) with true.
    cbn [negb orb]. rewrite Hfind. rewrite bool_decide_eq_true_2 by done.
    cbn [negb]. split; [done|].
    pose proof (save_returns db (without_discountPercent product) now) as Hs.
    destruct (save db (without_discountPercent product) now) as [saved0 db0].
    cbn [fst] in Hs. exists saved0, db0. split; [done|]. by destruct Hs as [->| ->].
Qed.

(** The theorem at work: 150 percent, 10 percent on a draft, and a body
    without [discountPercent] on the active product of the shelf. *)
Lemma applyDiscount_rules_witness :
  applyDiscount Examples.shelf 2 (Js.NNum 150) 77
  = (Js.Throw (Js.BadRequestException "Discount must be between 0 and 100"),
     Examples.shelf)
  /\ applyDiscount Examples.shelf 1 (Js.NNum 10) 77
     = (Js.Throw (Js.BadRequestException
                    "Cannot apply discount to inactive products"),
        Examples.shelf)
  /\ applyDiscount Examples.shelf 2 Js.NUndefined 77
     = (Js.Ok (without_discountPercent (Examples.item 2 ACTIVE 3)), Examples.shelf).
Proof.
  destruct (applyDiscount_rules Examples.shelf 2 77) as (Hrange & _ & _ & Hgap).
  destruct (applyDiscount_rules Examples.shelf 1 77) as (_ & Hstatus & _).
  split; [|split].
  - apply Hrange. right. reflexivity.
  - apply (Hstatus 10%Q ltac:(discriminate) ltac:(discriminate)
                   (Examples.item 1 DRAFT 0)); [reflexivity|discriminate].
  - apply (Hgap (Examples.item 2 ACTIVE 3)); reflexivity.
Defined.

End StockAndDiscount.

(* ===================================================================== *)
(** ** Lookups and writes on the tables *)
(* ===================================================================== *)

Section TableLemmas.
Import Entities.

Lemma find_fmap_preserving {A} (p : A -> bool) (f : A -> A) (l : list A) :
  (forall x, In x l -> p (f x) = p x) ->
  List.find p (f <$> l) = f <$> List.find p l.
Proof.
  induction l as [|x l IH]; intros Hp; [done|].
  cbn. rewrite (Hp x) by (by left).
  destruct (p x); [done|]. apply IH. intros y Hy. apply Hp. by right.
Qed.

Lemma find_app_none {A} (p : A -> bool) (l1 l2 : list A) :
  List.find p l1 = None -> List.find p (l1 ++ l2) = List.find p l2.
Proof.
  induction l1 as [|x l1 IH]; [done|]. cbn.
  destruct (p x); [done|]. exact IH.
Qed.

Lemma find_app_some {A} (p : A -> bool) (l1 l2 : list A) (x : A) :
  List.find p l1 = Some x -> List.find p (l1 ++ l2) = Some x.
Proof.
  induction l1 as [|y l1 IH]; [done|]. cbn.
  destruct (p y); [done|]. exact IH.
Qed.

Lemma find_none_iff {A} (p : A -> bool) (l : list A) :
  List.find p l = None <-> forall x, In x l -> p x = false.
Proof.
  split; [apply find_none|].
  induction l as [|x l IH]; [done|]. intros Hall. cbn.
  rewrite (Hall x) by (by left). apply IH. intros y Hy. apply Hall. by right.
Qed.

(** With a primary key, the row found by the id of a stored row is that row. *)
Lemma find_by_own_id (db : Database) (u : User) :
  UsersService.unique_ids db -> In u (users db) ->
  UsersService.repo_find_by_id db (user_id u) = Some u.
Proof.
  unfold UsersService.unique_ids, UsersService.repo_find_by_id.
  induction (users db) as [|x rows IH]; [done|].
  rewrite fmap_cons, NoDup_cons. intros [Hx Hrows] [->|Hin]; cbn.
  - by rewrite Z.eqb_refl.
  - destruct (Z.eqb_spec (user_id x) (user_id u)) as [Heq|_]; [|by apply IH].
    exfalso. apply Hx. rewrite Heq. apply list_elem_of_fmap.
    exists u. split; [done|]. by apply list_elem_of_In.
Qed.

Lemma find_by_id_sound (db : Database) (i : Z) (u : User) :
  UsersService.repo_find_by_id db i = Some u -> In u (users db) /\ user_id u = i.
Proof.
  intros Hf. apply find_some in Hf as [Hin Hid]. split; [done|lia].
Qed.

Lemma find_by_email_sound (db : Database) (e : string) (u : User) :
  UsersService.repo_find_by_email db e = Some u -> In u (users db) /\ email u = e.
Proof.
  intros Hf. apply find_some in Hf as [Hin He]. split; [done|].
  by apply String.eqb_eq.
Qed.

(** The UPDATE of the repository: the row with the id is merged. *)
Lemma repo_write_same_id (db : Database) (i : Z) (e : gmap string Js.Val)
    (now : Z) (u : User) :
  UsersService.repo_find_by_id db i = Some u ->
  UsersService.repo_find_by_id (UsersService.repo_write db i e now) i
  = Some (merge_user e now u).
Proof.
  intros Hu. unfold UsersService.repo_find_by_id, UsersService.repo_write in *.
  cbn [users]. rewrite find_fmap_preserving.
  - rewrite Hu. cbn. apply find_some in Hu as [_ Hid]. by rewrite Hid.
  - intros x _. by destruct (user_id x =? i) eqn:Hx.
Qed.

(** ... and the rows with another id are left alone. *)
Lemma repo_write_other_id (db : Database) (i j : Z) (e : gmap string Js.Val) (now : Z) :
  j <> i ->
  UsersService.repo_find_by_id (UsersService.repo_write db i e now) j
  = UsersService.repo_find_by_id db j.
Proof.
  intros Hne. unfold UsersService.repo_find_by_id, UsersService.repo_write.
  cbn [users]. rewrite find_fmap_preserving.
  - destruct (List.find _ (users db)) as [x|] eqn:Hx; [|done]. cbn.
    apply find_some in Hx as [_ Hid].
    destruct (Z.eqb_spec (user_id x) i); [lia|done].
  - intros x _. by destruct (user_id x =? i) eqn:Hx.
Qed.

(** A merge that keeps the email of the row keeps every lookup by email. *)
Lemma repo_write_by_email (db : Database) (i : Z) (e : gmap string Js.Val)
    (now : Z) (u : User) (em : string) :
  UsersService.unique_ids db ->
  UsersService.repo_find_by_id db i = Some u ->
  email (merge_user e now u) = email u ->
  UsersService.repo_find_by_email (UsersService.repo_write db i e now) em
  = (fun x => if user_id x =? i then merge_user e now x else x)
      <$> UsersService.repo_find_by_email db em.
Proof.
  intros Hids Hu Hemail.
  unfold UsersService.repo_find_by_email, UsersService.repo_write. cbn [users].
  apply find_fmap_preserving. intros x Hx.
  destruct (Z.eqb_spec (user_id x) i) as [Hid|_]; [|done].
  apply find_by_id_sound in Hu as [Hin Hidu].
  assert (x = u) as ->.
  { pose proof (find_by_own_id db x Hids Hx) as H1.
    pose proof (find_by_own_id db u Hids Hin) as H2.
    rewrite Hid, <- Hidu, H2 in H1. by injection H1. }
  by rewrite Hemail.
Qed.

(** The two outcomes of [save]: nothing to write, or the row rewritten. *)
Lemma repo_save_cases (db : Database) (i : Z) (e : gmap string Js.Val)
    (now : Z) (u : User) :
  UsersService.repo_find_by_id db i = Some u ->
  (merge_user e (user_updatedAt u) u = u
   /\ UsersService.row_differs db i e = false
   /\ UsersService.repo_save db i e now = (e, db))
  \/ (merge_user e (user_updatedAt u) u <> u
      /\ UsersService.row_differs db i e = true
      /\ UsersService.repo_save db i e now
         = (<["updatedAt" := Js.VDate now]> e, UsersService.repo_write db i e now)).
Proof.
  intros Hu. unfold UsersService.repo_save, UsersService.row_differs. rewrite Hu.
  case_bool_decide; [left|right]; done.
Qed.

(** After [save] the row with the id holds the columns of the entity
    object; [updatedAt] is new exactly when a column differed. *)
Lemma repo_save_same_id (db : Database) (i : Z) (e : gmap string Js.Val)
    (now : Z) (u : User) :
  UsersService.repo_find_by_id db i = Some u ->
  UsersService.repo_find_by_id (UsersService.repo_save db i e now).2 i
  = Some (merge_user e (if UsersService.row_differs db i e
                        then now else user_updatedAt u) u).
Proof.
  intros Hu.
  destruct (repo_save_cases db i e now u Hu) as [(Hsame & -> & ->)|(_ & -> & ->)];
    cbn [snd].
  - by rewrite Hsame.
  - by apply repo_write_same_id.
Qed.

Lemma repo_save_other_id (db : Database) (i j : Z) (e : gmap string Js.Val) (now : Z) :
  j <> i ->
  UsersService.repo_find_by_id (UsersService.repo_save db i e now).2 j
  = UsersService.repo_find_by_id db j.
Proof.
  intros Hne. unfold UsersService.repo_save.
  destruct (UsersService.row_differs db i e); cbn [snd]; [|done].
  by apply repo_write_other_id.
Qed.

(** [save] neither adds nor drops a row, and leaves the products alone. *)
Lemma repo_save_frame (db : Database) (i : Z) (e : gmap string Js.Val) (now : Z) :
  length (users (UsersService.repo_save db i e now).2) = length (users db)
  /\ products (UsersService.repo_save db i e now).2 = products db
  /\ nextUserId (UsersService.repo_save db i e now).2 = nextUserId db.
Proof.
  unfold UsersService.repo_save.
  destruct (UsersService.row_differs db i e); cbn [snd]; [|done].
  unfold UsersService.repo_write. cbn. by rewrite length_fmap.
Qed.

End TableLemmas.

(* ===================================================================== *)
(** ** Properties of the role guard *)
(* ===================================================================== *)

Section RolesProps.
Import Entities RolesGuard.

Lemma UserRole_value_inj (r1 r2 : UserRole) :
  UserRole_value r1 = UserRole_value r2 -> r1 = r2.
Proof. by destruct r1, r2. Qed.

Lemma includes_role (requiredRoles : list UserRole) (r : UserRole) :
  includes requiredRoles (Some (Js.VStr (UserRole_value r))) = true
  <-> In r requiredRoles.
Proof.
  unfold includes. rewrite existsb_exists. split.
  - intros (x & Hx & Heq). apply bool_decide_eq_true_1 in Heq.
    injection Heq as Heq. apply UserRole_value_inj in Heq. by subst.
  - intros Hr. exists r. split; [done|]. by apply bool_decide_eq_true_2.
Qed.

(** C9. The required roles are those of the handler when it declares
    some, else those of the class. With none declared, or an empty list,
    the guard lets everybody through. With roles declared, a request
    without user is denied by returning [false]; a user whose role is [r]
    passes exactly when [r] is one of the required roles, so an
    administrator does not pass a moderator-only route. *)
Theorem canActivate_roles (context : ExecutionContext) :
  let requiredRoles :=
    getAllAndOverride [handlerRoles context; classRoles context] in
  (forall m, handlerRoles context = Some m -> requiredRoles = Some m)
  /\ (handlerRoles context = None -> requiredRoles = classRoles context)
  /\ (requiredRoles = None \/ requiredRoles = Some [] ->
      canActivate context = true)
  /\ (forall roles, requiredRoles = Some roles -> roles <> [] ->
        user context = None -> canActivate context = false)
  /\ (forall roles u r, requiredRoles = Some roles -> roles <> [] ->
        user context = Some u ->
        u !! "role" = Some (Js.VStr (UserRole_value r)) ->
        (canActivate context = true <-> In r roles))
  /\ (forall u, requiredRoles = Some [MODERATOR] ->
        user context = Some u ->
        u !! "role" = Some (Js.VStr (UserRole_value ADMIN)) ->
        canActivate context = false).
Proof.
  intros requiredRoles. unfold canActivate. fold requiredRoles.
  split; [|split; [|split; [|split; [|split]]]].
  - intros m Hm. subst requiredRoles. by rewrite Hm.
  - intros Hm. subst requiredRoles. rewrite Hm. cbn. by destruct (classRoles context).
  - by intros [-> | ->].
  - intros roles -> Hne ->. by destruct roles.
  - intros roles u r -> Hne -> ->. destruct roles as [|r0 roles]; [done|].
    cbn [length Nat.eqb]. apply includes_role.
  - by intros u -> -> ->.
Qed.

(** The theorem at work: the administrator on the moderator-only handler. *)
Lemma canActivate_roles_witness :
  canActivate Examples.moderators_only = false.
Proof.
  destruct (canActivate_roles Examples.moderators_only)
    as (_ & _ & _ & _ & _ & Hadmin).
  apply (Hadmin (select UsersService.public_columns (user_entity Examples.alice)));
    reflexivity.
Defined.

End RolesProps.

(* ===================================================================== *)
(** ** Properties of the user service and of authentication *)
(* ===================================================================== *)

Section UserProps.
Import Entities.
Context `{Bcrypt}.

(** Results are compared without looking into the objects they carry. *)
Lemma Ok_inj {A} (a b : A) : Js.Ok a = Js.Ok b -> a = b.
Proof. by intros [= ->]. Qed.

Lemma Ok_pair_inj {A B} (a a' : A) (b b' : B) :
  (Js.Ok a, b) = (Js.Ok a', b') -> a = a' /\ b = b'.
Proof. by intros [= -> ->]. Qed.

Lemma user_entity_password (u : User) :
  user_entity u !! "password" = Some (Js.VStr (password u)).
Proof. reflexivity. Qed.

Lemma user_entity_isActive (u : User) :
  user_entity u !! "isActive" = Some (Js.VBool (isActive u)).
Proof. reflexivity. Qed.

(** A column that is not selected is not in the entity object. *)
Lemma select_not_listed (columns : list string) (e : gmap string Js.Val) (k : string) :
  k ∉ columns -> select columns e !! k = None.
Proof.
  intros Hk. unfold select. apply map_lookup_filter_None_2.
  right. intros x _ Hin. by apply Hk.
Qed.

(** A selected column is loaded as it is in the row. *)
Lemma select_listed (columns : list string) (e : gmap string Js.Val) (k : string) :
  k ∈ columns -> select columns e !! k = e !! k.
Proof.
  intros Hk. unfold select. destruct (e !! k) as [v|] eqn:He.
  - by apply map_lookup_filter_Some_2.
  - apply map_lookup_filter_None_2. by left.
Qed.

Lemma password_not_public : "password" ∉ UsersService.public_columns.
Proof. apply (bool_decide_unpack _). vm_compute. exact I. Qed.

Lemma findOne_shape (db : Database) (i : Z) (user : gmap string Js.Val) :
  UsersService.findOne db i = Js.Ok user ->
  exists u,
    UsersService.repo_find_by_id db i = Some u
    /\ user = <["products" := Js.VArr (products_of db i)]>
                (select UsersService.public_columns (user_entity u)).
Proof.
  unfold UsersService.findOne.
  destruct (UsersService.repo_find_by_id db i) as [u|]; [|done].
  intros <-%Ok_inj. by exists u.
Qed.

Lemma findOne_no_password (db : Database) (i : Z) (user : gmap string Js.Val) :
  UsersService.findOne db i = Js.Ok user -> user !! "password" = None.
Proof.
  intros (u & _ & ->)%findOne_shape.
  rewrite lookup_insert_ne by done.
  apply select_not_listed, password_not_public.
Qed.

Lemma findOne_isActive (db : Database) (i : Z) (u : User) :
  UsersService.repo_find_by_id db i = Some u ->
  exists user,
    UsersService.findOne db i = Js.Ok user
    /\ user !! "isActive" = Some (Js.VBool (isActive u)).
Proof.
  intros Hu. unfold UsersService.findOne. rewrite Hu. eexists. split; [done|].
  rewrite lookup_insert_ne by done.
  rewrite select_listed; [done|].
  apply (bool_decide_unpack _). vm_compute. exact I.
Qed.

(** C10 (as the code has it). What [create], [findAll], [findOne],
    [update] and [getUserStatistics] return carries no password field:
    [create] and [update] strip it from the saved object, the three
    others do not select the column. [findByEmail], the lookup made for
    the credential check, returns the user with the stored password. *)
Theorem user_results_without_password (db : Database) :
  (forall dto now user db',
      UsersService.create db dto now = (Js.Ok user, db') ->
      user !! "password" = None)
  /\ (forall user, In user (UsersService.findAll db) -> user !! "password" = None)
  /\ (forall i user,
        UsersService.findOne db i = Js.Ok user -> user !! "password" = None)
  /\ (forall i dto now user db',
        UsersService.update db i dto now = (Js.Ok user, db') ->
        user !! "password" = None)
  /\ (forall i now user n age,
        UsersService.getUserStatistics db i now = Js.Ok (user, n, age) ->
        user !! "password" = None)
  /\ (forall e u,
        UsersService.repo_find_by_email db e = Some u ->
        exists user,
          UsersService.findByEmail db e = Some user
          /\ user !! "password" = Some (Js.VStr (password u))).
Proof.
  split; [|split; [|split; [|split; [|split]]]].
  - intros dto now user db'. unfold UsersService.create.
    destruct (UsersService.repo_find_by_email db _); [done|].
    intros [<- _]%Ok_pair_inj. apply lookup_delete_eq.
  - intros user Hin. unfold UsersService.findAll in Hin.
    apply list_elem_of_In, list_elem_of_fmap in Hin as (u & -> & _).
    apply select_not_listed, password_not_public.
  - apply findOne_no_password.
  - intros i dto now user db'. unfold UsersService.update.
    destruct (UsersService.findOne db i); [|done].
    destruct (_ && _); [done|].
    intros [<- _]%Ok_pair_inj. apply lookup_delete_eq.
  - intros i now user n age. unfold UsersService.getUserStatistics.
    destruct (UsersService.repo_find_by_id db i) as [u|]; [|done].
    intros Heq%Ok_inj. apply pair_equal_spec in Heq as [Heq _].
    apply pair_equal_spec in Heq as [<- _]. rewrite lookup_insert_ne by done.
    apply select_not_listed. apply (bool_decide_unpack _). vm_compute. exact I.
  - intros e u Hu. unfold UsersService.findByEmail. rewrite Hu.
    eexists. split; [done|]. apply user_entity_password.
Qed.

(** C10, the claim as stated fails: [findByEmail] is an operation of the
    user service that returns a user, and the user carries the password. *)
Lemma findByEmail_returns_password :
  exists user,
    UsersService.findByEmail Examples.staff "alice@example.com" = Some user
    /\ user !! "password" = Some (Js.VStr "h:Secret123").
Proof. eexists. split; reflexivity. Qed.

(** [validateUser] never throws on what [findByEmail] returns, and
    returns [null] exactly when the email is unknown, the account is
    inactive, or the password does not match. *)
Lemma validateUser_cases (db : Database) (e p : string) :
  match UsersService.repo_find_by_email db e with
  | None => AuthService.validateUser db e p = Js.Ok None
  | Some u =>
      if isActive u && bcrypt_compare p (password u)
      then AuthService.validateUser db e p
           = Js.Ok (Some (delete "password" (user_entity u)))
      else AuthService.validateUser db e p = Js.Ok None
  end.
Proof.
  unfold AuthService.validateUser, UsersService.findByEmail.
  destruct (UsersService.repo_find_by_email db e) as [u|]; [|done].
  cbn [fmap option_fmap option_map].
  rewrite user_entity_isActive, user_entity_password. cbn [Js.truthy].
  destruct (isActive u); [|done]. cbn.
  by destruct (bcrypt_compare p (password u)).
Qed.

(** A login in which the email or the password is missing or empty is
    refused before [validate] runs. *)
Lemma loginAttempt_missing (db : Database) (e p : option string) :
  Js.str_truthy e = false \/ Js.str_truthy p = false ->
  AuthService.loginAttempt db e p
  = Js.Throw (Js.UnauthorizedException "Invalid credentials").
Proof.
  intros Hmissing. unfold AuthService.loginAttempt.
  by destruct Hmissing as [-> | ->]; rewrite ?orb_true_r.
Qed.

(** With both fields present the outcome is that of [validate]. *)
Lemma loginAttempt_present (db : Database) (e p : string) :
  e <> "" -> p <> "" ->
  AuthService.loginAttempt db (Some e) (Some p)
  = AuthService.verifyCredentials db e p.
Proof.
  intros He Hp. unfold AuthService.loginAttempt. cbn.
  destruct (String.eqb_spec e ""); [done|].
  by destruct (String.eqb_spec p "").
Qed.



(** The failing lookup by id is a not-found exception. *)
Lemma validateJwtPayload_cases (db : Database) (payload : AuthService.JwtPayload) :
  match UsersService.repo_find_by_id db (AuthService.sub payload) with
  | None =>
      AuthService.validateJwtPayload db payload
      = Js.Throw (Js.NotFoundException
                    ("User with ID " +:+ Js.string_of_Z (AuthService.sub payload)
                     +:+ " not found"))
  | Some u =>
      if isActive u
      then exists user, AuthService.validateJwtPayload db payload = Js.Ok user
      else AuthService.validateJwtPayload db payload
           = Js.Throw (Js.UnauthorizedException "User account is deactivated")
  end.
Proof.
  unfold AuthService.validateJwtPayload.
  destruct (UsersService.repo_find_by_id db _) as [u|] eqn:Hu.
  - destruct (findOne_isActive _ _ _ Hu) as (user & -> & Hact).
    cbn. rewrite Hact. cbn. destruct (isActive u); [by eexists|done].
  - unfold UsersService.findOne. by rewrite Hu.
Qed.

(** After the soft delete the row is still there, inactive. *)
Lemma remove_deactivates (db : Database) (i now : Z) (u : User) :
  UsersService.repo_find_by_id db i = Some u ->
  (UsersService.remove db i now).1 = Js.Ok tt
  /\ exists u',
       UsersService.repo_find_by_id (UsersService.remove db i now).2 i = Some u'
       /\ isActive u' = false.
Proof.
  intros Hu. unfold UsersService.remove, UsersService.findOne. rewrite Hu.
  split; [done|]. cbn [snd].
  set (e := <["isActive" := Js.VBool false]> _).
  rewrite (repo_save_same_id db i e now u Hu). eexists. split; [done|].
  unfold merge_user. cbn [isActive]. subst e. by rewrite lookup_insert_eq.
Qed.

(** A token that is still valid is refused once its user is deactivated. *)
Lemma token_rejected_after_deactivation (db : Database) (payload : AuthService.JwtPayload)
    (now : Z) (u : User) :
  UsersService.repo_find_by_id db (AuthService.sub payload) = Some u ->
  AuthService.authenticate
    (UsersService.remove db (AuthService.sub payload) now).2 payload
  = Js.Throw (Js.UnauthorizedException "User account is deactivated").
Proof.
  intros Hu.
  destruct (remove_deactivates db _ now u Hu) as (_ & u' & Hu' & Hoff).
  pose proof (validateJwtPayload_cases
                (UsersService.remove db (AuthService.sub payload) now).2 payload) as Hc.
  rewrite Hu', Hoff in Hc.
  unfold AuthService.authenticate, AuthService.JwtStrategy_validate.
  by rewrite Hc.
Qed.

(** C2. The token of a user who is deactivated afterwards is refused with
    an unauthorized exception; the token of a user whose row is gone is
    answered with the not-found exception of [findOne] (status 404), not
    with an unauthorized one: the check made for it in
    [validateJwtPayload] is never reached. *)
Theorem token_of_deleted_user_not_found :
  AuthService.authenticate (UsersService.remove Examples.staff 1 500).2
                           (Examples.token_of 1)
    = Js.Throw (Js.UnauthorizedException "User account is deactivated")
  /\ AuthService.validateJwtPayload (UsersService.hardDelete Examples.staff 1).2
                                    (Examples.token_of 1)
     = Js.Throw (Js.NotFoundException "User with ID 1 not found")
  /\ AuthService.authenticate (UsersService.hardDelete Examples.staff 1).2
                              (Examples.token_of 1)
     = Js.Throw (Js.NotFoundException "User with ID 1 not found")
  /\ Js.getStatus (Js.NotFoundException "User with ID 1 not found") = 404
  /\ Js.getStatus (Js.UnauthorizedException "User no longer exists") = 401.
Proof.
  split; [|repeat split; vm_compute; reflexivity].
  apply (token_rejected_after_deactivation Examples.staff (Examples.token_of 1)
           500 Examples.alice).
  reflexivity.
Qed.

End UserProps.

Section UserChecks.
Import Entities.

(** The theorem at work on the sample table. *)
Lemma user_results_without_password_witness :
  (forall user, UsersService.findOne Examples.staff 1 = Js.Ok user ->
                user !! "password" = None)
  /\ exists user,
       UsersService.findByEmail Examples.staff "alice@example.com" = Some user
       /\ user !! "password" = Some (Js.VStr "h:Secret123").
Proof.
  destruct (@user_results_without_password Examples.toy_bcrypt Examples.staff)
    as (_ & _ & Hone & _ & _ & Hmail).
  split.
  - exact (Hone 1).
  - apply (Hmail "alice@example.com" Examples.alice). reflexivity.
Defined.



End UserChecks.

(* ===================================================================== *)
(** ** Further properties of the rate limiter *)
(* ===================================================================== *)

Section RateLimitMore.
Import RateLimitMiddleware.

(** X1. Once more than [windowMs] has passed since the start of a client's
    window, its next request starts a new window: it is let through
    whatever the old count was (for a cap of at least 1), the record
    restarts at count 1 from [now], and the headers announce [cap - 1]
    remaining requests until [now + windowMs]. *)
Theorem expired_window_resets (cfg : Config)
    (requests : gmap (option string) RateLimitRecord)
    (req : Request) (now : Z) (record : RateLimitRecord) :
  requests !! getClientId req = Some record ->
  windowMs cfg < now - firstRequest record ->
  1 <= maxRequests cfg ->
  outcome (use cfg requests req now).2 = Next
  /\ (use cfg requests req now).1 !! getClientId req
     = Some {| count := 1; firstRequest := now |}
  /\ xRateLimitRemaining (use cfg requests req now).2 = maxRequests cfg - 1
  /\ xRateLimitReset (use cfg requests req now).2 = now + windowMs cfg.
Proof.
  intros Hrec Hexp Hcap. unfold use. rewrite Hrec. cbn [fst snd touch].
  destruct (Z.ltb_spec (windowMs cfg) (now - firstRequest record)); [|lia].
  rewrite lookup_insert_eq. unfold respond. cbn.
  destruct (Z.ltb_spec (maxRequests cfg) 1); [lia|].
  repeat split. lia.
Qed.

Lemma expired_window_resets_witness :
  outcome (use defaults {[ Some "198.51.100.4" := {| count := 250; firstRequest := 0 |} ]}
               Examples.visitor 60001).2 = Next
  /\ (use defaults {[ Some "198.51.100.4" := {| count := 250; firstRequest := 0 |} ]}
          Examples.visitor 60001).1 !! getClientId Examples.visitor
     = Some {| count := 1; firstRequest := 60001 |}
  /\ xRateLimitRemaining
       (use defaults {[ Some "198.51.100.4" := {| count := 250; firstRequest := 0 |} ]}
            Examples.visitor 60001).2 = maxRequests defaults - 1
  /\ xRateLimitReset
       (use defaults {[ Some "198.51.100.4" := {| count := 250; firstRequest := 0 |} ]}
            Examples.visitor 60001).2 = 60001 + windowMs defaults.
Proof.
  assert (({[ Some "198.51.100.4" := {| count := 250; firstRequest := 0 |} ]}
             : gmap (option string) RateLimitRecord) !! getClientId Examples.visitor
          = Some {| count := 250; firstRequest := 0 |}) as Hrec
    by (vm_compute; reflexivity).
  assert (windowMs defaults < 60001 - 0) as Hexp by (vm_compute; reflexivity).
  assert (1 <= maxRequests defaults) as Hcap by (vm_compute; discriminate).
  exact (expired_window_resets defaults _ Examples.visitor 60001
           {| count := 250; firstRequest := 0 |} Hrec Hexp Hcap).
Defined.

(** X2. A client that has used up its window stays denied until the window
    ends: if its record already counts [maxRequests] or more, each of its
    further requests within [windowMs] of the window start is refused,
    whatever other clients do in between, and each refused request is
    still counted. *)
Theorem denied_for_rest_of_window (cfg : Config)
    (requests : gmap (option string) RateLimitRecord)
    (trace : list (Request * Z)) (c : option string) (record : RateLimitRecord) :
  requests !! c = Some record ->
  maxRequests cfg <= count record ->
  Forall (fun t => t - firstRequest record <= windowMs cfg) (times_of c trace) ->
  Forall (fun r => exists retryAfter, outcome r = TooManyRequests retryAfter)
         (responses_to c trace (serve cfg requests trace).2)
  /\ (serve cfg requests trace).1 !! c
     = Some {| count := count record + Z.of_nat (length (times_of c trace));
               firstRequest := firstRequest record |}.
Proof.
  intros Hrec Hfull Hin.
  destruct (serve_project cfg c trace requests) as [Hstore Hresps].
  rewrite Hrec in Hstore, Hresps.
  destruct record as [k t0]. cbn [count firstRequest] in *.
  destruct (drive_same_window cfg t0 (times_of c trace) Hin k) as [Hd1 Hd2].
  rewrite Hd1 in Hstore. rewrite Hd2 in Hresps. split; [|done].
  rewrite Hresps. apply Forall_lookup. intros i r Hi.
  rewrite list_lookup_imap in Hi.
  destruct (times_of c trace !! i) as [t|]; [|done].
  cbn in Hi. injection Hi as <-.
  unfold respond. cbn [outcome count].
  destruct (Z.ltb_spec (maxRequests cfg) (k + Z.of_nat i + 1)); [|lia].
  by eexists.
Qed.

Lemma denied_for_rest_of_window_witness :
  Forall (fun r => exists retryAfter, outcome r = TooManyRequests retryAfter)
         (responses_to (Some "198.51.100.4") Examples.full_window
            (serve defaults
               {[ Some "198.51.100.4" := {| count := 100; firstRequest := 0 |} ]}
               Examples.full_window).2)
  /\ (serve defaults
        {[ Some "198.51.100.4" := {| count := 100; firstRequest := 0 |} ]}
        Examples.full_window).1 !! Some "198.51.100.4"
     = Some {| count := 100 + Z.of_nat (length (times_of (Some "198.51.100.4")
                                                         Examples.full_window));
               firstRequest := 0 |}.
Proof.
  assert (({[ Some "198.51.100.4" := {| count := 100; firstRequest := 0 |} ]}
             : gmap (option string) RateLimitRecord) !! Some "198.51.100.4"
          = Some {| count := 100; firstRequest := 0 |}) as Hrec
    by (vm_compute; reflexivity).
  assert (maxRequests defaults <= 100) as Hfull by (vm_compute; discriminate).
  assert (Forall (fun t => t - 0 <= windowMs defaults)
                 (times_of (Some "198.51.100.4") Examples.full_window)) as Hin
    by (apply (bool_decide_unpack _); vm_compute; exact I).
  exact (denied_for_rest_of_window defaults _ Examples.full_window
           (Some "198.51.100.4") {| count := 100; firstRequest := 0 |}
           Hrec Hfull Hin).
Defined.

(** X3. Requests of one client neither read nor write the record of
    another: serving [req] leaves the record of every other identifier as
    it was, and the response depends on the store only through the record
    of the requesting client. *)
Theorem clients_are_isolated (cfg : Config)
    (requests1 requests2 : gmap (option string) RateLimitRecord)
    (req : Request) (now : Z) :
  (forall c, c <> getClientId req ->
             (use cfg requests1 req now).1 !! c = requests1 !! c)
  /\ (requests1 !! getClientId req = requests2 !! getClientId req ->
      (use cfg requests1 req now).2 = (use cfg requests2 req now).2).
Proof.
  unfold use. cbn [fst snd]. split.
  - intros c Hc. by rewrite lookup_insert_ne.
  - by intros ->.
Qed.

Lemma clients_are_isolated_witness :
  (use defaults {[ Some "198.51.100.4" := {| count := 100; firstRequest := 0 |} ]}
       Examples.neighbour 10).2
  = (use defaults ∅ Examples.neighbour 10).2.
Proof.
  destruct (clients_are_isolated defaults
              {[ Some "198.51.100.4" := {| count := 100; firstRequest := 0 |} ]}
              ∅ Examples.neighbour 10) as [_ Hresp].
  apply Hresp. vm_compute. reflexivity.
Defined.

(** A record survives [cleanup] exactly when it is not idle for more than
    two windows. *)
Lemma cleanup_lookup (cfg : Config)
    (requests : gmap (option string) RateLimitRecord) (now : Z) (c : option string) :
  cleanup cfg requests now !! c
  = match requests !! c with
    | Some record =>
        if windowMs cfg * 2 <? now - firstRequest record then None else Some record
    | None => None
    end.
Proof.
  unfold cleanup. destruct (requests !! c) as [record|] eqn:Hrec.
  - destruct (Z.ltb_spec (windowMs cfg * 2) (now - firstRequest record)) as [Hold|Hnew].
    + apply map_lookup_filter_None_2. right. intros x Hx.
      rewrite Hrec in Hx. injection Hx as <-. cbn.
      destruct (Z.ltb_spec (windowMs cfg * 2) (now - firstRequest record)); [done|lia].
    + apply map_lookup_filter_Some_2; [done|]. cbn.
      by destruct (Z.ltb_spec (windowMs cfg * 2) (now - firstRequest record)); [lia|].
  - apply map_lookup_filter_None_2. by left.
Qed.

(** X4. [cleanup] only forgets windows that are over: for a window
    length that is not negative, running [cleanup] at [now] changes neither
    the response nor the stored record of any request served at [now] or
    later. *)
Theorem cleanup_is_transparent (cfg : Config)
    (requests : gmap (option string) RateLimitRecord)
    (req : Request) (now later : Z) :
  0 <= windowMs cfg ->
  now <= later ->
  (use cfg (cleanup cfg requests now) req later).2 = (use cfg requests req later).2
  /\ (use cfg (cleanup cfg requests now) req later).1 !! getClientId req
     = (use cfg requests req later).1 !! getClientId req.
Proof.
  intros Hw Hlater. unfold use. cbn [fst snd]. rewrite !lookup_insert_eq.
  assert (touch cfg later (cleanup cfg requests now !! getClientId req)
          = touch cfg later (requests !! getClientId req)) as ->; [|done].
  rewrite cleanup_lookup.
  destruct (requests !! getClientId req) as [record|]; [|done].
  destruct (Z.ltb_spec (windowMs cfg * 2) (now - firstRequest record)); [|done].
  cbn [touch].
  destruct (Z.ltb_spec (windowMs cfg) (later - firstRequest record)); [done|lia].
Qed.

Lemma cleanup_is_transparent_witness :
  (use defaults
       (cleanup defaults
          {[ Some "198.51.100.4" := {| count := 100; firstRequest := 0 |} ]} 130000)
       Examples.visitor 130500).2
  = (use defaults {[ Some "198.51.100.4" := {| count := 100; firstRequest := 0 |} ]}
         Examples.visitor 130500).2
  /\ (use defaults
        (cleanup defaults
           {[ Some "198.51.100.4" := {| count := 100; firstRequest := 0 |} ]} 130000)
        Examples.visitor 130500).1 !! getClientId Examples.visitor
     = (use defaults {[ Some "198.51.100.4" := {| count := 100; firstRequest := 0 |} ]}
            Examples.visitor 130500).1 !! getClientId Examples.visitor.
Proof.
  assert (0 <= windowMs defaults) as Hw by (vm_compute; discriminate).
  assert (130000 <= 130500) as Hlater by (vm_compute; discriminate).
  exact (cleanup_is_transparent defaults
           {[ Some "198.51.100.4" := {| count := 100; firstRequest := 0 |} ]}
           Examples.visitor 130000 130500 Hw Hlater).
Defined.

End RateLimitMore.

(* ===================================================================== *)
(** ** Further properties of the user service *)
(* ===================================================================== *)

Section UserServiceMore.
Import Entities.
Context `{Bcrypt}.

(** X5. [create] keeps the table sound: if ids and emails are unique and
    every id is below the auto-increment counter, the same holds after
    [create], whether it succeeds or throws; every row that was stored is
    still stored, and a call that throws leaves the database as it was. *)
Theorem create_keeps_table_sound (db db' : Database)
    (dto : UsersService.CreateUserDto) (now : Z)
    (r : Js.Result (gmap string Js.Val)) :
  UsersService.unique_ids db ->
  UsersService.unique_emails db ->
  UsersService.ids_below_counter db ->
  UsersService.create db dto now = (r, db') ->
  UsersService.unique_ids db'
  /\ UsersService.unique_emails db'
  /\ UsersService.ids_below_counter db'
  /\ (forall u, In u (users db) -> In u (users db'))
  /\ ((exists e, r = Js.Throw e) -> db' = db).
Proof.
  intros Hids Hemails Hbelow. unfold UsersService.create.
  destruct (UsersService.repo_find_by_email db _) as [u|] eqn:Hfind.
  - intros [_ <-]%pair_equal_spec. by repeat split.
  - intros [Hr <-]%pair_equal_spec.
    unfold UsersService.unique_ids, UsersService.unique_emails,
      UsersService.ids_below_counter in *. cbn [users nextUserId].
    rewrite !fmap_app. cbn [fmap list_fmap user_id email].
    rewrite Forall_forall in Hbelow.
    split; [|split; [|split; [|split]]].
    + apply NoDup_app. split; [done|]. split; [|apply NoDup_singleton].
      intros i Hi Hnew. apply list_elem_of_singleton in Hnew. subst i.
      apply list_elem_of_fmap in Hi as (u & Hid & Hu).
      apply Hbelow in Hu. lia.
    + apply NoDup_app. split; [done|]. split; [|apply NoDup_singleton].
      intros e He Hnew. apply list_elem_of_singleton in Hnew. subst e.
      apply list_elem_of_fmap in He as (u & Hmail & Hu).
      apply list_elem_of_In in Hu.
      eapply find_none in Hfind; [|exact Hu]. cbn in Hfind.
      rewrite <- Hmail, String.eqb_refl in Hfind. done.
    + apply Forall_app. split.
      * apply Forall_forall. intros u Hu. apply Hbelow in Hu. lia.
      * apply Forall_singleton. cbn. lia.
    + intros u Hu. apply in_or_app. by left.
    + intros [e ->]. done.
Qed.

(** X6. Registration and login agree: when [create] succeeds and bcrypt
    accepts the password against the hash it made of it, the credential
    check with the same email and password succeeds and yields the very
    object [create] returned, and so does the login when neither of the
    two is empty: the user with the next id of the table, active, with
    the requested role (or "user"), and without password; what is stored
    is the hash, not the password. *)
Theorem created_user_can_log_in (db db' : Database)
    (dto : UsersService.CreateUserDto) (now : Z) (user : gmap string Js.Val) :
  UsersService.create db dto now = (Js.Ok user, db') ->
  bcrypt_compare (UsersService.c_password dto)
    (bcrypt_hash (UsersService.c_password dto) UsersService.saltRounds) = true ->
  AuthService.verifyCredentials db' (UsersService.c_email dto)
    (UsersService.c_password dto)
  = Js.Ok user
  /\ (UsersService.c_email dto <> "" -> UsersService.c_password dto <> "" ->
      AuthService.loginAttempt db' (Some (UsersService.c_email dto))
        (Some (UsersService.c_password dto))
      = Js.Ok user)
  /\ user !! "id" = Some (Js.VNum (nextUserId db))
  /\ user !! "isActive" = Some (Js.VBool true)
  /\ user !! "role"
     = Some (Js.VStr (UserRole_value (default USER (UsersService.c_role dto))))
  /\ user !! "password" = None
  /\ exists u,
       UsersService.repo_find_by_email db' (UsersService.c_email dto) = Some u
       /\ password u
          = bcrypt_hash (UsersService.c_password dto) UsersService.saltRounds.
Proof.
  unfold UsersService.create.
  destruct (UsersService.repo_find_by_email db _) as [u|] eqn:Hfind; [done|].
  intros [<- <-]%Ok_pair_inj Hbcrypt.
  set (row := {| user_id := nextUserId db; email := UsersService.c_email dto;
                 password := bcrypt_hash (UsersService.c_password dto)
                               UsersService.saltRounds;
                 firstName := UsersService.c_firstName dto;
                 lastName := UsersService.c_lastName dto;
                 role := default USER (UsersService.c_role dto);
                 isActive := true; phone := UsersService.c_phone dto;
                 user_createdAt := now; user_updatedAt := now |}).
  set (db' := {| users := users db ++ [row]; products := products db;
                 nextUserId := nextUserId db + 1 |}).
  assert (UsersService.repo_find_by_email db' (UsersService.c_email dto) = Some row)
    as Hrow.
  { unfold UsersService.repo_find_by_email in *. cbn [users db'].
    rewrite find_app_none by done. cbn. by rewrite String.eqb_refl. }
  assert (AuthService.verifyCredentials db' (UsersService.c_email dto)
            (UsersService.c_password dto)
          = Js.Ok (delete "password" (user_entity row))) as Hverify.
  { pose proof (validateUser_cases db' (UsersService.c_email dto)
                  (UsersService.c_password dto)) as Hc.
    rewrite Hrow in Hc. cbn [isActive password row] in Hc.
    rewrite Hbcrypt in Hc. cbn in Hc.
    unfold AuthService.verifyCredentials, AuthService.LocalStrategy_validate.
    by rewrite Hc. }
  split; [done|]. split; [|split; [|split; [|split; [|split]]]].
  - intros He Hp. by rewrite loginAttempt_present.
  - by rewrite lookup_delete_ne.
  - by rewrite lookup_delete_ne.
  - by rewrite lookup_delete_ne.
  - apply lookup_delete_eq.
  - by exists row.
Qed.

(** The row a soft delete writes back. *)
Lemma soft_deleted_row (u : User) (ids : list Z) (now : Z) :
  merge_user (<["isActive" := Js.VBool false]>
                (<["products" := Js.VArr ids]>
                   (select UsersService.public_columns (user_entity u)))) now u
  = {| user_id := user_id u; email := email u; password := password u;
       firstName := firstName u; lastName := lastName u; role := role u;
       isActive := false; phone := phone u;
       user_createdAt := user_createdAt u; user_updatedAt := now |}.
Proof.
  destruct u as [i e p f l r a ph c m]. destruct r, ph; vm_compute; reflexivity.
Qed.

(** The soft delete has something to write exactly for an active user. *)
Lemma soft_delete_differs (db : Database) (i : Z) (u : User) :
  UsersService.repo_find_by_id db i = Some u ->
  UsersService.row_differs db i
    (<["isActive" := Js.VBool false]>
       (<["products" := Js.VArr (products_of db i)]>
          (select UsersService.public_columns (user_entity u))))
  = isActive u.
Proof.
  intros Hu. unfold UsersService.row_differs. rewrite Hu, soft_deleted_row.
  destruct u as [i0 e p f l r a ph c m]. cbn.
  destruct a; [by rewrite bool_decide_eq_false_2|by rewrite bool_decide_eq_true_2].
Qed.

(** The row of a user after [remove]. *)
Lemma removed_row (db : Database) (i now : Z) (u : User) :
  UsersService.repo_find_by_id db i = Some u ->
  UsersService.repo_find_by_id (UsersService.remove db i now).2 i
  = Some {| user_id := user_id u; email := email u; password := password u;
            firstName := firstName u; lastName := lastName u; role := role u;
            isActive := false; phone := phone u;
            user_createdAt := user_createdAt u;
            user_updatedAt := if isActive u then now else user_updatedAt u |}.
Proof.
  intros Hu. unfold UsersService.remove, UsersService.findOne. rewrite Hu.
  cbn [snd]. rewrite (repo_save_same_id db i _ now u Hu).
  by rewrite soft_deleted_row, soft_delete_differs.
Qed.

(** X7. The soft delete is soft: for a user that exists, [remove]
    succeeds and the row stays with every column as it was except
    [isActive], now false, and [updatedAt], which is the time of the call
    when the user was active; for a user that was inactive already
    nothing is written. No row is added or dropped, the rows of other
    users and the products are untouched. *)
Theorem remove_only_clears_isActive (db : Database) (i now : Z) (u : User) :
  UsersService.repo_find_by_id db i = Some u ->
  (UsersService.remove db i now).1 = Js.Ok tt
  /\ UsersService.repo_find_by_id (UsersService.remove db i now).2 i
     = Some {| user_id := user_id u; email := email u; password := password u;
               firstName := firstName u; lastName := lastName u; role := role u;
               isActive := false; phone := phone u;
               user_createdAt := user_createdAt u;
               user_updatedAt := if isActive u then now else user_updatedAt u |}
  /\ (isActive u = false -> (UsersService.remove db i now).2 = db)
  /\ length (users (UsersService.remove db i now).2) = length (users db)
  /\ products (UsersService.remove db i now).2 = products db
  /\ (forall j, j <> i ->
        UsersService.repo_find_by_id (UsersService.remove db i now).2 j
        = UsersService.repo_find_by_id db j).
Proof.
  intros Hu. split; [|split; [by apply removed_row|]].
  { unfold UsersService.remove, UsersService.findOne. by rewrite Hu. }
  unfold UsersService.remove, UsersService.findOne. rewrite Hu. cbn [snd].
  split; [|split; [|split]].
  - intros Hoff. unfold UsersService.repo_save.
    by rewrite (soft_delete_differs db i u Hu), Hoff.
  - apply repo_save_frame.
  - apply repo_save_frame.
  - intros j Hj. by apply repo_save_other_id.
Qed.

(** X8. A deactivated account cannot log in: with unique ids, after
    [remove] of the user registered under [em], a login with [em] is
    refused with an unauthorized exception whatever password is given:
    with "Invalid email or password", the answer to a wrong password, when
    email and password are not empty, and with "Invalid credentials" when
    one of them is empty or missing. *)
Theorem removed_user_cannot_log_in (db : Database) (em : string) (now : Z) (u : User) :
  UsersService.unique_ids db ->
  UsersService.repo_find_by_email db em = Some u ->
  (UsersService.remove db (user_id u) now).1 = Js.Ok tt
  /\ (forall p,
        AuthService.verifyCredentials (UsersService.remove db (user_id u) now).2 em p
        = Js.Throw (Js.UnauthorizedException "Invalid email or password"))
  /\ (forall p,
        AuthService.loginAttempt (UsersService.remove db (user_id u) now).2
          (Some em) p
        = Js.Throw (Js.UnauthorizedException
                      (if negb (Js.str_truthy (Some em)) || negb (Js.str_truthy p)
                       then "Invalid credentials"
                       else "Invalid email or password"))).
Proof.
  intros Hids Hmail.
  destruct (find_by_email_sound db em u Hmail) as [Hin _].
  pose proof (find_by_own_id db u Hids Hin) as Hu.
  split; [unfold UsersService.remove, UsersService.findOne; by rewrite Hu|].
  assert (exists u', UsersService.repo_find_by_email
                       (UsersService.remove db (user_id u) now).2 em = Some u'
                     /\ isActive u' = false) as (u' & Hrow & Hoff).
  { unfold UsersService.remove, UsersService.findOne. rewrite Hu. cbn [snd].
    pose proof (soft_deleted_row u (products_of db (user_id u)) now) as Hsoft.
    pose proof (soft_delete_differs db (user_id u) u Hu) as Hdiff.
    set (e := <["isActive" := Js.VBool false]> _) in *.
    unfold UsersService.repo_save. rewrite Hdiff.
    destruct (isActive u) eqn:Hactive; cbn [snd].
    - rewrite (repo_write_by_email db (user_id u) e now u em Hids Hu)
        by (by rewrite Hsoft).
      rewrite Hmail. cbn. rewrite Z.eqb_refl, Hsoft.
      eexists. split; reflexivity.
    - exists u. split; [exact Hmail|exact Hactive]. }
  assert (forall p,
            AuthService.verifyCredentials
              (UsersService.remove db (user_id u) now).2 em p
            = Js.Throw (Js.UnauthorizedException "Invalid email or password"))
    as Hverify.
  { intros p.
    pose proof (validateUser_cases
                  (UsersService.remove db (user_id u) now).2 em p) as Hc.
    rewrite Hrow, Hoff in Hc. cbn in Hc.
    unfold AuthService.verifyCredentials, AuthService.LocalStrategy_validate.
    by rewrite Hc. }
  split; [done|]. intros p. unfold AuthService.loginAttempt.
  destruct (negb (Js.str_truthy (Some em)) || negb (Js.str_truthy p)); [done|].
  apply Hverify.
Qed.

End UserServiceMore.

Section UserServiceRows.
Import Entities.

Lemma filter_other_ids_find (l : list User) (i j : Z) :
  j <> i ->
  List.find (fun u => user_id u =? j) (filter (fun u => user_id u <> i) l)
  = List.find (fun u => user_id u =? j) l.
Proof.
  intros Hne. induction l as [|x l IH]; [done|].
  destruct (decide (user_id x = i)) as [Hx|Hx].
  - rewrite filter_cons_False by tauto. cbn.
    destruct (Z.eqb_spec (user_id x) j); [lia|done].
  - rewrite filter_cons_True by done. cbn. by rewrite IH.
Qed.

(** X9. [hardDelete] of an id that no row has throws not-found and
    changes nothing. Otherwise it succeeds; afterwards no row has the id,
    so [findOne] throws not-found, the rows of other ids are found as
    before, and no product refers to the deleted user any more (the
    products themselves are kept). *)
Theorem hardDelete_removes_the_row (db : Database) (i : Z) :
  (UsersService.repo_find_by_id db i = None ->
   UsersService.hardDelete db i
   = (Js.Throw (Js.NotFoundException
                  ("User with ID " +:+ Js.string_of_Z i +:+ " not found")), db))
  /\ (forall u, UsersService.repo_find_by_id db i = Some u ->
        (UsersService.hardDelete db i).1 = Js.Ok tt
        /\ UsersService.repo_find_by_id (UsersService.hardDelete db i).2 i = None
        /\ UsersService.findOne (UsersService.hardDelete db i).2 i
           = Js.Throw (Js.NotFoundException
                         ("User with ID " +:+ Js.string_of_Z i +:+ " not found"))
        /\ (forall j, j <> i ->
              UsersService.repo_find_by_id (UsersService.hardDelete db i).2 j
              = UsersService.repo_find_by_id db j)
        /\ Forall (fun p => createdById p <> Some i)
                  (products (UsersService.hardDelete db i).2)
        /\ id <$> products (UsersService.hardDelete db i).2 = id <$> products db).
Proof.
  unfold UsersService.hardDelete. split.
  - intros Hnone.
    assert (filter (fun u => user_id u <> i) (users db) = users db) as ->.
    { unfold UsersService.repo_find_by_id in Hnone.
      induction (users db) as [|x l IH]; [done|]. cbn in Hnone.
      destruct (Z.eqb_spec (user_id x) i); [done|].
      rewrite filter_cons_True by done. by rewrite IH. }
    by rewrite Nat.sub_diag.
  - intros u Hu.
    assert (length (filter (fun u => user_id u <> i) (users db)) < length (users db))%nat
      as Hlt.
    { apply find_by_id_sound in Hu as [Hin Hid].
      apply (length_filter_lt _ _ u); [by apply list_elem_of_In|]. tauto. }
    destruct (Nat.eqb_spec
                (length (users db)
                 - length (filter (fun u => user_id u <> i) (users db))) 0); [lia|].
    cbn [fst snd users products].
    assert (List.find (fun u => user_id u =? i)
              (filter (fun u => user_id u <> i) (users db)) = None) as Hgone.
    { apply find_none_iff. intros x Hx.
      apply list_elem_of_In, list_elem_of_filter in Hx as [Hx _].
      destruct (Z.eqb_spec (user_id x) i); done. }
    split; [done|]. split; [exact Hgone|]. split; [|split; [|split]].
    + unfold UsersService.findOne, UsersService.repo_find_by_id. cbn [users].
      by rewrite Hgone.
    + intros j Hj. unfold UsersService.repo_find_by_id. cbn [users].
      by apply filter_other_ids_find.
    + apply Forall_fmap, Forall_forall. intros p _. cbn.
      case_bool_decide; [done|]. done.
    + rewrite <- list_fmap_compose. apply list_fmap_ext. intros k p _. cbn.
      by case_bool_decide.
Qed.

(** The row a profile update writes back. *)
Lemma updated_row (u : User) (ids : list Z) (dto : UsersService.UpdateUserDto) (now : Z) :
  merge_user (UsersService.assign
                (<["products" := Js.VArr ids]>
                   (select UsersService.public_columns (user_entity u))) dto) now u
  = {| user_id := user_id u;
       email := default (email u) (UsersService.u_email dto);
       password := password u;
       firstName := default (firstName u) (UsersService.u_firstName dto);
       lastName := default (lastName u) (UsersService.u_lastName dto);
       role := default (role u) (UsersService.u_role dto);
       isActive := default (isActive u) (UsersService.u_isActive dto);
       phone := match UsersService.u_phone dto with
                | Some p => Some p
                | None => phone u
                end;
       user_createdAt := user_createdAt u;
       user_updatedAt := now |}.
Proof.
  destruct u as [i e p f l r a ph c m], dto as [de df dl dp dr da].
  destruct de, df, dl, dp, dr as [[]|], da, r, ph; vm_compute; reflexivity.
Qed.

(** What a successful [update] leaves in the table. *)
Lemma update_row (db db' : Database) (i now : Z) (dto : UsersService.UpdateUserDto)
    (u : User) (user : gmap string Js.Val) :
  UsersService.repo_find_by_id db i = Some u ->
  UsersService.update db i dto now = (Js.Ok user, db') ->
  db' = (UsersService.repo_save db i
           (UsersService.assign
              (<["products" := Js.VArr (products_of db i)]>
                 (select UsersService.public_columns (user_entity u))) dto) now).2
  /\ user !! "password" = None.
Proof.
  intros Hu. unfold UsersService.update, UsersService.findOne. rewrite Hu.
  destruct (_ && _).
  - intros [Hr _]%pair_equal_spec. discriminate Hr.
  - intros [<- <-]%Ok_pair_inj. split; [done|]. apply lookup_delete_eq.
Qed.

(** The row of the user after a successful [update]. *)
Lemma update_row_after (db db' : Database) (i now : Z)
    (dto : UsersService.UpdateUserDto) (u : User) (user : gmap string Js.Val) :
  UsersService.repo_find_by_id db i = Some u ->
  UsersService.update db i dto now = (Js.Ok user, db') ->
  let row := fun t =>
    {| user_id := user_id u;
       email := default (email u) (UsersService.u_email dto);
       password := password u;
       firstName := default (firstName u) (UsersService.u_firstName dto);
       lastName := default (lastName u) (UsersService.u_lastName dto);
       role := default (role u) (UsersService.u_role dto);
       isActive := default (isActive u) (UsersService.u_isActive dto);
       phone := match UsersService.u_phone dto with
                | Some p => Some p
                | None => phone u
                end;
       user_createdAt := user_createdAt u;
       user_updatedAt := t |} in
  UsersService.repo_find_by_id db' i
  = Some (row (if bool_decide (row (user_updatedAt u) = u)
               then user_updatedAt u else now))
  /\ (row (user_updatedAt u) = u -> db' = db).
Proof.
  intros Hu Hupd row. destruct (update_row _ _ _ _ _ _ _ Hu Hupd) as [-> _].
  set (e := UsersService.assign _ dto).
  assert (forall t, merge_user e t u = row t) as Hmerge
    by (intros t; apply updated_row).
  assert (UsersService.row_differs db i e
          = negb (bool_decide (row (user_updatedAt u) = u))) as Hdiff.
  { unfold UsersService.row_differs. by rewrite Hu, Hmerge. }
  split.
  - rewrite (repo_save_same_id db i e now u Hu), Hdiff, Hmerge.
    by case_bool_decide.
  - intros Hsame. unfold UsersService.repo_save. rewrite Hdiff.
    by rewrite bool_decide_eq_true_2.
Qed.

(** X10. A profile update writes the fields the DTO carries and nothing
    else: after a successful [update] the row of the user has the DTO's
    value in each field the DTO sets and the old value elsewhere; id,
    password hash and creation time never change. [updatedAt] is the time
    of the call when some column changed; when the DTO changes no column
    nothing is written and [updatedAt] stays. The rows of other users are
    as before. *)
Theorem update_writes_only_dto_fields (db db' : Database) (i now : Z)
    (dto : UsersService.UpdateUserDto) (u : User) (user : gmap string Js.Val) :
  UsersService.repo_find_by_id db i = Some u ->
  UsersService.update db i dto now = (Js.Ok user, db') ->
  let row := fun t =>
    {| user_id := user_id u;
       email := default (email u) (UsersService.u_email dto);
       password := password u;
       firstName := default (firstName u) (UsersService.u_firstName dto);
       lastName := default (lastName u) (UsersService.u_lastName dto);
       role := default (role u) (UsersService.u_role dto);
       isActive := default (isActive u) (UsersService.u_isActive dto);
       phone := match UsersService.u_phone dto with
                | Some p => Some p
                | None => phone u
                end;
       user_createdAt := user_createdAt u;
       user_updatedAt := t |} in
  (row (user_updatedAt u) <> u ->
   UsersService.repo_find_by_id db' i = Some (row now))
  /\ (row (user_updatedAt u) = u ->
      UsersService.repo_find_by_id db' i = Some u /\ db' = db)
  /\ (forall j, j <> i ->
        UsersService.repo_find_by_id db' j = UsersService.repo_find_by_id db j)
  /\ length (users db') = length (users db)
  /\ products db' = products db.
Proof.
  intros Hu Hupd row.
  destruct (update_row_after _ _ _ _ _ _ _ Hu Hupd) as [Hrow Hsame].
  fold row in Hrow, Hsame.
  destruct (update_row _ _ _ _ _ _ _ Hu Hupd) as [Hdb _].
  split; [|split; [|split; [|split]]].
  - intros Hne. by rewrite Hrow, bool_decide_eq_false_2.
  - intros Heq. split; [|by apply Hsame].
    rewrite Hrow. case_bool_decide; [f_equal; exact Heq|done].
  - intros j Hj. rewrite Hdb. by apply repo_save_other_id.
  - rewrite Hdb. apply repo_save_frame.
  - rewrite Hdb. apply repo_save_frame.
Qed.

End UserServiceRows.

Section PasswordAndTokens.
Import Entities.
Context `{Bcrypt} `{AuthService.JwtService}.

(** The row a password change writes back. *)
Lemma password_changed_row (u : User) (h : string) (now : Z) :
  merge_user {[ "password" := Js.VStr h ]} now u
  = {| user_id := user_id u; email := email u; password := h;
       firstName := firstName u; lastName := lastName u; role := role u;
       isActive := isActive u; phone := phone u;
       user_createdAt := user_createdAt u; user_updatedAt := now |}.
Proof. destruct u. vm_compute. reflexivity. Qed.

(** X11. [updatePassword] changes the password only for who knows the
    current one: for an unknown id it throws not-found, for a current
    password that bcrypt rejects it throws the bad-request exception, and
    in both cases nothing is written; otherwise the row gets the hash of
    the new password, keeps every other column but [updatedAt], and no
    other row changes. *)
Theorem updatePassword_rules (db : Database) (i now : Z)
    (currentPassword newPassword : string) :
  (UsersService.repo_find_by_id db i = None ->
   UsersService.updatePassword db i currentPassword newPassword now
   = (Js.Throw (Js.NotFoundException
                  ("User with ID " +:+ Js.string_of_Z i +:+ " not found")), db))
  /\ (forall u, UsersService.repo_find_by_id db i = Some u ->
        bcrypt_compare currentPassword (password u) = false ->
        UsersService.updatePassword db i currentPassword newPassword now
        = (Js.Throw (Js.BadRequestException "Current password is incorrect"), db))
  /\ (forall u, UsersService.repo_find_by_id db i = Some u ->
        bcrypt_compare currentPassword (password u) = true ->
        (UsersService.updatePassword db i currentPassword newPassword now).1
        = Js.Ok tt
        /\ UsersService.repo_find_by_id
             (UsersService.updatePassword db i currentPassword newPassword now).2 i
           = Some {| user_id := user_id u; email := email u;
                     password := bcrypt_hash newPassword UsersService.saltRounds;
                     firstName := firstName u; lastName := lastName u;
                     role := role u; isActive := isActive u; phone := phone u;
                     user_createdAt := user_createdAt u; user_updatedAt := now |}
        /\ (forall j, j <> i ->
              UsersService.repo_find_by_id
                (UsersService.updatePassword db i currentPassword newPassword now).2 j
              = UsersService.repo_find_by_id db j)).
Proof.
  unfold UsersService.updatePassword. split; [|split].
  - by intros ->.
  - by intros u -> ->.
  - intros u Hu Hok. rewrite Hu, Hok. cbn [negb fst snd].
    unfold UsersService.repo_update. split; [done|]. split.
    + rewrite (repo_write_same_id db i _ now u Hu).
      f_equal; try apply password_changed_row.
    + intros j Hj. by apply repo_write_other_id.
Qed.

(** X12. After a password change the new password logs in: with unique
    ids, for an active user registered under [em] whose current password
    bcrypt accepts, and a new password that bcrypt accepts against its own
    hash, [updatePassword] succeeds, the credential check with [em] and
    the new password returns the user, and so does the login when neither
    is empty. A password that bcrypt rejects against the new hash fails
    the credential check; the login with it is refused with "Invalid email
    or password" when email and password are not empty and with "Invalid
    credentials" when one of them is. *)
Theorem new_password_logs_in (db : Database) (em : string) (now : Z)
    (currentPassword newPassword : string) (u : User) :
  UsersService.unique_ids db ->
  UsersService.repo_find_by_email db em = Some u ->
  isActive u = true ->
  bcrypt_compare currentPassword (password u) = true ->
  bcrypt_compare newPassword (bcrypt_hash newPassword UsersService.saltRounds) = true ->
  (UsersService.updatePassword db (user_id u) currentPassword newPassword now).1
  = Js.Ok tt
  /\ (exists user,
        AuthService.verifyCredentials
          (UsersService.updatePassword db (user_id u) currentPassword newPassword now).2
          em newPassword = Js.Ok user
        /\ (em <> "" -> newPassword <> "" ->
            AuthService.loginAttempt
              (UsersService.updatePassword db (user_id u)
                 currentPassword newPassword now).2
              (Some em) (Some newPassword) = Js.Ok user)
        /\ user !! "id" = Some (Js.VNum (user_id u))
        /\ user !! "password" = None)
  /\ (forall p,
        bcrypt_compare p (bcrypt_hash newPassword UsersService.saltRounds) = false ->
        AuthService.verifyCredentials
          (UsersService.updatePassword db (user_id u) currentPassword newPassword now).2
          em p
        = Js.Throw (Js.UnauthorizedException "Invalid email or password")
        /\ AuthService.loginAttempt
             (UsersService.updatePassword db (user_id u)
                currentPassword newPassword now).2
             (Some em) (Some p)
           = Js.Throw (Js.UnauthorizedException
                         (if negb (Js.str_truthy (Some em))
                             || negb (Js.str_truthy (Some p))
                          then "Invalid credentials"
                          else "Invalid email or password"))).
Proof.
  intros Hids Hmail Hactive Hcur Hnew.
  destruct (find_by_email_sound db em u Hmail) as [Hin _].
  pose proof (find_by_own_id db u Hids Hin) as Hu.
  set (db' := (UsersService.updatePassword db (user_id u)
                 currentPassword newPassword now).2).
  set (u' := {| user_id := user_id u; email := email u;
                password := bcrypt_hash newPassword UsersService.saltRounds;
                firstName := firstName u; lastName := lastName u;
                role := role u; isActive := isActive u; phone := phone u;
                user_createdAt := user_createdAt u; user_updatedAt := now |}).
  assert (UsersService.repo_find_by_email db' em = Some u') as Hrow.
  { subst db'. unfold UsersService.updatePassword, UsersService.repo_update.
    rewrite Hu, Hcur. cbn [negb snd].
    rewrite (repo_write_by_email db (user_id u) _ now u em Hids Hu)
      by (by rewrite password_changed_row).
    rewrite Hmail. cbn. by rewrite Z.eqb_refl, password_changed_row. }
  split; [|split].
  - unfold UsersService.updatePassword. by rewrite Hu, Hcur.
  - pose proof (validateUser_cases db' em newPassword) as Hc.
    rewrite Hrow in Hc. cbn [isActive password u'] in Hc.
    rewrite Hactive, Hnew in Hc. cbn in Hc.
    assert (AuthService.verifyCredentials db' em newPassword
            = Js.Ok (delete "password" (user_entity u'))) as Hverify.
    { unfold AuthService.verifyCredentials, AuthService.LocalStrategy_validate.
      by rewrite Hc. }
    exists (delete "password" (user_entity u')).
    split; [done|]. split; [|split].
    + intros He Hp. by rewrite loginAttempt_present.
    + by rewrite lookup_delete_ne.
    + apply lookup_delete_eq.
  - intros p Hp. pose proof (validateUser_cases db' em p) as Hc.
    rewrite Hrow in Hc. cbn [isActive password u'] in Hc.
    rewrite Hp, andb_false_r in Hc.
    assert (AuthService.verifyCredentials db' em p
            = Js.Throw (Js.UnauthorizedException "Invalid email or password"))
      as Hverify.
    { unfold AuthService.verifyCredentials, AuthService.LocalStrategy_validate.
      by rewrite Hc. }
    split; [done|]. unfold AuthService.loginAttempt.
    destruct (negb (Js.str_truthy (Some em)) || negb (Js.str_truthy (Some p)));
      [done|]. exact Hverify.
Qed.

(** What the JWT guard puts in [request.user] for an active user. *)
Lemma authenticate_active (db : Database) (payload : AuthService.JwtPayload) (u : User) :
  UsersService.repo_find_by_id db (AuthService.sub payload) = Some u ->
  isActive u = true ->
  exists user,
    AuthService.authenticate db payload = Js.Ok user
    /\ user !! "role" = Some (Js.VStr (UserRole_value (role u)))
    /\ user !! "id" = Some (Js.VNum (user_id u))
    /\ user !! "email" = Some (Js.VStr (email u))
    /\ user !! "password" = None.
Proof.
  intros Hu Hactive.
  destruct (findOne_isActive db _ u Hu) as (user & Hfind & Hact).
  destruct (findOne_shape db _ user Hfind) as (u0 & Hu0 & Hshape).
  rewrite Hu in Hu0. injection Hu0 as <-.
  exists user. split.
  - unfold AuthService.authenticate, AuthService.JwtStrategy_validate,
      AuthService.validateJwtPayload.
    rewrite Hfind. cbn. rewrite Hact, Hactive. done.
  - rewrite Hshape. rewrite !lookup_insert_ne by done.
    rewrite !select_listed by (apply (bool_decide_unpack _); vm_compute; exact I).
    rewrite (select_not_listed _ _ "password") by apply password_not_public.
    repeat split; reflexivity.
Qed.

(** X13. Role checks use the stored user, not the token: on a route
    guarded by the JWT guard and the role guard with a non-empty list of
    roles, a token whose subject is an active user passes exactly when the
    role stored for that user is in the list, whatever email and role the
    token claims; a token of a deactivated user is refused by the first
    guard. *)
Theorem guards_use_stored_role (db : Database) (payload : AuthService.JwtPayload)
    (roles : list UserRole) (u : User) :
  UsersService.repo_find_by_id db (AuthService.sub payload) = Some u ->
  roles <> [] ->
  (isActive u = true ->
   exists pass,
     Routes.jwt_then_roles db payload (Some roles) = Js.Ok pass
     /\ (pass = true <-> In (role u) roles))
  /\ (isActive u = false ->
      Routes.jwt_then_roles db payload (Some roles)
      = Js.Throw (Js.UnauthorizedException "User account is deactivated")).
Proof.
  intros Hu Hroles. unfold Routes.jwt_then_roles. split.
  - intros Hactive.
    destruct (authenticate_active db payload u Hu Hactive)
      as (user & -> & Hrole & _).
    cbn. unfold RolesGuard.canActivate. cbn.
    destruct roles as [|r0 roles]; [done|]. cbn [length Nat.eqb].
    rewrite Hrole. eexists. split; [done|]. apply includes_role.
  - intros Hoff. pose proof (validateJwtPayload_cases db payload) as Hc.
    rewrite Hu, Hoff in Hc.
    unfold AuthService.authenticate, AuthService.JwtStrategy_validate.
    by rewrite Hc.
Qed.

(** X14. A change of role applies to tokens already issued: after a
    successful [update] that sets the role of user [i], a token whose
    subject is [i] passes a role-guarded route exactly when the new role is
    among the required ones, provided the user is active after the update;
    when the update leaves or makes the user inactive, the token is refused
    by the JWT guard whatever the role. *)
Theorem role_change_applies_at_once (db db' : Database) (i now : Z)
    (dto : UsersService.UpdateUserDto) (u : User) (user : gmap string Js.Val)
    (payload : AuthService.JwtPayload) (roles : list UserRole) (r' : UserRole) :
  UsersService.repo_find_by_id db i = Some u ->
  UsersService.update db i dto now = (Js.Ok user, db') ->
  UsersService.u_role dto = Some r' ->
  AuthService.sub payload = i ->
  roles <> [] ->
  (default (isActive u) (UsersService.u_isActive dto) = true ->
   exists pass,
     Routes.jwt_then_roles db' payload (Some roles) = Js.Ok pass
     /\ (pass = true <-> In r' roles))
  /\ (default (isActive u) (UsersService.u_isActive dto) = false ->
      Routes.jwt_then_roles db' payload (Some roles)
      = Js.Throw (Js.UnauthorizedException "User account is deactivated")).
Proof.
  intros Hu Hupd Hrole Hsub Hroles. subst i.
  destruct (update_row _ _ _ _ _ _ _ Hu Hupd) as [-> _].
  pose proof (repo_save_same_id db (AuthService.sub payload)
                (UsersService.assign
                   (<["products" := Js.VArr (products_of db (AuthService.sub payload))]>
                      (select UsersService.public_columns (user_entity u))) dto)
                now u Hu) as Hrow.
  rewrite updated_row in Hrow. split.
  - intros Hactive.
    destruct (authenticate_active _ payload _ Hrow Hactive)
      as (ent & Hauth & Hent & _).
    cbn [role] in Hent. rewrite Hrole in Hent. cbn in Hent.
    unfold Routes.jwt_then_roles. rewrite Hauth.
    cbn. unfold RolesGuard.canActivate. cbn.
    destruct roles as [|r0 roles]; [done|]. cbn [length Nat.eqb].
    rewrite Hent. eexists. split; [done|]. apply includes_role.
  - intros Hoff.
    pose proof (validateJwtPayload_cases
                  (UsersService.repo_save db (AuthService.sub payload)
                     (UsersService.assign
                        (<["products" :=
                             Js.VArr (products_of db (AuthService.sub payload))]>
                           (select UsersService.public_columns (user_entity u)))
                        dto) now).2 payload) as Hc.
    rewrite Hrow in Hc. cbn [isActive] in Hc. rewrite Hoff in Hc.
    unfold Routes.jwt_then_roles, AuthService.authenticate,
      AuthService.JwtStrategy_validate.
    by rewrite Hc.
Qed.

Lemma object_of_cons (k : string) (v : option Js.Val)
    (fields : list (string * option Js.Val)) (j : string) :
  AuthService.object_of ((k, v) :: fields) !! j
  = match v with
    | Some x => if decide (k = j) then Some x else AuthService.object_of fields !! j
    | None => AuthService.object_of fields !! j
    end.
Proof.
  unfold AuthService.object_of. cbn. destruct v as [x|]; cbn; [|done].
  apply lookup_insert.
Qed.

(** One field of an object literal with distinct keys. *)
Lemma object_of_field (fields : list (string * option Js.Val)) (k : string)
    (v : option Js.Val) :
  NoDup fields.*1 -> In (k, v) fields -> AuthService.object_of fields !! k = v.
Proof.
  induction fields as [|[k0 v0] fields IH]; [done|].
  cbn [fmap list_fmap fst]. rewrite NoDup_cons. intros [Hk0 Hnd] [Heq|Hin].
  - injection Heq as -> ->. rewrite object_of_cons.
    destruct v as [x|]; [by rewrite decide_True|].
    destruct (AuthService.object_of fields !! k) eqn:Hl; [|done].
    exfalso. apply Hk0.
    assert (is_Some (AuthService.object_of fields !! k)) as Hs by (by eexists).
    unfold AuthService.object_of in Hs.
    apply elem_of_dom in Hs. rewrite dom_list_to_map_L in Hs.
    apply elem_of_list_to_set, list_elem_of_fmap in Hs as ([k1 x1] & -> & Hx).
    apply list_elem_of_omap in Hx as ([k2 [x2|]] & Hx & Heq); [|done].
    cbn in Heq. injection Heq as <- <-.
    apply list_elem_of_fmap. by exists (k2, Some x2).
  - rewrite object_of_cons.
    assert (k0 <> k) as Hne.
    { intros ->. apply Hk0. apply list_elem_of_fmap. exists (k, v).
      split; [done|]. by apply list_elem_of_In. }
    destruct v0; [rewrite decide_False by done|]; by apply IH.
Qed.

(** A key that the literal does not list is not in the object. *)
Lemma object_of_other (fields : list (string * option Js.Val)) (k : string) :
  k ∉ fields.*1 -> AuthService.object_of fields !! k = None.
Proof.
  intros Hk. unfold AuthService.object_of.
  apply not_elem_of_list_to_map_1. intros Hin. apply Hk.
  apply list_elem_of_fmap in Hin as ([k1 x1] & -> & Hx).
  apply list_elem_of_omap in Hx as ([k2 [x2|]] & Hx & Heq); [|done].
  cbn in Heq. injection Heq as <- <-.
  apply list_elem_of_fmap. by exists (k2, Some x2).
Qed.

(** X15. [login] copies five fields and nothing else: the user in the
    response has the id, email, first name, last name and role of the user
    passed in and no other field; the token is signed over its id (as
    [sub]), email and role and nothing else; so neither carries a
    password, also when the user passed in has one. *)
Theorem login_copies_five_fields (user : gmap string Js.Val) :
  (forall k, k ∈ ["id"; "email"; "firstName"; "lastName"; "role"] ->
             AuthService.login_user (AuthService.login user) !! k = user !! k)
  /\ (forall k, k ∉ ["id"; "email"; "firstName"; "lastName"; "role"] ->
                AuthService.login_user (AuthService.login user) !! k = None)
  /\ AuthService.accessToken (AuthService.login user)
     = AuthService.jwt_sign (AuthService.login_payload user)
  /\ AuthService.login_payload user !! "sub" = user !! "id"
  /\ AuthService.login_payload user !! "email" = user !! "email"
  /\ AuthService.login_payload user !! "role" = user !! "role"
  /\ (forall k, k ∉ ["sub"; "email"; "role"] ->
                AuthService.login_payload user !! k = None)
  /\ AuthService.login_user (AuthService.login user) !! "password" = None
  /\ AuthService.login_payload user !! "password" = None.
Proof.
  assert (NoDup ["id"; "email"; "firstName"; "lastName"; "role"]) as Hnd5
    by (apply (bool_decide_unpack _); vm_compute; exact I).
  assert (NoDup ["sub"; "email"; "role"]) as Hnd3
    by (apply (bool_decide_unpack _); vm_compute; exact I).
  unfold AuthService.login, AuthService.login_payload.
  cbn [AuthService.login_user AuthService.accessToken].
  split; [|split; [|split; [|split; [|split; [|split; [|split; [|split]]]]]]].
  - intros k Hk. apply object_of_field; [exact Hnd5|].
    apply list_elem_of_In in Hk. cbn in Hk |- *.
    intuition (subst; auto).
  - intros k Hk. by apply object_of_other.
  - done.
  - apply object_of_field; [exact Hnd3|]. cbn. auto.
  - apply object_of_field; [exact Hnd3|]. cbn. auto.
  - apply object_of_field; [exact Hnd3|]. cbn. auto.
  - intros k Hk. by apply object_of_other.
  - apply object_of_other. apply (bool_decide_unpack _). vm_compute. exact I.
  - apply object_of_other. apply (bool_decide_unpack _). vm_compute. exact I.
Qed.

(** X16. Registration answers with the new user and a token for it: when
    [register] succeeds, the user in the response has the next id of the
    table, the email and names of the DTO and the requested role (or
    "user") and no password, and the token is signed over that id, email
    and role; when the email is taken it throws the conflict exception and
    writes nothing. *)
Theorem register_answers_with_new_user (db : Database)
    (dto : UsersService.CreateUserDto) (now : Z) :
  (forall u, UsersService.repo_find_by_email db (UsersService.c_email dto) = Some u ->
     AuthService.register db dto now
     = (Js.Throw (Js.ConflictException "Email already exists"), db))
  /\ (UsersService.repo_find_by_email db (UsersService.c_email dto) = None ->
      exists response,
        (AuthService.register db dto now).1 = Js.Ok response
        /\ AuthService.login_user response
           = {[ "id" := Js.VNum (nextUserId db);
                "email" := Js.VStr (UsersService.c_email dto);
                "firstName" := Js.VStr (UsersService.c_firstName dto);
                "lastName" := Js.VStr (UsersService.c_lastName dto);
                "role" := Js.VStr (UserRole_value
                                     (default USER (UsersService.c_role dto))) ]}
        /\ AuthService.accessToken response
           = AuthService.jwt_sign
               {[ "sub" := Js.VNum (nextUserId db);
                  "email" := Js.VStr (UsersService.c_email dto);
                  "role" := Js.VStr (UserRole_value
                                       (default USER (UsersService.c_role dto))) ]}).
Proof.
  unfold AuthService.register, UsersService.create. split.
  - by intros u ->.
  - intros ->. cbn [fst]. eexists. split; [done|].
    unfold AuthService.login, AuthService.login_payload.
    cbn [AuthService.login_user AuthService.accessToken].
    destruct dto as [e p f l ph r]. cbn [UsersService.c_email UsersService.c_password
      UsersService.c_firstName UsersService.c_lastName UsersService.c_phone
      UsersService.c_role].
    split; [|f_equal]; vm_compute; reflexivity.
Qed.

End PasswordAndTokens.

Section UserServiceChecks.
Import Entities.

Lemma staff_unique_ids : UsersService.unique_ids Examples.staff.
Proof. apply (bool_decide_unpack _). vm_compute. exact I. Qed.

Lemma staff_unique_emails : UsersService.unique_emails Examples.staff.
Proof. apply (bool_decide_unpack _). vm_compute. exact I. Qed.

Lemma staff_ids_below_counter : UsersService.ids_below_counter Examples.staff.
Proof. apply (bool_decide_unpack _). vm_compute. exact I. Qed.

Lemma create_keeps_table_sound_witness :
  UsersService.unique_ids
    (@UsersService.create Examples.toy_bcrypt Examples.staff Examples.carol_dto 900).2
  /\ UsersService.unique_emails
       (@UsersService.create Examples.toy_bcrypt Examples.staff Examples.carol_dto 900).2.
Proof.
  destruct (@create_keeps_table_sound Examples.toy_bcrypt Examples.staff _
              Examples.carol_dto 900 _
              staff_unique_ids staff_unique_emails staff_ids_below_counter
              (surjective_pairing _)) as (Hids & Hemails & _).
  exact (conj Hids Hemails).
Defined.

Lemma created_user_can_log_in_witness :
  exists user,
    @AuthService.loginAttempt Examples.toy_bcrypt
      (@UsersService.create Examples.toy_bcrypt Examples.staff Examples.carol_dto 900).2
      (Some "carol@example.com") (Some "Passw0rdX") = Js.Ok user
    /\ user !! "id" = Some (Js.VNum 3).
Proof.
  assert (exists user,
            @UsersService.create Examples.toy_bcrypt Examples.staff
              Examples.carol_dto 900
            = (Js.Ok user,
               (@UsersService.create Examples.toy_bcrypt Examples.staff
                  Examples.carol_dto 900).2)) as [user Hcreate]
    by (eexists; reflexivity).
  exists user.
  destruct (@created_user_can_log_in Examples.toy_bcrypt Examples.staff _
              Examples.carol_dto 900 user Hcreate ltac:(reflexivity))
    as (_ & Hlogin & Hid & _).
  split; [|exact Hid]. apply Hlogin; discriminate.
Defined.

Lemma remove_only_clears_isActive_witness :
  (UsersService.remove Examples.staff 1 500).1 = Js.Ok tt
  /\ ((fun u => (isActive u, user_updatedAt u))
        <$> UsersService.repo_find_by_id
              (UsersService.remove Examples.staff 1 500).2 1) = Some (false, 500)
  /\ (UsersService.remove Examples.staff 2 500).2 = Examples.staff.
Proof.
  destruct (remove_only_clears_isActive Examples.staff 1 500 Examples.alice
              ltac:(reflexivity)) as (Hok & Hrow & _).
  destruct (remove_only_clears_isActive Examples.staff 2 500 Examples.bob
              ltac:(reflexivity)) as (_ & _ & Hsame & _).
  split; [exact Hok|]. split; [rewrite Hrow; reflexivity|].
  apply Hsame. reflexivity.
Defined.

Lemma removed_user_cannot_log_in_witness :
  @AuthService.loginAttempt Examples.toy_bcrypt
    (UsersService.remove Examples.staff 1 500).2
    (Some "alice@example.com") (Some "Secret123")
  = Js.Throw (Js.UnauthorizedException "Invalid email or password")
  /\ @AuthService.loginAttempt Examples.toy_bcrypt
       (UsersService.remove Examples.staff 1 500).2
       (Some "alice@example.com") (Some "")
     = Js.Throw (Js.UnauthorizedException "Invalid credentials").
Proof.
  destruct (@removed_user_cannot_log_in Examples.toy_bcrypt Examples.staff
              "alice@example.com" 500 Examples.alice
              staff_unique_ids ltac:(reflexivity)) as (_ & _ & Hlogin).
  split; [exact (Hlogin (Some "Secret123"))|exact (Hlogin (Some ""))].
Defined.

Lemma hardDelete_removes_the_row_witness :
  UsersService.hardDelete Examples.staff 7
  = (Js.Throw (Js.NotFoundException "User with ID 7 not found"), Examples.staff)
  /\ UsersService.repo_find_by_id (UsersService.hardDelete Examples.staff 2).2 2 = None.
Proof.
  split.
  - destruct (hardDelete_removes_the_row Examples.staff 7) as [Hnone _].
    apply Hnone. reflexivity.
  - destruct (hardDelete_removes_the_row Examples.staff 2) as [_ Hsome].
    destruct (Hsome Examples.bob ltac:(reflexivity)) as (_ & Hgone & _).
    exact Hgone.
Defined.

Lemma update_writes_only_dto_fields_witness :
  (fun u => (firstName u, lastName u, role u, password u, user_updatedAt u))
    <$> UsersService.repo_find_by_id
          (UsersService.update Examples.staff 1 Examples.demote_dto 700).2 1
  = Some ("Alicia", "Ng", USER, "h:Secret123", 700)
  /\ (UsersService.update Examples.staff 1 Examples.empty_dto 700).2 = Examples.staff.
Proof.
  assert (exists user,
            UsersService.update Examples.staff 1 Examples.demote_dto 700
            = (Js.Ok user,
               (UsersService.update Examples.staff 1 Examples.demote_dto 700).2))
    as [user Hupd] by (eexists; reflexivity).
  assert (exists user,
            UsersService.update Examples.staff 1 Examples.empty_dto 700
            = (Js.Ok user,
               (UsersService.update Examples.staff 1 Examples.empty_dto 700).2))
    as [user0 Hupd0] by (eexists; reflexivity).
  destruct (update_writes_only_dto_fields Examples.staff _ 1 700 Examples.demote_dto
              Examples.alice user ltac:(reflexivity) Hupd) as (Hrow & _).
  destruct (update_writes_only_dto_fields Examples.staff _ 1 700 Examples.empty_dto
              Examples.alice user0 ltac:(reflexivity) Hupd0) as (_ & Hsame & _).
  split.
  - rewrite Hrow; [reflexivity|discriminate].
  - apply Hsame. reflexivity.
Defined.

Lemma updatePassword_rules_witness :
  @UsersService.updatePassword Examples.toy_bcrypt Examples.staff 1
     "Wrong1234" "NewSecret1" 800
  = (Js.Throw (Js.BadRequestException "Current password is incorrect"), Examples.staff)
  /\ (password <$> UsersService.repo_find_by_id
                     (@UsersService.updatePassword Examples.toy_bcrypt Examples.staff 1
                        "Secret123" "NewSecret1" 800).2 1)
     = Some "h:NewSecret1".
Proof.
  destruct (@updatePassword_rules Examples.toy_bcrypt Examples.staff 1 800
              "Wrong1234" "NewSecret1") as (_ & Hwrong & _).
  destruct (@updatePassword_rules Examples.toy_bcrypt Examples.staff 1 800
              "Secret123" "NewSecret1") as (_ & _ & Hright).
  split.
  - apply (Hwrong Examples.alice); reflexivity.
  - destruct (Hright Examples.alice ltac:(reflexivity) ltac:(reflexivity))
      as (_ & Hrow & _).
    rewrite Hrow. reflexivity.
Defined.

Lemma new_password_logs_in_witness :
  exists user,
    @AuthService.loginAttempt Examples.toy_bcrypt
      (@UsersService.updatePassword Examples.toy_bcrypt Examples.staff 1
         "Secret123" "NewSecret1" 800).2
      (Some "alice@example.com") (Some "NewSecret1") = Js.Ok user
    /\ user !! "id" = Some (Js.VNum 1)
    /\ user !! "password" = None.
Proof.
  destruct (@new_password_logs_in Examples.toy_bcrypt Examples.staff
              "alice@example.com" 800 "Secret123" "NewSecret1" Examples.alice
              staff_unique_ids ltac:(reflexivity) ltac:(reflexivity)
              ltac:(reflexivity) ltac:(reflexivity))
    as (_ & (user & _ & Hlogin & Hid & Hpw) & _).
  exists user. split; [apply Hlogin; discriminate|]. exact (conj Hid Hpw).
Defined.

Lemma guards_use_stored_role_witness :
  exists pass,
    Routes.jwt_then_roles Examples.staff
      {| AuthService.sub := 1; AuthService.jwt_email := "x@example.com";
         AuthService.jwt_role := "user" |} Routes.UsersController_remove
    = Js.Ok pass
    /\ (pass = true <-> In ADMIN [ADMIN]).
Proof.
  destruct (guards_use_stored_role Examples.staff
              {| AuthService.sub := 1; AuthService.jwt_email := "x@example.com";
                 AuthService.jwt_role := "user" |} [ADMIN] Examples.alice
              ltac:(reflexivity) ltac:(discriminate)) as [Hactive _].
  apply Hactive. reflexivity.
Defined.

Lemma role_change_applies_at_once_witness :
  exists pass,
    Routes.jwt_then_roles
      (UsersService.update Examples.staff 1 Examples.demote_dto 700).2
      (Examples.token_of 1) Routes.UsersController_findAll
    = Js.Ok pass
    /\ (pass = true <-> In USER [ADMIN; MODERATOR]).
Proof.
  assert (exists user,
            UsersService.update Examples.staff 1 Examples.demote_dto 700
            = (Js.Ok user,
               (UsersService.update Examples.staff 1 Examples.demote_dto 700).2))
    as [user Hupd] by (eexists; reflexivity).
  destruct (role_change_applies_at_once Examples.staff _ 1 700 Examples.demote_dto
              Examples.alice user (Examples.token_of 1) [ADMIN; MODERATOR] USER
              ltac:(reflexivity) Hupd ltac:(reflexivity) ltac:(reflexivity)
              ltac:(discriminate)) as [Hactive _].
  apply Hactive. reflexivity.
Defined.

Lemma login_copies_five_fields_witness :
  AuthService.login_user
    (@AuthService.login Examples.toy_jwt (user_entity Examples.alice)) !! "email"
  = user_entity Examples.alice !! "email".
Proof.
  destruct (@login_copies_five_fields Examples.toy_jwt (user_entity Examples.alice))
    as (Hcopy & _).
  apply Hcopy. apply (bool_decide_unpack _). vm_compute. exact I.
Defined.

Lemma register_answers_with_new_user_witness :
  exists response,
    (@AuthService.register Examples.toy_bcrypt Examples.toy_jwt Examples.staff
       Examples.carol_dto 900).1 = Js.Ok response
    /\ AuthService.login_user response !! "id" = Some (Js.VNum 3).
Proof.
  destruct (@register_answers_with_new_user Examples.toy_bcrypt Examples.toy_jwt
              Examples.staff Examples.carol_dto 900) as [_ Hnew].
  destruct (Hnew ltac:(reflexivity)) as (response & Hok & Huser & _).
  exists response. split; [exact Hok|]. rewrite Huser. reflexivity.
Defined.

End UserServiceChecks.

(* ===================================================================== *)
(** ** Further properties of the product service *)
(* ===================================================================== *)

Section ProductQueriesMore.
Import Entities ProductsService.
Context `{SqlEngine}.

Lemma In_firstn {A} (x : A) (n : nat) (l : list A) : In x (firstn n l) -> In x l.
Proof.
  revert l. induction n as [|n IH]; intros [|y l]; cbn; try tauto.
  intros [->|Hin]; [by left|]. right. by apply IH.
Qed.

Lemma In_drop {A} (x : A) (n : nat) (l : list A) : In x (drop n l) -> In x l.
Proof.
  revert l. induction n as [|n IH]; intros [|y l]; cbn; try tauto.
  intros Hin. right. by apply IH.
Qed.

(** The first [n] pages of [l] items, one after the other, are the first
    [n * l] items. *)
Lemma pages_concat {A} (s : list A) (limit : Z) (n : nat) :
  1 <= limit ->
  concat ((fun k => firstn (Z.to_nat limit)
                      (drop (Z.to_nat ((Z.of_nat k - 1) * limit)) s)) <$> seq 1 n)
  = firstn (n * Z.to_nat limit) s.
Proof.
  intros Hl. induction n as [|n IH]; [done|].
  rewrite seq_S, fmap_app, concat_app, IH. cbn [fmap list_fmap concat].
  rewrite app_nil_r.
  replace (Z.to_nat ((Z.of_nat (1 + n) - 1) * limit))
    with (n * Z.to_nat limit)%nat by (rewrite Z2Nat.inj_mul; lia).
  rewrite take_take_drop. f_equal. lia.
Qed.

Lemma sorted_length (query : QueryProductDto) (rows : list Product) :
  length (merge_sort (ordered (order (filtered_query query)))
            (matching (filtered_query query) rows))
  = length (matching (filtered_query query) rows).
Proof. apply Permutation_length, merge_sort_Permutation. Qed.

Lemma string_compare_trans (s1 s2 s3 : string) :
  String.compare s1 s2 <> Gt -> String.compare s2 s3 <> Gt ->
  String.compare s1 s3 <> Gt.
Proof.
  revert s2 s3. induction s1 as [|a s1 IH]; intros [|b s2] [|c s3]; cbn; try done.
  unfold Ascii.compare.
  set (na := N_of_ascii a). set (nb := N_of_ascii b). set (nc := N_of_ascii c).
  destruct (N.compare_spec na nb), (N.compare_spec nb nc), (N.compare_spec na nc);
    try done; try lia.
  apply IH.
Qed.

Lemma string_leb_trans (s1 s2 s3 : string) :
  String.leb s1 s2 = true -> String.leb s2 s3 = true -> String.leb s1 s3 = true.
Proof.
  unfold String.leb. intros H12 H23.
  pose proof (string_compare_trans s1 s2 s3) as Ht.
  destruct (String.compare s1 s2), (String.compare s2 s3),
    (String.compare s1 s3); try done; exfalso; by apply Ht.
Qed.

Lemma column_le_trans (column : string) (p1 p2 p3 : Product) :
  column_le column p1 p2 = true -> column_le column p2 p3 = true ->
  column_le column p1 p3 = true.
Proof.
  unfold column_le.
  repeat match goal with
         | |- context [String.eqb ?a ?b] => destruct (String.eqb a b)
         end; try done.
  - apply string_leb_trans.
  - rewrite !Qle_bool_iff. apply Qle_trans.
  - lia.
  - lia.
  - lia.
Qed.

Lemma ordered_trans (o : option (string * string)) : Transitive (ordered o).
Proof.
  intros p1 p2 p3. unfold ordered. destruct o as [[column direction]|]; [|done].
  destruct (String.eqb direction "ASC").
  - apply column_le_trans.
  - intros H12 H23. by apply (column_le_trans column p3 p2 p1).
Qed.

(** X17. The pages of a query cut its result without loss or repetition
    when no two products of the result share the sort key: for a limit of
    at least 1 the order clause then leaves the engine no choice, every
    ordering of the filtered products that respects it being the same
    list, and the data of pages 1 to [totalPages], one after the other,
    are exactly that list. *)
Theorem pages_partition_the_result (db : Database) (query : QueryProductDto) :
  1 <= default 10 (q_limit query) ->
  (forall p1 p2,
      In p1 (matching (filtered_query query) (products db)) ->
      In p2 (matching (filtered_query query) (products db)) ->
      ordered (order (filtered_query query)) p1 p2 ->
      ordered (order (filtered_query query)) p2 p1 -> p1 = p2) ->
  (forall answer,
      Permutation answer (matching (filtered_query query) (products db)) ->
      Sorted (ordered (order (filtered_query query))) answer ->
      answer = merge_sort (ordered (order (filtered_query query)))
                 (matching (filtered_query query) (products db)))
  /\ concat ((fun k => data (findAll db (with_paging query (Some (Z.of_nat k))
                                           (q_limit query))))
               <$> seq 1 (Z.to_nat (totalPages (meta (findAll db query)))))
     = merge_sort (ordered (order (filtered_query query)))
         (matching (filtered_query query) (products db)).
Proof.
  intros Hl Hties. split.
  - intros answer Hperm Hsorted.
    apply (@Sorted_unique_strong _ _ (ordered_trans (order (filtered_query query)))).
    + intros x1 x2 Hx1 Hx2. apply Hties.
      * apply list_elem_of_In. by rewrite <- Hperm.
      * apply list_elem_of_In. by rewrite merge_sort_Permutation in Hx2.
    + exact Hsorted.
    + apply Sorted_merge_sort.
      unfold filtered_query. destruct (order _) as [[column direction]|] eqn:Ho.
      * apply ordered_total.
      * intros x y. by left.
    + by rewrite merge_sort_Permutation.
  - set (limit := default 10 (q_limit query)) in *.
    set (sorted := merge_sort _ _).
    assert (forall k, data (findAll db (with_paging query (Some (Z.of_nat k))
                                          (q_limit query)))
                      = firstn (Z.to_nat limit)
                          (drop (Z.to_nat ((Z.of_nat k - 1) * limit)) sorted)) as Hpage
      by done.
    erewrite list_fmap_ext; [|intros i k _; apply Hpage].
    rewrite pages_concat by done.
    apply take_ge.
    assert (totalPages (meta (findAll db query))
            = Js.ceil_div (Z.of_nat (length sorted)) limit) as ->.
    { subst sorted. rewrite sorted_length. done. }
    pose proof (ceil_div_bounds (Z.of_nat (length sorted)) limit ltac:(lia)).
    nia.
Qed.

(** X18. [hasNextPage] tells the truth: for a page and a limit of at
    least 1, it is true exactly when the next page of the same query has
    data. *)
Theorem hasNextPage_iff_next_page_has_data (db : Database) (query : QueryProductDto) :
  1 <= default 1 (q_page query) ->
  1 <= default 10 (q_limit query) ->
  hasNextPage (meta (findAll db query)) = true
  <-> data (findAll db (with_paging query (Some (default 1 (q_page query) + 1))
                          (q_limit query))) <> [].
Proof.
  intros Hp Hl.
  set (page := default 1 (q_page query)) in *.
  set (limit := default 10 (q_limit query)) in *.
  set (sorted := merge_sort (ordered (order (filtered_query query)))
                   (matching (filtered_query query) (products db))).
  assert (data (findAll db (with_paging query (Some (page + 1)) (q_limit query)))
          = firstn (Z.to_nat limit)
              (drop (Z.to_nat ((page + 1 - 1) * limit)) sorted)) as -> by done.
  assert (hasNextPage (meta (findAll db query))
          = (page <? Js.ceil_div (Z.of_nat (length sorted)) limit)) as ->.
  { subst sorted. rewrite sorted_length. done. }
  pose proof (ceil_div_bounds (Z.of_nat (length sorted)) limit ltac:(lia)) as Hc.
  rewrite Z.ltb_lt.
  assert (firstn (Z.to_nat limit) (drop (Z.to_nat ((page + 1 - 1) * limit)) sorted)
          <> []
          <-> (0 < length (firstn (Z.to_nat limit)
                             (drop (Z.to_nat ((page + 1 - 1) * limit)) sorted)))%nat)
    as ->.
  { destruct (firstn _ _); cbn; split; intros; try done; lia. }
  rewrite length_take, length_drop.
  split; intros Hlt; nia.
Qed.

(** What every row that matches the builder of a query satisfies. *)
Lemma matching_filters (query : QueryProductDto) (rows : list Product) (p : Product) :
  In p (matching (filtered_query query) rows) ->
  In p rows
  /\ (forall c, q_category query = Some c -> category p = c)
  /\ (forall s, q_status query = Some s -> status p = s)
  /\ (forall lo, minPrice query = Some lo -> (lo <= price p)%Q)
  /\ (forall hi, maxPrice query = Some hi -> (price p <= hi)%Q)
  /\ (forall b, featured query = Some b -> isFeatured p = b)
  /\ (inStock query = Some true -> isInStock p = true).
Proof.
  unfold matching. rewrite filter_In. intros [Hin Hall]. split; [done|].
  unfold filtered_query in Hall.
  destruct (Js.str_truthy (search query)),
    (q_category query) as [c0|], (q_status query) as [s0|],
    (minPrice query) as [lo0|], (maxPrice query) as [hi0|],
    (featured query) as [b0|], (inStock query) as [[|]|];
    cbn in Hall;
    repeat match type of Hall with
           | _ && _ = true => apply andb_true_iff in Hall as [Hall ?]
           end;
    repeat match goal with
           | Hb : bool_decide _ = true |- _ => apply bool_decide_eq_true_1 in Hb
           | Hb : Qle_bool _ _ = true |- _ => apply Qle_bool_iff in Hb
           | Hb : Bool.eqb _ _ = true |- _ => apply Bool.eqb_prop in Hb
           | Hb : _ && _ = true |- _ => apply andb_true_iff in Hb as [? ?]
           end;
    (split; [intros ? [= <-]|]); try done;
    (split; [intros ? [= <-]|]); try done;
    (split; [intros ? [= <-]|]); try done;
    (split; [intros ? [= <-]|]); try done;
    (split; [intros ? [= <-]|]); try done;
    try (intros _; unfold isInStock; apply andb_true_iff; split;
         [done|by apply bool_decide_eq_true_2]);
    try done.
Qed.

(** X19. [findAll] returns nothing the filters exclude: every product in
    the data is a stored product, is in the requested category and status,
    has a price within the requested bounds and the requested featured
    flag, and with [inStock] set is in stock in the sense of the entity
    ([stock > 0] and active). *)
Theorem findAll_respects_filters (db : Database) (query : QueryProductDto)
    (p : Product) :
  In p (data (findAll db query)) ->
  In p (products db)
  /\ (forall c, q_category query = Some c -> category p = c)
  /\ (forall s, q_status query = Some s -> status p = s)
  /\ (forall lo, minPrice query = Some lo -> (lo <= price p)%Q)
  /\ (forall hi, maxPrice query = Some hi -> (price p <= hi)%Q)
  /\ (forall b, featured query = Some b -> isFeatured p = b)
  /\ (inStock query = Some true -> isInStock p = true).
Proof.
  intros Hin. apply matching_filters.
  assert (In p (merge_sort (ordered (order (filtered_query query)))
                  (matching (filtered_query query) (products db)))) as Hs.
  { unfold findAll, getMany in Hin. cbn in Hin.
    by apply In_firstn, In_drop in Hin. }
  apply list_elem_of_In. apply list_elem_of_In in Hs.
  by rewrite merge_sort_Permutation in Hs.
Qed.

End ProductQueriesMore.

Section ProductWritesMore.
Import Entities ProductsService.

Lemma findOne_sound (db : Database) (i : Z) (product : Product) :
  findOne db i = Js.Ok product -> In product (products db) /\ id product = i.
Proof.
  unfold findOne. destruct (List.find _ _) as [p|] eqn:Hf; [|done].
  intros [= <-]. apply find_some in Hf as [Hin Hid]. split; [done|lia].
Qed.

(** [save] leaves the products with another id where they are. *)
Lemma findOne_save_other (db : Database) (product : Product) (now j : Z) :
  j <> id product ->
  findOne (save db product now).2 j = findOne db j.
Proof.
  intros Hj. destruct (save_cases db product now) as [[_ ->]|[_ ->]]; [done|].
  unfold findOne. cbn [snd products].
  rewrite find_fmap_preserving.
  - destruct (List.find _ (products db)) as [x|] eqn:Hx; [|done]. cbn.
    apply find_some in Hx as [_ Hid].
    destruct (Z.eqb_spec (id x) (id product)); [lia|done].
  - intros x _. destruct (Z.eqb_spec (id x) (id product)) as [Heq|]; [|done].
    cbn. by rewrite Heq.
Qed.

(** [save] neither adds nor drops a product, and leaves the users alone. *)
Lemma save_frame (db : Database) (product : Product) (now : Z) :
  length (products (save db product now).2) = length (products db)
  /\ users (save db product now).2 = users db.
Proof.
  destruct (save_cases db product now) as [[_ ->]|[_ ->]]; [done|].
  cbn. by rewrite length_fmap.
Qed.


(** A stock change that stays at or above zero is saved. *)
Lemma updateStock_ok (db : Database) (i quantity now : Z) (product : Product) :
  findOne db i = Js.Ok product ->
  0 <= stock product + quantity ->
  updateStock db i quantity now
  = (Js.Ok (save db (with_stock product (stock product + quantity)) now).1,
     (save db (with_stock product (stock product + quantity)) now).2).
Proof.
  intros Hfind Hsign. unfold updateStock. rewrite Hfind.
  destruct (Z.ltb_spec (stock product + quantity) 0); [lia|].
  assert ((if (stock product + quantity =? 0)
              && bool_decide (status (with_stock product (stock product + quantity))
                              = ACTIVE)
           then with_stock product (stock product + quantity)
           else with_stock product (stock product + quantity))
          = with_stock product (stock product + quantity)) as ->
    by (by destruct (_ && _)).
  by destruct (save db _ now).
Qed.

(** X20. Stock changes add up: two accepted changes in a row leave the
    product with its first stock plus both quantities, in the response and
    in the table; so taking back what was added restores the stock. *)
Theorem stock_changes_add_up (db : Database) (i q1 q2 t1 t2 : Z) (product : Product) :
  findOne db i = Js.Ok product ->
  0 <= stock product + q1 ->
  0 <= stock product + q1 + q2 ->
  exists saved,
    (updateStock (updateStock db i q1 t1).2 i q2 t2).1 = Js.Ok saved
    /\ stock saved = stock product + q1 + q2
    /\ findOne (updateStock (updateStock db i q1 t1).2 i q2 t2).2 i = Js.Ok saved
    /\ (q2 = - q1 -> stock saved = stock product).
Proof.
  intros Hfind H1 H2.
  pose proof (findOne_id db i product Hfind) as Hid.
  rewrite (updateStock_ok db i q1 t1 product Hfind H1). cbn [snd].
  set (p1 := with_stock product (stock product + q1)).
  pose proof (findOne_after_save db i product p1 t1 Hfind Hid) as Hfind1.
  assert (stock (save db p1 t1).1 = stock product + q1) as Hstock1
    by (by destruct (save_returns db p1 t1) as [-> | ->]).
  set (s1 := (save db p1 t1).1) in *. set (db1 := (save db p1 t1).2) in *.
  rewrite (updateStock_ok db1 i q2 t2 s1 Hfind1) by lia. cbn [fst snd].
  set (p2 := with_stock s1 (stock s1 + q2)).
  assert (stock (save db1 p2 t2).1 = stock product + q1 + q2) as Hstock2.
  { destruct (save_returns db1 p2 t2) as [-> | ->]; cbn; lia. }
  eexists. split; [done|]. split; [done|]. split.
  - apply (findOne_after_save db1 i s1 p2 t2 Hfind1).
    apply (findOne_id db1 i s1 Hfind1).
  - intros ->. lia.
Qed.

(** X21. A stock change touches one product: whatever its outcome,
    [updateStock] leaves every product with another id as it was, neither
    adds nor drops a product, and leaves the users alone. *)
Theorem updateStock_touches_one_product (db : Database) (i quantity now : Z) :
  (forall j, j <> i ->
     findOne (updateStock db i quantity now).2 j = findOne db j)
  /\ length (products (updateStock db i quantity now).2) = length (products db)
  /\ users (updateStock db i quantity now).2 = users db.
Proof.
  destruct (findOne db i) as [product|e] eqn:Hfind;
    [|unfold updateStock; by rewrite Hfind].
  destruct (Z.ltb_spec (stock product + quantity) 0) as [Hneg|Hpos].
  { unfold updateStock. rewrite Hfind.
    by destruct (Z.ltb_spec (stock product + quantity) 0); [|lia]. }
  rewrite (updateStock_ok db i quantity now product Hfind Hpos). cbn [snd].
  pose proof (findOne_id db i product Hfind) as Hid.
  split; [|apply save_frame].
  intros j Hj. apply findOne_save_other. cbn. lia.
Qed.


(** X23. The discounted price stays between nothing and the price: a
    product without discount, or with a discount that is not positive,
    costs its price; with a discount of at most 100 percent and a price
    that is not negative, the discounted price lies between 0 and the
    price, and a discount of 100 percent makes it 0. *)
Theorem discountedPrice_bounds (p : Product) :
  (discountPercent p = None -> discountedPrice p = price p)
  /\ (forall d, discountPercent p = Some d -> (d <= 0)%Q ->
                discountedPrice p = price p)
  /\ (forall d, discountPercent p = Some d -> (0 <= d)%Q -> (d <= 100)%Q ->
                (0 <= price p)%Q ->
                (0 <= discountedPrice p)%Q /\ (discountedPrice p <= price p)%Q)
  /\ (forall d, discountPercent p = Some d -> (d == 100)%Q ->
                (discountedPrice p == 0)%Q).
Proof.
  unfold discountedPrice. split; [|split; [|split]].
  - by intros ->.
  - intros d -> Hd. apply Qle_bool_iff in Hd. by rewrite Hd.
  - intros d -> Hlo Hhi Hp. set (x := price p) in *. clearbody x.
    unfold Qdiv. change (/ 100)%Q with (1 # 100)%Q.
    destruct (Qle_bool d 0); split; nra.
  - intros d -> Hd. destruct (Qle_bool d 0) eqn:Hz.
    + apply Qle_bool_iff in Hz. rewrite Hd in Hz. lra.
    + rewrite Hd. field.
Qed.

End ProductWritesMore.

Section ProductCatalogMore.
Import Entities ProductsService.

Lemma sku_not_stored (db : Database) (s : string) :
  repo_find_by_sku db s = None -> s ∉ omap sku (products db).
Proof.
  unfold repo_find_by_sku. intros Hnone Hin.
  apply list_elem_of_omap in Hin as (x & Hx & Hs).
  apply list_elem_of_In in Hx.
  eapply find_none in Hnone; [|exact Hx]. cbn in Hnone.
  by rewrite bool_decide_eq_true_2 in Hnone.
Qed.

(** X24. Creating a product keeps the SKUs unique: if no SKU is held by
    two products, the same holds after [create] of a product whose SKU is
    absent or not empty; a SKU that some product already has is refused
    with the conflict exception, and a call that throws writes nothing. *)
Theorem product_create_keeps_skus_unique (db db' : Database)
    (dto : CreateProductDto) (user : gmap string Js.Val) (generatedId now : Z)
    (r : Js.Result Product) :
  unique_skus db ->
  cp_sku dto <> Some "" ->
  create db dto user generatedId now = (r, db') ->
  unique_skus db'
  /\ ((exists e, r = Js.Throw e) -> db' = db)
  /\ (forall s other, cp_sku dto = Some s -> repo_find_by_sku db s = Some other ->
        r = Js.Throw (Js.ConflictException "Product with this SKU already exists")).
Proof.
  intros Hskus Hne. unfold create.
  destruct (cp_sku dto) as [s|] eqn:Hsku; cbn [Js.str_truthy default from_option Datatypes.id].
  - destruct (String.eqb_spec s ""); [congruence|]. cbn [negb andb].
    destruct (repo_find_by_sku db s) as [other|] eqn:Hfind; cbn [Js.is_nullish negb].
    + intros [<- <-]%pair_equal_spec. split; [done|]. split; [done|].
      by intros s0 other0 [= <-] _.
    + intros [<- <-]%pair_equal_spec. split; [|split].
      * unfold unique_skus in *. cbn [products]. rewrite omap_app. cbn.
        apply NoDup_app. split; [done|]. split; [|apply NoDup_singleton].
        intros x Hx Hnew. apply list_elem_of_singleton in Hnew. subst x.
        by apply (sku_not_stored db s).
      * intros [e He]. discriminate He.
      * intros s0 other0 [= <-] Hother. congruence.
  - cbn [andb]. intros [<- <-]%pair_equal_spec. split; [|split].
    + unfold unique_skus in *. cbn [products]. rewrite omap_app. cbn.
      by rewrite app_nil_r.
    + intros [e He]. discriminate He.
    + intros s0 other0 Hs. discriminate Hs.
Qed.

(** X25. A created product can be read back: when [create] succeeds
    with an id that no product has yet, [findOne] of that id returns the
    product; it has the name and price of the DTO, stock 0, category
    "other", status "draft" and no featured flag unless the DTO says
    otherwise, and the id of the creating user; the other products are
    found as before. *)
Theorem created_product_is_stored (db db' : Database) (dto : CreateProductDto)
    (user : gmap string Js.Val) (generatedId now uid : Z) (product : Product) :
  create db dto user generatedId now = (Js.Ok product, db') ->
  (forall p, In p (products db) -> id p <> generatedId) ->
  user !! "id" = Some (Js.VNum uid) ->
  findOne db' generatedId = Js.Ok product
  /\ name product = cp_name dto
  /\ price product = cp_price dto
  /\ stock product = default 0 (cp_stock dto)
  /\ category product = default OTHER (cp_category dto)
  /\ status product = default DRAFT (cp_status dto)
  /\ isFeatured product = default false (cp_isFeatured dto)
  /\ createdById product = Some uid
  /\ (forall j, j <> generatedId -> findOne db' j = findOne db j).
Proof.
  unfold create. destruct (_ && _).
  - intros [Hr _]%pair_equal_spec. discriminate Hr.
  - intros [Hr <-]%pair_equal_spec Hfresh Huser. injection Hr as <-.
    rewrite Huser. cbn [id name price stock category status isFeatured createdById].
    assert (List.find (fun p => id p =? generatedId) (products db) = None) as Hnone.
    { apply find_none_iff. intros p Hp. apply Hfresh in Hp.
      destruct (Z.eqb_spec (id p) generatedId); done. }
    split; [|repeat split].
    + unfold findOne. cbn [products]. rewrite find_app_none by done.
      cbn. by rewrite Z.eqb_refl.
    + intros j Hj. unfold findOne. cbn [products].
      destruct (List.find (fun p => id p =? j) (products db)) as [x|] eqn:Hx.
      * erewrite find_app_some; [done|exact Hx].
      * rewrite find_app_none by done. cbn.
        destruct (Z.eqb_spec generatedId j); [lia|done].
Qed.


Lemma filter_other_product_ids (l : list Product) (i j : Z) :
  j <> i ->
  List.find (fun p => id p =? j) (filter (fun p => id p <> i) l)
  = List.find (fun p => id p =? j) l.
Proof.
  intros Hne. induction l as [|x l IH]; [done|].
  destruct (decide (id x = i)) as [Hx|Hx].
  - rewrite filter_cons_False by tauto. cbn.
    destruct (Z.eqb_spec (id x) j); [lia|done].
  - rewrite filter_cons_True by done. cbn. by rewrite IH.
Qed.

(** X27. Deleting a product: for an id that no product has, [remove]
    throws not-found and changes nothing; otherwise it succeeds, [findOne]
    of the id throws not-found afterwards, and every other product is
    found as before. *)
Theorem product_remove_deletes (db : Database) (i : Z) :
  (List.find (fun p => id p =? i) (products db) = None ->
   remove db i
   = (Js.Throw (Js.NotFoundException
                  ("Product with ID " +:+ Js.string_of_Z i +:+ " not found")), db))
  /\ (forall product, findOne db i = Js.Ok product ->
        (remove db i).1 = Js.Ok tt
        /\ findOne (remove db i).2 i
           = Js.Throw (Js.NotFoundException
                         ("Product with ID " +:+ Js.string_of_Z i +:+ " not found"))
        /\ (forall j, j <> i -> findOne (remove db i).2 j = findOne db j)
        /\ users (remove db i).2 = users db).
Proof.
  unfold remove. split.
  - intros Hnone.
    assert (filter (fun p => id p <> i) (products db) = products db) as ->.
    { induction (products db) as [|x l IH]; [done|]. cbn in Hnone.
      destruct (Z.eqb_spec (id x) i); [done|].
      rewrite filter_cons_True by done. by rewrite IH. }
    by rewrite Nat.sub_diag.
  - intros product Hfind. destruct (findOne_sound db i product Hfind) as [Hin Hid].
    assert (length (filter (fun p => id p <> i) (products db))
            < length (products db))%nat as Hlt.
    { apply (length_filter_lt _ _ product); [by apply list_elem_of_In|]. tauto. }
    destruct (Nat.eqb_spec
                (length (products db)
                 - length (filter (fun p => id p <> i) (products db))) 0); [lia|].
    cbn [fst snd]. split; [done|]. split; [|split; [|done]].
    + unfold findOne. cbn [products].
      assert (List.find (fun p => id p =? i)
                (filter (fun p => id p <> i) (products db)) = None) as ->; [|done].
      apply find_none_iff. intros x Hx.
      apply list_elem_of_In, list_elem_of_filter in Hx as [Hx _].
      destruct (Z.eqb_spec (id x) i); done.
    + intros j Hj. unfold findOne. cbn [products].
      by rewrite filter_other_product_ids.
Qed.

End ProductCatalogMore.

Section ProductListingsMore.
Import Entities ProductsService.

(** What [find] with a [where] and an [order] returns: the rows that pass
    the filter, each as often as it is stored. *)
Lemma listing_In (f : Product -> bool) (o : option (string * string))
    (rows : list Product) (p : Product) :
  In p (merge_sort (ordered o) (List.filter f rows)) <-> In p rows /\ f p = true.
Proof.
  rewrite <- filter_In, <- !list_elem_of_In. by rewrite merge_sort_Permutation.
Qed.

Lemma listing_Sorted (column direction : string) (rows : list Product) :
  Sorted (ordered (Some (column, direction)))
    (merge_sort (ordered (Some (column, direction))) rows).
Proof. apply Sorted_merge_sort, ordered_total. Qed.

(** X28. The two unlimited listings are exact and ordered:
    [getByCategory] lists the stored products of the category that are
    active, and nothing else, by ascending name; [getLowStockProducts]
    lists the active products with a stock from 1 to the threshold (10 when
    none is given), and nothing else, by ascending stock. Every product of
    the low-stock list is in stock in the sense of the entity, and a larger
    threshold never loses a product of the list. *)
Theorem active_listings_exact (db : Database) :
  (forall c p, In p (getByCategory db c)
               <-> In p (products db) /\ category p = c /\ status p = ACTIVE)
  /\ (forall c, Sorted (fun p1 p2 => String.leb (name p1) (name p2) = true)
                  (getByCategory db c))
  /\ (forall t p, In p (getLowStockProducts db t)
                  <-> In p (products db)
                      /\ 0 < stock p <= default 10 t /\ status p = ACTIVE)
  /\ (forall t, Sorted (fun p1 p2 => stock p1 <= stock p2)
                  (getLowStockProducts db t))
  /\ (forall t p, In p (getLowStockProducts db t) -> isInStock p = true)
  /\ (forall t1 t2 p, t1 <= t2 ->
        In p (getLowStockProducts db (Some t1)) ->
        In p (getLowStockProducts db (Some t2))).
Proof.
  assert (forall t p, In p (getLowStockProducts db t)
                      <-> In p (products db)
                          /\ 0 < stock p <= default 10 t /\ status p = ACTIVE) as Hlow.
  { intros t p. unfold getLowStockProducts. rewrite listing_In.
    rewrite !andb_true_iff, Z.leb_le, Z.ltb_lt, bool_decide_eq_true. tauto. }
  split; [|split; [|split; [|split; [|split]]]].
  - intros c p. unfold getByCategory. rewrite listing_In.
    by rewrite andb_true_iff, !bool_decide_eq_true.
  - intros c. unfold getByCategory.
    eapply Sorted_weaken; [|apply listing_Sorted]. by intros x y Hxy.
  - exact Hlow.
  - intros t. unfold getLowStockProducts.
    eapply Sorted_weaken; [|apply listing_Sorted].
    intros x y Hxy. cbn in Hxy. lia.
  - intros t p (_ & Hstock & Hactive)%Hlow. unfold isInStock.
    apply andb_true_iff. split; [lia|by apply bool_decide_eq_true_2].
  - intros t1 t2 p Hle (Hin & Hstock & Hactive)%Hlow. apply Hlow. cbn in *.
    repeat split; try done; lia.
Qed.

(** X29. The featured list holds the newest featured products: for a
    limit of at least 1 (10 when none is given), [getFeaturedProducts]
    returns at most that many products, all of them stored, featured and
    active, the newest first; a featured active product that is left out
    was created no later than any product of the list, and when no more
    than the limit qualify none is left out. *)
Theorem featured_are_the_newest (db : Database) (limit : option Z) :
  1 <= default 10 limit ->
  Z.of_nat (length (getFeaturedProducts db limit)) <= default 10 limit
  /\ (forall p, In p (getFeaturedProducts db limit) ->
        In p (products db) /\ isFeatured p = true /\ status p = ACTIVE)
  /\ Sorted (fun p1 p2 => createdAt p2 <= createdAt p1)
       (getFeaturedProducts db limit)
  /\ (forall p q, In p (getFeaturedProducts db limit) ->
        In q (products db) -> isFeatured q = true -> status q = ACTIVE ->
        ~ In q (getFeaturedProducts db limit) ->
        createdAt q <= createdAt p)
  /\ (count_where (fun p => isFeatured p && bool_decide (status p = ACTIVE))
        (products db) <= default 10 limit ->
      forall q, In q (products db) -> isFeatured q = true -> status q = ACTIVE ->
                In q (getFeaturedProducts db limit)).
Proof.
  intros Hl. unfold getFeaturedProducts, count_where.
  set (n := Z.to_nat (default 10 limit)).
  set (f := fun p : Product => isFeatured p && bool_decide (status p = ACTIVE)).
  set (sorted := merge_sort (ordered (Some ("createdAt", "DESC")))
                   (List.filter f (products db))).
  assert (forall q, In q sorted
                    <-> In q (products db) /\ isFeatured q = true /\ status q = ACTIVE)
    as Hin.
  { intros q. subst sorted f. rewrite listing_In.
    by rewrite andb_true_iff, bool_decide_eq_true. }
  assert (Sorted (fun p1 p2 => createdAt p2 <= createdAt p1) sorted) as Hsorted.
  { eapply Sorted_weaken; [|apply listing_Sorted].
    intros x y Hxy. cbn in Hxy. lia. }
  split; [|split; [|split; [|split]]].
  - rewrite length_take. lia.
  - intros p Hp. by apply In_firstn, Hin in Hp.
  - by apply Sorted_firstn.
  - intros p q Hp Hq Hfeatured Hactive Hout.
    assert (In q sorted) as Hqs by (by apply Hin).
    rewrite <- (take_drop n sorted) in Hqs, Hsorted.
    apply in_app_or in Hqs as [Hqs|Hqs]; [done|].
    apply Sorted_StronglySorted in Hsorted; [|intros x y z ? ?; lia].
    apply (StronglySorted_app_1_elem_of _ _ _ p q) in Hsorted;
      [done|by apply list_elem_of_In..].
  - intros Hcount q Hq Hfeatured Hactive.
    assert (length sorted = length (List.filter f (products db))) as Hlen
      by (apply Permutation_length, merge_sort_Permutation).
    rewrite take_ge by lia. by apply Hin.
Qed.

(** The counts of the categories add up to the number of rows. *)
Lemma category_counts_add_up (rows : list Product) :
  count_where (fun p => bool_decide (category p = ELECTRONICS)) rows
  + count_where (fun p => bool_decide (category p = CLOTHING)) rows
  + count_where (fun p => bool_decide (category p = FOOD)) rows
  + count_where (fun p => bool_decide (category p = BOOKS)) rows
  + count_where (fun p => bool_decide (category p = OTHER)) rows
  = Z.of_nat (length rows).
Proof.
  unfold count_where. induction rows as [|x rows IH]; [done|].
  cbn [List.filter]. destruct (category x);
    repeat first [rewrite bool_decide_eq_true_2 by done
                 |rewrite bool_decide_eq_false_2 by done];
    cbn [length]; lia.
Qed.

Lemma count_where_bounds (f : Product -> bool) (rows : list Product) :
  0 <= count_where f rows <= Z.of_nat (length rows).
Proof. unfold count_where. pose proof (filter_length_le f rows). lia. Qed.

Lemma count_where_positive (f : Product -> bool) (rows : list Product) :
  0 < count_where f rows <-> exists p, In p rows /\ f p = true.
Proof.
  unfold count_where. split.
  - destruct (List.filter f rows) as [|p l] eqn:Hf; [cbn; lia|]. intros _.
    exists p. apply filter_In. rewrite Hf. by left.
  - intros (p & Hp). apply filter_In in Hp.
    destruct (List.filter f rows); [done|cbn; lia].
Qed.

(** The rows of [GROUP BY category] for any table of counts. *)
Lemma groups_spec (cnt : ProductCategory -> Z) :
  (forall c, 0 <= cnt c) ->
  let groups := List.filter (fun g : ProductCategory * Z => 0 <? snd g)
                  ((fun c => (c, cnt c))
                     <$> [ELECTRONICS; CLOTHING; FOOD; BOOKS; OTHER]) in
  NoDup (fst <$> groups)
  /\ (forall c n, In (c, n) groups <-> n = cnt c /\ 0 < cnt c)
  /\ fold_right Z.add 0 (snd <$> groups)
     = cnt ELECTRONICS + cnt CLOTHING + cnt FOOD + cnt BOOKS + cnt OTHER.
Proof.
  intros Hpos groups. split; [|split].
  - subst groups. cbn [fmap list_fmap List.filter snd].
    destruct (0 <? cnt ELECTRONICS), (0 <? cnt CLOTHING), (0 <? cnt FOOD),
      (0 <? cnt BOOKS), (0 <? cnt OTHER); cbn;
      apply (bool_decide_unpack _); reflexivity.
  - intros c n. subst groups.
    rewrite filter_In, <- list_elem_of_In, list_elem_of_fmap.
    cbn [snd]. rewrite Z.ltb_lt. split.
    + intros [(c' & [= <- ->] & _) Hn]. done.
    + intros [-> Hn]. split; [|done]. exists c. split; [done|].
      destruct c;
        repeat first [apply list_elem_of_here | apply list_elem_of_further].
  - subst groups. cbn [fmap list_fmap List.filter snd].
    pose proof (Hpos ELECTRONICS). pose proof (Hpos CLOTHING).
    pose proof (Hpos FOOD). pose proof (Hpos BOOKS). pose proof (Hpos OTHER).
    destruct (Z.ltb_spec 0 (cnt ELECTRONICS)), (Z.ltb_spec 0 (cnt CLOTHING)),
      (Z.ltb_spec 0 (cnt FOOD)), (Z.ltb_spec 0 (cnt BOOKS)),
      (Z.ltb_spec 0 (cnt OTHER)); cbn; lia.
Qed.

(** X30. The statistics are consistent counts: [totalProducts] is the
    number of stored products; [activeProducts] and [outOfStock] lie
    between 0 and it; [byCategory] has one row for each category that some
    product has and none for the others, each with the number of products
    of the category, and these numbers add up to [totalProducts]; the
    products counted out of stock and the products in stock in the sense of
    the entity together are at most all products. *)
Theorem statistics_counts_consistent (db : Database) :
  totalProducts (getStatistics db) = Z.of_nat (length (products db))
  /\ 0 <= activeProducts (getStatistics db) <= totalProducts (getStatistics db)
  /\ 0 <= outOfStock (getStatistics db) <= totalProducts (getStatistics db)
  /\ NoDup (fst <$> byCategory (getStatistics db))
  /\ (forall c, (exists n, In (c, n) (byCategory (getStatistics db)))
                <-> (exists p, In p (products db) /\ category p = c))
  /\ (forall c n, In (c, n) (byCategory (getStatistics db)) ->
        n = count_where (fun p => bool_decide (category p = c)) (products db))
  /\ fold_right Z.add 0 (snd <$> byCategory (getStatistics db))
     = totalProducts (getStatistics db)
  /\ outOfStock (getStatistics db) + count_where isInStock (products db)
     <= totalProducts (getStatistics db).
Proof.
  unfold getStatistics.
  cbn [totalProducts activeProducts outOfStock byCategory].
  destruct (groups_spec
              (fun c => count_where (fun p => bool_decide (category p = c))
                          (products db)))
    as (Hnodup & Hrow & Hsum); [intros c; apply count_where_bounds|].
  cbv beta zeta in Hnodup, Hrow, Hsum.
  split; [done|]. split; [apply count_where_bounds|].
  split; [apply count_where_bounds|]. split; [done|]. split; [|split; [|split]].
  - intros c. split.
    + intros (n & [_ Hn]%Hrow). apply count_where_positive in Hn as (p & Hp & Hc).
      exists p. split; [done|]. by apply bool_decide_eq_true in Hc.
    + intros (p & Hp & Hc). eexists. apply Hrow. split; [done|].
      apply count_where_positive. exists p. split; [done|].
      by apply bool_decide_eq_true_2.
  - by intros c n [-> _]%Hrow.
  - rewrite Hsum. apply category_counts_add_up.
  - unfold count_where. clear. induction (products db) as [|x rows IH]; [done|].
    cbn [List.filter].
    destruct (Z.eqb_spec (stock x) 0) as [Hzero|], (isInStock x) eqn:Hstock;
      cbn [length]; try lia.
    unfold isInStock in Hstock. apply andb_true_iff in Hstock as [Hstock _]. lia.
Qed.

End ProductListingsMore.

Section ProductChecksMore.
Import Entities ProductsService.
#[local] Existing Instance Examples.no_match.

(** The three pages of the catalogue of 25 products, ten to a page; the
    products were created at 25 different times. *)
Lemma pages_partition_the_result_witness :
  let query := with_paging Examples.all_products None (Some 10) in
  concat ((fun k => data (findAll Examples.catalog25
                            (with_paging query (Some (Z.of_nat k)) (q_limit query))))
            <$> seq 1 (Z.to_nat (totalPages (meta (findAll Examples.catalog25 query)))))
  = merge_sort (ordered (order (filtered_query query)))
      (matching (filtered_query query) (products Examples.catalog25)).
Proof.
  assert (forall p1 p2,
            In p1 (matching
                     (filtered_query (with_paging Examples.all_products None (Some 10)))
                     (products Examples.catalog25)) ->
            In p2 (matching
                     (filtered_query (with_paging Examples.all_products None (Some 10)))
                     (products Examples.catalog25)) ->
            ordered (order (filtered_query
                              (with_paging Examples.all_products None (Some 10))))
                    p1 p2 ->
            ordered (order (filtered_query
                              (with_paging Examples.all_products None (Some 10))))
                    p2 p1 ->
            p1 = p2) as Hties.
  { assert (Forall (fun p1 =>
                      Forall (fun p2 =>
                                ordered (order (filtered_query
                                                  (with_paging Examples.all_products
                                                     None (Some 10)))) p1 p2 ->
                                ordered (order (filtered_query
                                                  (with_paging Examples.all_products
                                                     None (Some 10)))) p2 p1 ->
                                p1 = p2)
                             (matching
                                (filtered_query
                                   (with_paging Examples.all_products None (Some 10)))
                                (products Examples.catalog25)))
                   (matching
                      (filtered_query
                         (with_paging Examples.all_products None (Some 10)))
                      (products Examples.catalog25))) as Hall
      by (apply (bool_decide_unpack _); vm_compute; exact I).
    intros p1 p2 H1 H2. apply list_elem_of_In in H1, H2.
    rewrite Forall_forall in Hall. specialize (Hall p1 H1).
    rewrite Forall_forall in Hall. exact (Hall p2 H2). }
  exact (proj2 (pages_partition_the_result Examples.catalog25
                  (with_paging Examples.all_products None (Some 10))
                  ltac:(vm_compute; discriminate) Hties)).
Defined.

(** Page 3 of the catalogue has data, since page 2 says there is a next. *)
Lemma hasNextPage_iff_next_page_has_data_witness :
  let query := with_paging Examples.all_products (Some 2) (Some 10) in
  data (findAll Examples.catalog25
          (with_paging query (Some (default 1 (q_page query) + 1)) (q_limit query)))
  <> [].
Proof.
  apply (proj1 (hasNextPage_iff_next_page_has_data Examples.catalog25
                  (with_paging Examples.all_products (Some 2) (Some 10))
                  ltac:(vm_compute; discriminate) ltac:(vm_compute; discriminate))).
  vm_compute. reflexivity.
Defined.

(** The one product on the shelf that is active and in stock. *)
Lemma findAll_respects_filters_witness :
  status (Examples.item 2 ACTIVE 3) = ACTIVE
  /\ isInStock (Examples.item 2 ACTIVE 3) = true.
Proof.
  assert (In (Examples.item 2 ACTIVE 3)
             (data (findAll Examples.shelf Examples.active_in_stock))) as Hin
    by (vm_compute; left; reflexivity).
  destruct (findAll_respects_filters Examples.shelf Examples.active_in_stock
              (Examples.item 2 ACTIVE 3) Hin)
    as (_ & _ & Hstatus & _ & _ & _ & Hstock).
  split; [by apply Hstatus|by apply Hstock].
Defined.

(** Four units in, four units out. *)
Lemma stock_changes_add_up_witness :
  exists saved,
    (updateStock (updateStock Examples.shelf 2 4 77).2 2 (-4) 78).1 = Js.Ok saved
    /\ stock saved = 3.
Proof.
  destruct (stock_changes_add_up Examples.shelf 2 4 (-4) 77 78
              (Examples.item 2 ACTIVE 3) ltac:(reflexivity)
              ltac:(vm_compute; discriminate) ltac:(vm_compute; discriminate))
    as (saved & Hsaved & _ & _ & Hback).
  exists saved. split; [exact Hsaved|]. by apply Hback.
Defined.

Lemma updateStock_touches_one_product_witness :
  findOne (updateStock Examples.shelf 2 (-1) 77).2 1 = findOne Examples.shelf 1.
Proof.
  destruct (updateStock_touches_one_product Examples.shelf 2 (-1) 77) as [Hother _].
  apply Hother. discriminate.
Defined.


Lemma discountedPrice_bounds_witness :
  (0 <= discountedPrice (with_discountPercent (Examples.item 2 ACTIVE 3) 25))%Q
  /\ (discountedPrice (with_discountPercent (Examples.item 2 ACTIVE 3) 25)
      <= price (with_discountPercent (Examples.item 2 ACTIVE 3) 25))%Q.
Proof.
  destruct (discountedPrice_bounds
              (with_discountPercent (Examples.item 2 ACTIVE 3) 25))
    as (_ & _ & Hbounds & _).
  apply (Hbounds 25%Q); [reflexivity|vm_compute; discriminate..].
Defined.

Lemma shelf_unique_skus : unique_skus Examples.shelf.
Proof. apply (bool_decide_unpack _). vm_compute. exact I. Qed.

(** A gadget with a SKU joins the shelf. *)
Lemma product_create_keeps_skus_unique_witness :
  unique_skus
    (create Examples.shelf Examples.gadget_dto (user_entity Examples.alice) 3 900).2.
Proof.
  destruct (product_create_keeps_skus_unique Examples.shelf _ Examples.gadget_dto
              (user_entity Examples.alice) 3 900 _
              shelf_unique_skus ltac:(discriminate) (surjective_pairing _))
    as [Hskus _].
  exact Hskus.
Defined.

Lemma created_product_is_stored_witness :
  exists product,
    findOne
      (create Examples.shelf Examples.gadget_dto (user_entity Examples.alice) 3 900).2
      3 = Js.Ok product
    /\ stock product = 4
    /\ status product = DRAFT
    /\ createdById product = Some 1.
Proof.
  assert (exists product,
            create Examples.shelf Examples.gadget_dto (user_entity Examples.alice) 3 900
            = (Js.Ok product,
               (create Examples.shelf Examples.gadget_dto
                  (user_entity Examples.alice) 3 900).2))
    as [product Hcreate] by (eexists; reflexivity).
  assert (forall p, In p (products Examples.shelf) -> id p <> 3) as Hfresh
    by (intros p [<-|[<-|[]]]; discriminate).
  destruct (created_product_is_stored Examples.shelf _ Examples.gadget_dto
              (user_entity Examples.alice) 3 900 1 product Hcreate Hfresh
              ltac:(reflexivity))
    as (Hfind & _ & _ & Hstock & _ & Hstatus & _ & Hcreator & _).
  exists product. split; [exact Hfind|]. split; [exact Hstock|].
  split; [exact Hstatus|exact Hcreator].
Defined.


Lemma product_remove_deletes_witness :
  findOne (remove Examples.shelf 2).2 2
  = Js.Throw (Js.NotFoundException "Product with ID 2 not found").
Proof.
  destruct (product_remove_deletes Examples.shelf 2) as [_ Hgone].
  destruct (Hgone (Examples.item 2 ACTIVE 3) ltac:(reflexivity)) as (_ & Hfind & _).
  exact Hfind.
Defined.

(** The product with three left is on the low-stock list. *)
Lemma active_listings_exact_witness :
  In (Examples.item 2 ACTIVE 3) (getLowStockProducts Examples.shelf None).
Proof.
  destruct (active_listings_exact Examples.shelf) as (_ & _ & Hlow & _).
  apply Hlow. split; [right; left; reflexivity|]. split; [|reflexivity].
  vm_compute. split; [reflexivity|discriminate].
Defined.

(** The two newest of three featured books; the oldest is left out. *)
Lemma featured_are_the_newest_witness :
  Z.of_nat (length (getFeaturedProducts Examples.showcase (Some 2))) <= 2
  /\ (forall p, In p (getFeaturedProducts Examples.showcase (Some 2)) ->
        createdAt (Examples.spotlight 1) <= createdAt p).
Proof.
  destruct (featured_are_the_newest Examples.showcase (Some 2)
              ltac:(vm_compute; discriminate))
    as (Hlength & _ & _ & Hnewest & _).
  split; [exact Hlength|].
  intros p Hp.
  apply (Hnewest p (Examples.spotlight 1) Hp);
    [left; reflexivity|reflexivity|reflexivity|].
  vm_compute. intros [Hin|[Hin|[]]]; discriminate Hin.
Defined.

End ProductChecksMore.
